(** * liquidsoap.py: the reconnecting telnet connection, verified

    A shallow embedding of [src/liquidsoap.py] (classes [Connection] and
    [Console]) together with the parts of Python's [str], [bytes] and
    [socket] that the two classes call, followed by the properties of the
    framed request/response exchange. *)

From Stdlib Require Import String Ascii Strings.Byte.
From Stdlib Require Import NArith ZArith Arith Bool Lia List.
Import ListNotations.
Local Open Scope list_scope.

(** ** Python values *)

(** [bytes] and [bytearray] objects are sequences of octets. *)
Definition bytes := list byte.

(** A [str] is a sequence of Unicode code points. *)
Definition str := list N.

(** A [str] literal of the source, written with ASCII characters. *)
Definition lit (s : string) : str := map N_of_ascii (list_ascii_of_string s).

(** The exception classes that can reach the code of [liquidsoap.py]. *)
Inductive exn_class :=
| OSError
| ConnectionRefusedError
| ConnectionResetError
| BrokenPipeError
| FileNotFoundError
| TimeoutError
| gaierror
| ValueError
| OverflowError
| UnicodeEncodeError
| UnicodeDecodeError
| AttributeError
| KeyboardInterrupt.

Record exn := Exn { exn_cls : exn_class; exn_msg : string }.

(** [issubclass(cls, OSError)]: what an [except OSError] clause catches.
    [socket.timeout], [socket.gaierror] and the connection errors all derive
    from [OSError]. *)
Definition is_OSError (e : exn) : bool :=
  match exn_cls e with
  | OSError | ConnectionRefusedError | ConnectionResetError | BrokenPipeError
  | FileNotFoundError | TimeoutError | gaierror => true
  | ValueError | OverflowError | UnicodeEncodeError | UnicodeDecodeError
  | AttributeError | KeyboardInterrupt => false
  end.

Module Py.

(** *** [bytes] *)

Definition byte_of (n : N) : byte :=
  match Byte.of_N (n mod 256) with Some b => b | None => x00 end.

Fixpoint bytes_eqb (a b : bytes) : bool :=
  match a, b with
  | [], [] => true
  | x :: a', y :: b' => Byte.eqb x y && bytes_eqb a' b'
  | _, _ => false
  end.

(** [b.endswith(suffix)] *)
Definition endswith (b suffix : bytes) : bool :=
  (length suffix <=? length b)%nat
  && bytes_eqb (skipn (length b - length suffix) b) suffix.

(** [s[:-n]] for a non-negative [n]: Python reads [-0] as [0], so
    [s[:-0]] is the empty string; otherwise the last [n] items are cut
    off (everything, when [n] exceeds the length). *)
Definition slice_to_neg {A} (s : list A) (n : nat) : list A :=
  match n with
  | O => []
  | _ => firstn (length s - n) s
  end.

(** *** UTF-8, the default codec of [str.encode] and [bytes.decode] *)

Definition in_range (lo hi : N) (b : byte) : bool :=
  ((lo <=? Byte.to_N b) && (Byte.to_N b <=? hi))%N.

Definition cont (b : byte) : bool := in_range 0x80 0xBF b.

Definition cbits (b : byte) : N := (Byte.to_N b - 0x80)%N.

(** The second byte of a three-byte form: [E0] excludes overlong forms,
    [ED] excludes the surrogates. *)
Definition second3 (b0 b1 : byte) : bool :=
  if (Byte.to_N b0 =? 0xE0)%N then in_range 0xA0 0xBF b1
  else if (Byte.to_N b0 =? 0xED)%N then in_range 0x80 0x9F b1
  else cont b1.

(** The second byte of a four-byte form: [F0] excludes overlong forms,
    [F4] stops at U+10FFFF. *)
Definition second4 (b0 b1 : byte) : bool :=
  if (Byte.to_N b0 =? 0xF0)%N then in_range 0x90 0xBF b1
  else if (Byte.to_N b0 =? 0xF4)%N then in_range 0x80 0x8F b1
  else cont b1.

(** [b.decode()], strict: [None] stands for [UnicodeDecodeError]. *)
Fixpoint decode (b : bytes) : option str :=
  match b with
  | [] => Some []
  | b0 :: r0 =>
    if (Byte.to_N b0 <? 0x80)%N then
      option_map (cons (Byte.to_N b0)) (decode r0)
    else
      match r0 with
      | [] => None
      | b1 :: r1 =>
        if in_range 0xC2 0xDF b0 then
          if cont b1 then
            option_map (cons ((Byte.to_N b0 - 0xC0) * 64 + cbits b1)%N)
                       (decode r1)
          else None
        else
          match r1 with
          | [] => None
          | b2 :: r2 =>
            if in_range 0xE0 0xEF b0 then
              if second3 b0 b1 && cont b2 then
                option_map
                  (cons ((Byte.to_N b0 - 0xE0) * 4096
                         + cbits b1 * 64 + cbits b2)%N)
                  (decode r2)
              else None
            else
              match r2 with
              | [] => None
              | b3 :: r3 =>
                if in_range 0xF0 0xF4 b0
                   && second4 b0 b1 && cont b2 && cont b3 then
                  option_map
                    (cons ((Byte.to_N b0 - 0xF0) * 262144
                           + cbits b1 * 4096 + cbits b2 * 64 + cbits b3)%N)
                    (decode r3)
                else None
              end
          end
      end
  end.

(** The UTF-8 form of one code point; [None] for a surrogate (or a value
    that is no code point), where [str.encode] raises. *)
Definition encode1 (c : N) : option bytes :=
  (if c <? 0x80 then Some [byte_of c]
   else if c <? 0x800 then
     Some [byte_of (0xC0 + c / 64); byte_of (0x80 + c mod 64)]
   else if c <? 0x10000 then
     if (0xD800 <=? c) && (c <=? 0xDFFF) then None
     else Some [byte_of (0xE0 + c / 4096);
                byte_of (0x80 + (c / 64) mod 64);
                byte_of (0x80 + c mod 64)]
   else if c <? 0x110000 then
     Some [byte_of (0xF0 + c / 262144);
           byte_of (0x80 + (c / 4096) mod 64);
           byte_of (0x80 + (c / 64) mod 64);
           byte_of (0x80 + c mod 64)]
   else None)%N.

(** [s.encode()], strict: [None] stands for [UnicodeEncodeError]. *)
Fixpoint encode (s : str) : option bytes :=
  match s with
  | [] => Some []
  | c :: s' =>
    match encode1 c, encode s' with
    | Some b, Some r => Some (b ++ r)
    | _, _ => None
    end
  end.

(** *** [str] *)

(** [c.isspace()]: the characters [str.strip()] removes. *)
Definition isspace (c : N) : bool :=
  ((0x09 <=? c) && (c <=? 0x0D)
   || (0x1C <=? c) && (c <=? 0x20)
   || (c =? 0x85) || (c =? 0xA0) || (c =? 0x1680)
   || (0x2000 <=? c) && (c <=? 0x200A)
   || (c =? 0x2028) || (c =? 0x2029) || (c =? 0x202F)
   || (c =? 0x205F) || (c =? 0x3000))%N.

Fixpoint lstrip (s : str) : str :=
  match s with
  | c :: s' => if isspace c then lstrip s' else s
  | [] => []
  end.

(** [s.strip()] *)
Definition strip (s : str) : str := rev (lstrip (rev (lstrip s))).

(** [':' in s] *)
Definition colon : N := 58.

Definition contains (c : N) (s : str) : bool := existsb (N.eqb c) s.

(** [s.split(sep, 1)] for a one-character separator: one item when the
    separator is absent, otherwise the text before its first occurrence
    and the text after it. *)
Fixpoint split1 (sep : N) (s : str) : list str :=
  match s with
  | [] => [[]]
  | c :: s' =>
    if (c =? sep)%N then [[]; s']
    else match split1 sep s' with
         | h :: t => (c :: h) :: t
         | [] => [[c]]
         end
  end.

(** [int(s)] on text, as CPython 3.11 reads it. A text that is not all
    ASCII is first rewritten ([_PyUnicode_TransformDecimalAndSpaceToASCII]):
    a white-space character becomes a blank and a decimal digit of any
    script its ASCII digit, and the text is cut at the first other
    character beyond ASCII, which is left as a question mark. What is read
    then is ASCII white space on both sides, an optional sign, and the
    digits [0] to [9], where single underscores may separate digits; more
    digits than [sys.get_int_max_str_digits()] are refused. [None] stands
    for [ValueError]. *)

(** [Py_ISSPACE]: tab to carriage return, and the blank. The separators
    U+001C to U+001F, which [str.strip()] removes, are none of them. *)
Definition ascii_isspace (c : N) : bool :=
  ((0x09 <=? c) && (c <=? 0x0D) || (c =? 0x20))%N.

(** The digit zero of every script that has decimal digits (Unicode 14.0,
    general category Nd); the nine digits after each follow it. *)
Definition decimal_zeros : list N :=
  [
   0x30; 0x660; 0x6f0; 0x7c0; 0x966; 0x9e6; 0xa66; 0xae6;
   0xb66; 0xbe6; 0xc66; 0xce6; 0xd66; 0xde6; 0xe50; 0xed0;
   0xf20; 0x1040; 0x1090; 0x17e0; 0x1810; 0x1946; 0x19d0; 0x1a80;
   0x1a90; 0x1b50; 0x1bb0; 0x1c40; 0x1c50; 0xa620; 0xa8d0; 0xa900;
   0xa9d0; 0xa9f0; 0xaa50; 0xabf0; 0xff10; 0x104a0; 0x10d30; 0x11066;
   0x110f0; 0x11136; 0x111d0; 0x112f0; 0x11450; 0x114d0; 0x11650; 0x116c0;
   0x11730; 0x118e0; 0x11950; 0x11c50; 0x11d50; 0x11da0; 0x16a60; 0x16ac0;
   0x16b50; 0x1d7ce; 0x1d7d8; 0x1d7e2; 0x1d7ec; 0x1d7f6; 0x1e140; 0x1e2f0;
   0x1e950; 0x1fbf0
  ]%N.

(** [Py_UNICODE_TODECIMAL] *)
Definition decimal (c : N) : option N :=
  match find (fun z => (z <=? c) && (c <? z + 10))%N decimal_zeros with
  | Some z => Some (c - z)%N
  | None => None
  end.

Fixpoint transform (s : str) : str :=
  match s with
  | [] => []
  | c :: s' =>
    if (c <? 127)%N then c :: transform s'
    else if isspace c then 32%N :: transform s'
    else match decimal c with
         | Some d => (48 + d)%N :: transform s'
         | None => [63%N]
         end
  end.

Definition to_ascii (s : str) : str :=
  if forallb (fun c => (c <? 128)%N) s then s else transform s.

Fixpoint lstrip_ascii (s : str) : str :=
  match s with
  | c :: s' => if ascii_isspace c then lstrip_ascii s' else s
  | [] => []
  end.

Definition strip_ascii (s : str) : str :=
  rev (lstrip_ascii (rev (lstrip_ascii s))).

Definition digit (c : N) : option Z :=
  if ((48 <=? c) && (c <=? 57))%N then Some (Z.of_N c - 48)%Z else None.

Fixpoint digits (acc : Z) (after_digit : bool) (s : str) : option Z :=
  match s with
  | [] => if after_digit then Some acc else None
  | c :: s' =>
    match digit c with
    | Some d => digits (acc * 10 + d)%Z true s'
    | None =>
      if (c =? 95)%N && after_digit then digits acc false s' else None
    end
  end.

(** [sys.get_int_max_str_digits()], as the interpreter is started. *)
Definition int_max_str_digits : N := 4300.

(** The digits after the sign: their number is checked, underscores not
    counted, and their value read. *)
Definition number (s : str) : option Z :=
  let count :=
    length (filter (fun c => match digit c with
                             | Some _ => true
                             | None => false
                             end) s) in
  if (N.of_nat count <=? int_max_str_digits)%N then digits 0 false s
  else None.

Definition int (s : str) : option Z :=
  match strip_ascii (to_ascii s) with
  | [] => None
  | c :: s' =>
    if (c =? 45)%N then option_map Z.opp (number s')
    else if (c =? 43)%N then number s'
    else number (c :: s')
  end.

End Py.

(** ** Running Python code: outcomes and the state they leave *)

(** A call returns a value, raises, or never comes back: [Hang] is a
    blocking socket call on a link where nothing happens any more, and
    [OutOfFuel] marks a loop cut off by its iteration budget (the budgets
    used below are shown to suffice, see [send_fuel_suffices]). *)
Inductive result (A : Type) :=
| Ret (a : A)
| Raise (e : exn)
| Hang
| OutOfFuel.

Arguments Ret {A} a.
Arguments Raise {A} e.
Arguments Hang {A}.
Arguments OutOfFuel {A}.

(** ** The [socket] module *)

Module Socket.

Inductive family := AF_INET | AF_UNIX.

Inductive sockaddr :=
| Inet (host : str) (port : Z)
| Unix (path : str).

(** What the link does on the next [send]: it takes at most [n] bytes,
    or the call raises. *)
Inductive tx_event :=
| TxAccept (n : nat)
| TxRaise (e : exn).

(** What the link does on the next [recv] when nothing is buffered: a
    segment arrives (the empty segment is the peer's close), or the call
    raises (a timeout, a reset, an interrupt). *)
Inductive rx_event :=
| RxData (chunk : bytes)
| RxRaise (e : exn).

(** A socket object. [tx] and [rx] script the future of the link, [rxbuf]
    holds bytes that arrived and were not handed out yet. Past the end of
    a script the link is silent. *)
Record t := mk {
  fd : nat;
  af : family;
  connected : bool;
  closed : bool;
  timeout : option N;
  tx : list tx_event;
  rx : list rx_event;
  rxbuf : bytes
}.

(** What the next [connect] meets. *)
Inductive link :=
| Refuse (e : exn)
| Establish (tx : list tx_event) (rx : list rx_event).

(** What the transport sees. *)
Inductive event :=
| EvSocket (fd : nat) (af : family)
| EvConnect (fd : nat) (a : sockaddr) (err : option exn)
| EvSend (fd : nat) (accepted : bytes)
| EvRecv (fd : nat) (data : bytes)
| EvError (fd : nat) (e : exn)
| EvClose (fd : nat).

Record world := mkWorld {
  net : list link;
  next_fd : nat;
  trace : list event
}.

Definition logs (evs : list event) (w : world) : world :=
  mkWorld (net w) (next_fd w) (trace w ++ evs).

Definition log (ev : event) (w : world) : world := logs [ev] w.

Definition with_tx (s : t) (txs : list tx_event) : t :=
  mk (fd s) (af s) (connected s) (closed s) (timeout s) txs (rx s) (rxbuf s).

Definition with_rx (s : t) (rxs : list rx_event) (buf : bytes) : t :=
  mk (fd s) (af s) (connected s) (closed s) (timeout s) (tx s) rxs buf.

Definition EBADF : exn := Exn OSError "[Errno 9] Bad file descriptor".
Definition ENOTCONN : exn :=
  Exn OSError "[Errno 107] Transport endpoint is not connected".
Definition EISCONN : exn :=
  Exn OSError "[Errno 106] Transport endpoint is already connected".
Definition ECONNREFUSED : exn :=
  Exn ConnectionRefusedError "[Errno 111] Connection refused".
Definition timed_out : exn := Exn TimeoutError "timed out".

(** A call on a silent link: it times out when a timeout is set and
    blocks for ever otherwise. *)
Definition silent {A} (s : t) : result A :=
  match timeout s with
  | Some _ => Raise timed_out
  | None => Hang
  end.

(** [socket.socket(af)] *)
Definition socket (f : family) (w : world) : t * world :=
  (mk (next_fd w) f false false None [] [] [],
   mkWorld (net w) (S (next_fd w)) (trace w ++ [EvSocket (next_fd w) f])).

(** [s.connect(address)] *)
Definition connect (a : sockaddr) (s : t) (w : world)
  : result unit * t * world :=
  if closed s then (Raise EBADF, s, w)
  else if connected s then (Raise EISCONN, s, w)
  else
    match net w with
    | [] => (Raise ECONNREFUSED, s,
             log (EvConnect (fd s) a (Some ECONNREFUSED)) w)
    | Refuse e :: n =>
      (Raise e, s,
       mkWorld n (next_fd w) (trace w ++ [EvConnect (fd s) a (Some e)]))
    | Establish txs rxs :: n =>
      (Ret tt,
       mk (fd s) (af s) true (closed s) (timeout s) txs rxs [],
       mkWorld n (next_fd w) (trace w ++ [EvConnect (fd s) a None]))
    end.

(** [s.settimeout(seconds)], the value kept in milliseconds. *)
Definition settimeout (ms : N) (s : t) (w : world)
  : result unit * t * world :=
  if closed s then (Raise EBADF, s, w)
  else (Ret tt,
        mk (fd s) (af s) (connected s) (closed s) (Some ms)
           (tx s) (rx s) (rxbuf s),
        w).

(** [s.send(data)]: the number of bytes the link took. *)
Definition send (data : bytes) (s : t) (w : world)
  : result nat * t * world :=
  if closed s then (Raise EBADF, s, w)
  else if negb (connected s) then (Raise ENOTCONN, s, w)
  else
    match tx s with
    | [] => (silent s, s, w)
    | TxAccept n :: txs =>
      let k := Nat.min n (length data) in
      (Ret k, with_tx s txs, log (EvSend (fd s) (firstn k data)) w)
    | TxRaise e :: txs =>
      (Raise e, with_tx s txs, log (EvError (fd s) e) w)
    end.

(** [s.recv(bufsize)]: at most [bufsize] of the bytes that are there;
    [b''] once the peer has closed, which stays so. *)
Definition recv (bufsize : nat) (s : t) (w : world)
  : result bytes * t * world :=
  if closed s then (Raise EBADF, s, w)
  else if negb (connected s) then (Raise ENOTCONN, s, w)
  else
    match rxbuf s with
    | _ :: _ =>
      (Ret (firstn bufsize (rxbuf s)),
       with_rx s (rx s) (skipn bufsize (rxbuf s)),
       log (EvRecv (fd s) (firstn bufsize (rxbuf s))) w)
    | [] =>
      match rx s with
      | [] => (silent s, s, w)
      | RxData [] :: _ => (Ret [], s, log (EvRecv (fd s) []) w)
      | RxData chunk :: rxs =>
        (Ret (firstn bufsize chunk),
         with_rx s rxs (skipn bufsize chunk),
         log (EvRecv (fd s) (firstn bufsize chunk)) w)
      | RxRaise e :: rxs =>
        (Raise e, with_rx s rxs [], log (EvError (fd s) e) w)
      end
    end.

(** [s.close()]: closing twice is allowed and does nothing. *)
Definition close (s : t) (w : world) : result unit * t * world :=
  if closed s then (Ret tt, s, w)
  else (Ret tt,
        mk (fd s) (af s) (connected s) true (timeout s)
           (tx s) (rx s) (rxbuf s),
        log (EvClose (fd s)) w).

(** A socket that is open and connected. *)
Definition usable (s : t) : bool := negb (closed s) && connected s.

(** The bytes still to come on a socket, each segment counted with the
    call that fetches it: a bound on the reads that return data. *)
Definition pending (s : t) : nat :=
  length (rxbuf s)
  + fold_right (fun ev n =>
                  match ev with
                  | RxData chunk => S (length chunk) + n
                  | RxRaise _ => S n
                  end) 0 (rx s).

End Socket.

(** ** The state of the program: the [Connection] object and the world *)

Record connection := Conn {
  socket_addr : str;
  socket : option Socket.t
}.

Record state := St {
  self : connection;
  env : Socket.world
}.

Definition M (A : Type) : Type := state -> result A * state.

Definition ret {A} (a : A) : M A := fun st => (Ret a, st).

Definition raise {A} (e : exn) : M A := fun st => (Raise e, st).

Definition bind {A B} (m : M A) (k : A -> M B) : M B :=
  fun st =>
    match m st with
    | (Ret a, st') => k a st'
    | (Raise e, st') => (Raise e, st')
    | (Hang, st') => (Hang, st')
    | (OutOfFuel, st') => (OutOfFuel, st')
    end.

Declare Scope py_scope.
Delimit Scope py_scope with py.
Notation "x <- m ;; k" := (bind m (fun x => k))
  (at level 61, m at next level, right associativity) : py_scope.
Notation "m ;; k" := (bind m (fun _ => k))
  (at level 61, right associativity) : py_scope.
Local Open Scope py_scope.

(** [try: body / except OSError: handler] *)
Definition try_except_OSError {A} (body handler : M A) : M A :=
  fun st =>
    match body st with
    | (Raise e, st') =>
      if is_OSError e then handler st' else (Raise e, st')
    | r => r
    end.

(** Reading [self.socket]. *)
Definition get_socket : M (option Socket.t) :=
  fun st => (Ret (socket (self st)), st).

(** [self.socket = v] *)
Definition set_socket (v : option Socket.t) : M unit :=
  fun st => (Ret tt, St (Conn (socket_addr (self st)) v) (env st)).

Definition get_addr : M str := fun st => (Ret (socket_addr (self st)), st).

Definition NoneType_has_no (attr : string) : exn :=
  Exn AttributeError ("'NoneType' object has no attribute " ++ attr)%string.

(** [self.socket.meth(...)]: the attribute lookup fails on [None]. *)
Definition on_socket {A} (attr : string)
    (meth : Socket.t -> Socket.world -> result A * Socket.t * Socket.world)
  : M A :=
  fun st =>
    match socket (self st) with
    | None => (Raise (NoneType_has_no attr), st)
    | Some s =>
      let '(r, s', w') := meth s (env st) in
      (r, St (Conn (socket_addr (self st)) (Some s')) w')
    end.

(** [self.socket = socket.socket(af)] *)
Definition new_socket (f : Socket.family) : M unit :=
  fun st =>
    let '(s, w') := Socket.socket f (env st) in
    (Ret tt, St (Conn (socket_addr (self st)) (Some s)) w').

Definition of_option {A} (e : exn) (o : option A) : M A :=
  match o with
  | Some a => ret a
  | None => raise e
  end.

(** ** class Connection *)

Module Connection.

Definition END_MARKER : bytes := [x0d; x0a; x45; x4e; x44; x0d; x0a].
Definition BUFSIZE : nat := 4096.
Definition QUIT_CMD : str := lit "quit".
Definition QUIT_MARKER : bytes := [x42; x79; x65; x21; x0d; x0a].

(** [Connection(socket_addr)] *)
Definition __init__ (socket_addr : str) : connection :=
  Conn socket_addr None.

Definition lost : exn := Exn OSError "Connection lost".

Definition _connect : M unit :=
  addr <- get_addr ;;
  if Py.contains Py.colon addr then
    match Py.split1 Py.colon addr with
    | [host; port] =>
      new_socket Socket.AF_INET ;;
      p <- of_option (Exn ValueError "invalid literal for int()")
                     (Py.int port) ;;
      on_socket "connect" (Socket.connect (Socket.Inet host p)) ;;
      on_socket "settimeout" (Socket.settimeout 100)
    | _ => raise (Exn ValueError "not enough values to unpack")
    end
  else
    new_socket Socket.AF_UNIX ;;
    on_socket "connect" (Socket.connect (Socket.Unix addr)) ;;
    on_socket "settimeout" (Socket.settimeout 100).

Definition __enter__ : M unit :=
  s <- get_socket ;;
  match s with
  | None => _connect
  | Some _ => ret tt
  end.

(** The first loop of [send]: [while total < len(request)]. *)
Fixpoint write_loop (fuel : nat) (request : bytes) (total : nat) : M unit :=
  if total <? length request then
    match fuel with
    | O => fun st => (OutOfFuel, st)
    | S fuel' =>
      sent <- on_socket "send" (Socket.send (skipn total request)) ;;
      if sent =? 0 then
        set_socket None ;;
        raise lost
      else write_loop fuel' request (total + sent)
    end
  else ret tt.

(** The second loop of [send]: [while not reply.endswith(marker)]. *)
Fixpoint read_loop (fuel : nat) (marker reply : bytes) : M bytes :=
  if Py.endswith reply marker then ret reply
  else
    match fuel with
    | O => fun st => (OutOfFuel, st)
    | S fuel' =>
      chunk <- on_socket "recv" (Socket.recv BUFSIZE) ;;
      match chunk with
      | [] =>
        set_socket None ;;
        raise lost
      | _ :: _ => read_loop fuel' marker (reply ++ chunk)
      end
    end.

(** The iteration budget of the read loop, from what the link still holds. *)
Definition read_fuel : M nat :=
  fun st =>
    (Ret match socket (self st) with
         | Some s => S (Socket.pending s)
         | None => 1
         end, st).

(** Lines 44 to 51 of [send]: the request, framed and written. *)
Definition write_request (command : str) : M unit :=
  data <- of_option (Exn UnicodeEncodeError "surrogates not allowed")
                    (Py.encode (Py.strip command)) ;;
  let request := data ++ [x0a] in
  write_loop (S (length request)) request 0.

(** Lines 53 to 60 of [send]: the reply, read up to the marker. *)
Definition read_reply (marker : bytes) : M str :=
  fuel <- read_fuel ;;
  reply <- read_loop fuel marker [] ;;
  text <- of_option (Exn UnicodeDecodeError "invalid utf-8")
                    (Py.decode reply) ;;
  ret (Py.slice_to_neg text (length marker)).

Definition send (command : str) (marker : bytes) : M str :=
  s <- get_socket ;;
  match s with
  | None => _connect
  | Some _ => ret tt
  end ;;
  write_request command ;;
  read_reply marker.

Definition __exit__ : M unit :=
  s <- get_socket ;;
  match s with
  | Some _ =>
    try_except_OSError (send QUIT_CMD QUIT_MARKER ;; ret tt) (ret tt) ;;
    on_socket "close" Socket.close
  | None => ret tt
  end.

End Connection.

(** ** class Console *)

Module Console.

(** [Console._send]: [self.connection] is the one [Connection] of the
    program. *)
Definition _send (line : str) : M str :=
  try_except_OSError (Connection.send line Connection.END_MARKER)
                     (Connection.send line Connection.END_MARKER).

End Console.

(** ** Vocabulary of the statements *)

(** The program state in which [self.socket] is the socket [s]. *)
Definition at_socket (a : str) (s : Socket.t) (w : Socket.world) : state :=
  St (Conn a (Some s)) w.

(** The program state in which [self.socket] is [None]. *)
Definition no_socket (a : str) (w : Socket.world) : state :=
  St (Conn a None) w.

(** How [data] leaves in successive writes that take [ns] bytes each. *)
Fixpoint pieces (data : bytes) (ns : list nat) : list bytes :=
  match ns with
  | [] => []
  | n :: ns' => firstn n data :: pieces (skipn n data) ns'
  end.

(** No proper prefix of [data], put after [acc], ends with [marker]: the
    read loop that holds [acc] does not stop before all of [data] is in. *)
Definition quiet (marker acc data : bytes) : bool :=
  forallb (fun k => negb (Py.endswith (acc ++ firstn k data) marker))
          (seq 0 (length data)).

(** [marker] occurs somewhere in [data]. *)
Definition occurs (marker data : bytes) : bool :=
  existsb (fun k => Py.endswith (firstn k data) marker)
          (seq 0 (S (length data))).

(** Every write of the list takes at least one byte. *)
Definition all_positive (ns : list nat) : bool := forallb (Nat.leb 1) ns.

(** Every segment of the list holds at least one byte. *)
Definition all_nonempty (chunks : list bytes) : bool :=
  forallb (fun c => match c with [] => false | _ :: _ => true end) chunks.

(** Every byte of the marker is an ASCII character. *)
Definition ascii_byte (b : byte) : bool := (Byte.to_N b <? 0x80)%N.

(** What a list of events wrote to the link. *)
Definition sent_bytes (evs : list Socket.event) : bytes :=
  flat_map (fun ev => match ev with
                      | Socket.EvSend _ d => d
                      | _ => []
                      end) evs.

(** How many connection attempts a list of events holds. *)
Definition connects (evs : list Socket.event) : nat :=
  length (filter (fun ev => match ev with
                            | Socket.EvConnect _ _ _ => true
                            | _ => false
                            end) evs).

(** A write-side event on the socket [fd]. *)
Definition is_tx (fd : nat) (ev : Socket.event) : bool :=
  match ev with
  | Socket.EvSend f _ | Socket.EvError f _ => f =? fd
  | _ => false
  end.

(** A read-side event on the socket [fd]. *)
Definition is_rx (fd : nat) (ev : Socket.event) : bool :=
  match ev with
  | Socket.EvRecv f _ | Socket.EvError f _ => f =? fd
  | _ => false
  end.

(** An input or output event on the socket [fd]: no socket is made,
    connected or closed. *)
Definition is_io (fd : nat) (ev : Socket.event) : bool :=
  is_tx fd ev || is_rx fd ev.

(** The link gives out during the exchange of [request]: a write takes
    no byte before the request is out, or, the request being out, a read
    finds the peer gone before the marker came. *)
Inductive gives_out (request marker : bytes) (s : Socket.t) : Prop :=
| zero_write ns txs :
    Socket.tx s = map Socket.TxAccept ns ++ Socket.TxAccept 0 :: txs ->
    all_positive ns = true ->
    list_sum ns < length request ->
    gives_out request marker s
| zero_read ns txs chunks rxs :
    Socket.tx s = map Socket.TxAccept ns ++ txs ->
    all_positive ns = true ->
    length request <= list_sum ns ->
    Socket.rx s = map Socket.RxData chunks ++ Socket.RxData [] :: rxs ->
    all_nonempty chunks = true ->
    occurs marker (Socket.rxbuf s ++ concat chunks) = false ->
    gives_out request marker s.

(** A call on the socket raises [e] during the exchange of [request]: a
    write before the request is out, or, the request being out, a read
    before the marker came. The call raises because the link makes it
    raise, or because the link has fallen silent and the timeout of the
    socket runs out. *)
Inductive call_raises (request marker : bytes) (s : Socket.t) (e : exn)
  : Prop :=
| write_raises ns txs :
    Socket.tx s = map Socket.TxAccept ns ++ Socket.TxRaise e :: txs ->
    all_positive ns = true ->
    list_sum ns < length request ->
    call_raises request marker s e
| read_raises ns txs chunks rxs :
    Socket.tx s = map Socket.TxAccept ns ++ txs ->
    all_positive ns = true ->
    length request <= list_sum ns ->
    Socket.rx s = map Socket.RxData chunks ++ Socket.RxRaise e :: rxs ->
    all_nonempty chunks = true ->
    occurs marker (Socket.rxbuf s ++ concat chunks) = false ->
    call_raises request marker s e
| write_stalls ns ms :
    Socket.tx s = map Socket.TxAccept ns ->
    all_positive ns = true ->
    list_sum ns < length request ->
    Socket.timeout s = Some ms ->
    e = Socket.timed_out ->
    call_raises request marker s e
| read_stalls ns txs chunks ms :
    Socket.tx s = map Socket.TxAccept ns ++ txs ->
    all_positive ns = true ->
    length request <= list_sum ns ->
    Socket.rx s = map Socket.RxData chunks ->
    all_nonempty chunks = true ->
    occurs marker (Socket.rxbuf s ++ concat chunks) = false ->
    Socket.timeout s = Some ms ->
    e = Socket.timed_out ->
    call_raises request marker s e.

(** The family [_connect] picks for an address. *)
Definition family_for (addr : str) : Socket.family :=
  if Py.contains Py.colon addr then Socket.AF_INET else Socket.AF_UNIX.

(** The socket address [_connect] hands to [connect], when the address
    yields one: the path itself, or the host and the port number around
    the first colon. *)
Definition target (addr : str) : option Socket.sockaddr :=
  if Py.contains Py.colon addr then
    match Py.split1 Py.colon addr with
    | [host; port] => option_map (Socket.Inet host) (Py.int port)
    | _ => None
    end
  else Some (Socket.Unix addr).

(** The socket that [socket.socket] makes in the world [w], and the world
    after it. *)
Definition made_socket (addr : str) (w : Socket.world) : Socket.t :=
  Socket.mk (Socket.next_fd w) (family_for addr) false false None [] [] [].

Definition made_world (addr : str) (w : Socket.world) : Socket.world :=
  Socket.mkWorld (Socket.net w) (S (Socket.next_fd w))
    (Socket.trace w ++ [Socket.EvSocket (Socket.next_fd w) (family_for addr)]).

(** What [send] does once there is a socket: lines 44 to 60. *)
Definition exchange (command : str) (marker : bytes) : M str :=
  Connection.write_request command ;; Connection.read_reply marker.

(** The class of the exception a call raised, if it raised. *)
Definition exn_cls_of {A} (r : result A) : option exn_class :=
  match r with
  | Raise e => Some (exn_cls e)
  | _ => None
  end.

(** The framed request of a command: its text without the white space
    around it, encoded, and a line feed; nothing when the text cannot be
    encoded, for nothing is sent then. *)
Definition request_of (command : str) : bytes :=
  match Py.encode (Py.strip command) with
  | Some data => data ++ [x0a]
  | None => []
  end.

(** What is left when input and output on the socket [s] alone led from
    the world [w] to the state [st'] with the outcome [r]: the socket is
    the same one, or it was dropped after a call that moved no byte, and
    the outcome is then the error of a lost link. *)
Definition io_only {A} (a : str) (s : Socket.t) (w : Socket.world)
    (r : result A) (st' : state) (evs : list Socket.event) : Prop :=
  exists o,
    st' = St (Conn a o) (Socket.logs evs w)
    /\ forallb (is_io (Socket.fd s)) evs = true
    /\ match o with
       | None =>
         r = Raise Connection.lost
         /\ exists evs0,
             evs = evs0 ++ [Socket.EvSend (Socket.fd s) []]
             \/ evs = evs0 ++ [Socket.EvRecv (Socket.fd s) []]
       | Some s' => Socket.fd s' = Socket.fd s
       end.

(** What every run of a loop on the socket [s] leaves: the same address,
    the same world but for events [evs] on that socket, and either the
    socket, or no socket and the error of a lost link after a call that
    moved no byte. *)
Definition left_by (zero : Socket.event) (a : str) (s : Socket.t)
    (w : Socket.world) {A} (r : result A) (st' : state)
    (evs : list Socket.event) : Prop :=
  exists o,
    st' = St (Conn a o) (Socket.logs evs w)
    /\ match o with
       | None => r = Raise Connection.lost /\ exists evs0, evs = evs0 ++ [zero]
       | Some s' => Socket.fd s' = Socket.fd s
       end
    /\ r <> OutOfFuel.

(** The events of one attempt at an exchange: at most one connection
    attempt, and what was sent is the request or a beginning of it. *)
Definition one_attempt (command : str) (evs : list Socket.event) : Prop :=
  connects evs <= 1
  /\ exists rest, sent_bytes evs ++ rest = request_of command.

(** A connection that was closed or has no socket. *)
Definition shut (st : state) : bool :=
  match socket (self st) with
  | None => true
  | Some s => Socket.closed s
  end.

(** The cost of reading [buf] and then [chunks]: one read per byte at
    worst, and one per segment. *)
Definition weight (buf : bytes) (chunks : list bytes) : nat :=
  length buf + list_sum (map (fun c => S (length c)) chunks).

(** ** Sample transports *)

(** A [bytes] literal without escapes. *)
Definition ascii_bytes (s : string) : bytes :=
  map byte_of_ascii (list_ascii_of_string s).

Module Sample.

(** A server that takes the request in two writes and sends
    [Liquidsoap 2.2.0] and the end marker in two segments, the marker
    cut after its third byte. *)
Definition version_server : Socket.link :=
  Socket.Establish
    [Socket.TxAccept 3; Socket.TxAccept 100]
    [Socket.RxData (ascii_bytes "Liquidsoap 2.2.0" ++ [x0d; x0a; x45]);
     Socket.RxData [x4e; x44; x0d; x0a]].

(** A fresh [Connection('localhost:1234')] in front of that server. *)
Definition fresh : state :=
  no_socket (lit "localhost:1234") (Socket.mkWorld [version_server] 3 []).

(** The socket and the world once [fresh] is connected. *)
Definition version_socket : Socket.t :=
  Socket.mk 3 Socket.AF_INET true false (Some 100%N)
    [Socket.TxAccept 3; Socket.TxAccept 100]
    [Socket.RxData (ascii_bytes "Liquidsoap 2.2.0" ++ [x0d; x0a; x45]);
     Socket.RxData [x4e; x44; x0d; x0a]]
    [].

Definition version_world : Socket.world :=
  Socket.mkWorld [] 4
    [Socket.EvSocket 3 Socket.AF_INET;
     Socket.EvConnect 3 (Socket.Inet (lit "localhost") 1234) None].

(** A connected socket whose link behaves as scripted. *)
Definition linked (txs : list Socket.tx_event) (rxs : list Socket.rx_event)
  : Socket.t :=
  Socket.mk 3 Socket.AF_INET true false (Some 100%N) txs rxs [].

(** A reply whose last line reads [END]: the data [OK\r\nEND], then the
    end marker, the first segment ending right after the data's own line
    break. *)
Definition end_line_body : bytes := ascii_bytes "OK" ++ [x0d; x0a] ++ ascii_bytes "END".

Definition end_line_socket : Socket.t :=
  linked [Socket.TxAccept 100]
         [Socket.RxData (ascii_bytes "OK" ++ [x0d; x0a]
                         ++ ascii_bytes "END" ++ [x0d; x0a]);
          Socket.RxData (ascii_bytes "END" ++ [x0d; x0a])].

(** A server that answers [OK] only after the first read has timed
    out. *)
Definition slow_socket : Socket.t :=
  linked [Socket.TxAccept 100]
         [Socket.RxRaise Socket.timed_out;
          Socket.RxData (ascii_bytes "OK" ++ Connection.END_MARKER)].

(** A peer that takes no byte any more. *)
Definition dead_socket : Socket.t := linked [Socket.TxAccept 0] [].

(** A peer that takes the request and closes. *)
Definition closing_socket : Socket.t :=
  linked [Socket.TxAccept 100] [Socket.RxData []].

Definition somewhere : Socket.world := Socket.mkWorld [] 4 [].

Definition local : str := lit "localhost:1234".

(** A world in which the first connection is refused although a server
    would take the second. *)
Definition refusing : Socket.world :=
  Socket.mkWorld [Socket.Refuse Socket.ECONNREFUSED; version_server] 3 [].

(** A link on which the first read raises a timeout and the reply comes
    later, the socket being the one of the connection. *)
Definition slow : state := at_socket local slow_socket somewhere.

(** A dead socket in a world where the server takes a new connection. *)
Definition dropped : state :=
  at_socket local dead_socket (Socket.mkWorld [version_server] 4 []).

(** A server that takes [quit] and says [Bye!]. *)
Definition quitting : state :=
  at_socket local
    (linked [Socket.TxAccept 100] [Socket.RxData Connection.QUIT_MARKER])
    somewhere.

(** A peer that takes [quit] and closes without a word. *)
Definition hung_up : state := at_socket local closing_socket somewhere.

(** A server that answers each [help] with [OK], the first answer only
    after the first read has timed out. *)
Definition patient : state :=
  at_socket local
    (linked [Socket.TxAccept 100; Socket.TxAccept 100]
            [Socket.RxRaise Socket.timed_out;
             Socket.RxData (ascii_bytes "OK" ++ Connection.END_MARKER);
             Socket.RxData (ascii_bytes "OK" ++ Connection.END_MARKER)])
    somewhere.

End Sample.

(** ** The sentences of the specification that the code does not bear out,
    as they are written *)

(** Whenever the data of the reply does not contain the marker, [send]
    returns the data as text, however the reply is cut into segments. *)
Definition send_returns_unmarked_data : Prop :=
  forall command marker body text chunks st a s w data ns txs rxs,
    Connection.__enter__ st = (Ret tt, at_socket a s w) ->
    Socket.usable s = true ->
    Py.encode (Py.strip command) = Some data ->
    Socket.tx s = map Socket.TxAccept ns ++ txs ->
    all_positive ns = true ->
    length data + 1 <= list_sum ns ->
    Socket.rxbuf s = [] ->
    Socket.rx s = map Socket.RxData chunks ++ rxs ->
    all_nonempty chunks = true ->
    concat chunks = body ++ marker ->
    occurs marker body = false ->
    Py.decode body = Some text ->
    fst (Connection.send command marker st) = Ret text.

(** A read that times out is tried again: when the segments of the reply
    arrive with a timeout somewhere between them, [send] still returns the
    data as text. *)
Definition timeout_is_retried : Prop :=
  forall command marker body text before after st a s w data ns txs rxs,
    Connection.__enter__ st = (Ret tt, at_socket a s w) ->
    Socket.usable s = true ->
    Py.encode (Py.strip command) = Some data ->
    Socket.tx s = map Socket.TxAccept ns ++ txs ->
    all_positive ns = true ->
    length data + 1 <= list_sum ns ->
    Socket.rxbuf s = [] ->
    Socket.rx s = map Socket.RxData before
                  ++ Socket.RxRaise Socket.timed_out
                  :: map Socket.RxData after ++ rxs ->
    all_nonempty (before ++ after) = true ->
    concat (before ++ after) = body ++ marker ->
    quiet marker [] (body ++ marker) = true ->
    forallb ascii_byte marker = true ->
    Py.decode body = Some text ->
    fst (Connection.send command marker st) = Ret text.

(** ** More of the program: completion and the batch run *)

(** *** More of [str] *)

Module Str.

(** [s.startswith(prefix)] *)
Fixpoint startswith (s prefix : str) : bool :=
  match prefix, s with
  | [], _ => true
  | p :: prefix', c :: s' => (c =? p)%N && startswith s' prefix'
  | _ :: _, [] => false
  end.

(** [s.split(sep)] for a one-character separator: every part, the empty
    ones too. *)
Fixpoint split (sep : N) (s : str) : list str :=
  match s with
  | [] => [[]]
  | c :: s' =>
    if (c =? sep)%N then [] :: split sep s'
    else match split sep s' with
         | h :: t => (c :: h) :: t
         | [] => [[c]]
         end
  end.

(** [s.split()]: the runs of characters that are not white space; [cur]
    holds the run being read, last character first. *)
Fixpoint split_ws_from (cur : str) (s : str) : list str :=
  match s with
  | [] => match cur with [] => [] | _ :: _ => [rev cur] end
  | c :: s' =>
    if Py.isspace c then
      match cur with
      | [] => split_ws_from [] s'
      | _ :: _ => rev cur :: split_ws_from [] s'
      end
    else split_ws_from (c :: cur) s'
  end.

Definition split_ws (s : str) : list str := split_ws_from [] s.

End Str.

(** *** [Console.completenames] *)

Module Completion.

(** The loop over the lines of the help text: a line that starts with a
    bar, a blank and the text typed gives its second word. [None] stands
    for the [IndexError] of [line.split()[1]] on a line without a second
    word. *)
Fixpoint add_names (text : str) (names : list str) (lines : list str)
  : option (list str) :=
  match lines with
  | [] => Some names
  | line :: rest =>
    if Str.startswith line (lit "| " ++ text) then
      match nth_error (Str.split_ws line) 1 with
      | Some name => add_names text (names ++ [name]) rest
      | None => None
      end
    else add_names text names rest
  end.

(** [completenames(text)], where [inherited] is what
    [super().completenames(text)] returned. *)
Definition completenames (text : str) (inherited : list str)
  : M (option (list str)) :=
  reply <- Console._send (lit "help") ;;
  ret (add_names text inherited (Str.split 10 reply)).

End Completion.

(** *** [Console.default] and [Console.do_help] *)

Module Commands.

(** [print(self._send(line))], [out] being what was printed so far. *)
Definition default (line : str) (out : list str) (st : state)
  : result unit * list str * state :=
  match Console._send line st with
  | (Ret text, st') => (Ret tt, out ++ [text], st')
  | (Raise e, st') => (Raise e, out, st')
  | (Hang, st') => (Hang, out, st')
  | (OutOfFuel, st') => (OutOfFuel, out, st')
  end.

(** [self.default('help %s' % arg)] *)
Definition do_help (arg : str) (out : list str) (st : state)
  : result unit * list str * state :=
  default (lit "help " ++ arg) out st.

End Commands.

(** *** The batch run of the main program *)

Module Main.

(** [for cmd in f: print(con.send(cmd))], the file being the list of its
    lines and [out] what was printed so far, one item for each [print]. *)
Fixpoint send_lines (f : list str) (out : list str) (st : state)
  : result unit * list str * state :=
  match f with
  | [] => (Ret tt, out, st)
  | cmd :: rest =>
    match Connection.send cmd Connection.END_MARKER st with
    | (Ret text, st') => send_lines rest (out ++ [text]) st'
    | (Raise e, st') => (Raise e, out, st')
    | (Hang, st') => (Hang, out, st')
    | (OutOfFuel, st') => (OutOfFuel, out, st')
    end
  end.

(** [with Connection(addr) as con: body]: a new connection is entered, the
    body runs, and [__exit__] is called however the body ends. As
    [__exit__] returns [None], an exception of the body goes on after it,
    unless [__exit__] raises one of its own. *)
Definition with_Connection (addr : str)
    (body : list str -> state -> result unit * list str * state)
    (out : list str) (w : Socket.world)
  : result unit * list str * Socket.world :=
  match Connection.__enter__ (St (Connection.__init__ addr) w) with
  | (Ret _, st1) =>
    match body out st1 with
    | (Ret _, out', st2) =>
      match Connection.__exit__ st2 with
      | (Ret _, st3) => (Ret tt, out', env st3)
      | (Raise e, st3) => (Raise e, out', env st3)
      | (Hang, st3) => (Hang, out', env st3)
      | (OutOfFuel, st3) => (OutOfFuel, out', env st3)
      end
    | (Raise e, out', st2) =>
      match Connection.__exit__ st2 with
      | (Ret _, st3) => (Raise e, out', env st3)
      | (Raise e', st3) => (Raise e', out', env st3)
      | (Hang, st3) => (Hang, out', env st3)
      | (OutOfFuel, st3) => (OutOfFuel, out', env st3)
      end
    | (Hang, out', st2) => (Hang, out', env st2)
    | (OutOfFuel, out', st2) => (OutOfFuel, out', env st2)
    end
  | (Raise e, st1) => (Raise e, out, env st1)
  | (Hang, st1) => (Hang, out, env st1)
  | (OutOfFuel, st1) => (OutOfFuel, out, env st1)
  end.

(** [for f in args.infile: with Connection(args.socket) as con: ...];
    the files were opened when the arguments were parsed, and [infile]
    holds the lines of each. *)
Fixpoint batch (addr : str) (infile : list (list str)) (out : list str)
    (w : Socket.world) : result unit * list str * Socket.world :=
  match infile with
  | [] => (Ret tt, out, w)
  | f :: rest =>
    match with_Connection addr (send_lines f) out w with
    | (Ret _, out', w') => batch addr rest out' w'
    | r => r
    end
  end.

End Main.

(** *** Dialogues *)

(** One turn of a dialogue: a command, the sizes of the writes that take
    its request, the segments in which its reply arrives, and the text of
    the reply. *)
Record turn := Turn {
  t_cmd : str;
  t_writes : list nat;
  t_chunks : list bytes;
  t_text : str
}.

(** A turn that goes well: the writes take the request exactly, and the
    segments are the UTF-8 form of the text and then the marker, which
    ends the reply and no part of it before. *)
Definition served (marker : bytes) (t : turn) : Prop :=
  exists data body,
    Py.encode (Py.strip (t_cmd t)) = Some data
    /\ all_positive (t_writes t) = true
    /\ list_sum (t_writes t) = length data + 1
    /\ all_nonempty (t_chunks t) = true
    /\ concat (t_chunks t) = body ++ marker
    /\ quiet marker [] (body ++ marker) = true
    /\ Py.decode body = Some (t_text t).

(** What the link does on the write side and on the read side during the
    turns of a dialogue. *)
Definition tx_script (d : list turn) : list Socket.tx_event :=
  flat_map (fun t => map Socket.TxAccept (t_writes t)) d.

Definition rx_script (d : list turn) : list Socket.rx_event :=
  flat_map (fun t => map Socket.RxData (t_chunks t)) d.

(** The requests of the turns of a dialogue, one after the other. *)
Definition requests (d : list turn) : bytes :=
  flat_map (fun t => request_of (t_cmd t)) d.

(** A file of the batch run as the server sees it: the turns of its
    lines, and the farewell that ends it. *)
Definition session : Type := (list turn * turn)%type.

Definition farewell (bye : turn) : Prop :=
  t_cmd bye = Connection.QUIT_CMD /\ served Connection.QUIT_MARKER bye.

Definition lines_of (f : session) : list str := map t_cmd (fst f).

Definition replies_of (f : session) : list str := map t_text (fst f).

(** The link that goes through the turns of a file and its farewell. *)
Definition link_of (f : session) : Socket.link :=
  Socket.Establish (tx_script (fst f ++ [snd f]))
                   (rx_script (fst f ++ [snd f])).

(** A file all of whose turns go well, its farewell too. *)
Definition well_served (f : session) : Prop :=
  Forall (served Connection.END_MARKER) (fst f) /\ farewell (snd f).

(** What the server receives during a file that goes well. *)
Definition received (f : session) : bytes :=
  requests (fst f) ++ request_of Connection.QUIT_CMD.

(** How many sockets, and how many closes, a list of events holds. *)
Definition closes (evs : list Socket.event) : nat :=
  length (filter (fun ev => match ev with
                            | Socket.EvClose _ => true
                            | _ => false
                            end) evs).

(** No character of the text is white space. *)
Definition no_space (text : str) : bool :=
  forallb (fun c => negb (Py.isspace c)) text.

Module Scene.

(** A server whose answer to [help] is not UTF-8. *)
Definition garbled_socket : Socket.t :=
  Sample.linked [Socket.TxAccept 100]
                [Socket.RxData ([xff] ++ Connection.END_MARKER)].

(** A fresh connection in front of that server. *)
Definition garbled : state :=
  no_socket Sample.local
    (Socket.mkWorld
       [Socket.Establish [Socket.TxAccept 100]
          [Socket.RxData ([xff] ++ Connection.END_MARKER)]] 3 []).

(** A help text of four lines, the last one a bar and a blank. *)
Definition help_text : str :=
  lit "Available commands:" ++ [13; 10]%N
  ++ lit "| help [<command>]" ++ [13; 10]%N
  ++ lit "| uptime" ++ [13; 10]%N
  ++ lit "| ".

(** A link whose server answers [help] with that text. *)
Definition helpful : state :=
  at_socket Sample.local
    (Sample.linked [Socket.TxAccept 100]
       [Socket.RxData (ascii_bytes "Available commands:" ++ [x0d; x0a]
                       ++ ascii_bytes "| help [<command>]" ++ [x0d; x0a]
                       ++ ascii_bytes "| uptime" ++ [x0d; x0a]
                       ++ ascii_bytes "| " ++ Connection.END_MARKER)])
    Sample.somewhere.

(** The same link once the help text has been read. *)
Definition helped : state :=
  at_socket Sample.local (Sample.linked [] [])
    (Socket.logs
       [Socket.EvSend 3 (ascii_bytes "help" ++ [x0a]);
        Socket.EvRecv 3
          (ascii_bytes "Available commands:" ++ [x0d; x0a]
           ++ ascii_bytes "| help [<command>]" ++ [x0d; x0a]
           ++ ascii_bytes "| uptime" ++ [x0d; x0a]
           ++ ascii_bytes "| " ++ Connection.END_MARKER)]
       Sample.somewhere).

(** An address whose port is no number. *)
Definition bad_port : str := lit "localhost:telnet".

(** The state after the first [send] to that address. *)
Definition unparsed : state :=
  at_socket bad_port (made_socket bad_port Sample.somewhere)
    (made_world bad_port Sample.somewhere).

(** The state after a refused connection. *)
Definition refused : state :=
  snd (Connection._connect (St (Conn Sample.local None) Sample.refusing)).

(** A link on which the read of the farewell is interrupted. *)
Definition interrupt : exn := Exn KeyboardInterrupt "".

Definition interrupted_socket : Socket.t :=
  Sample.linked [Socket.TxAccept 100] [Socket.RxRaise interrupt].

(** A link on which the read of the farewell times out. *)
Definition mute_socket : Socket.t :=
  Sample.linked [Socket.TxAccept 100] [Socket.RxRaise Socket.timed_out].

(** Two turns and the farewell. *)
Definition version_turn : turn :=
  Turn (lit "version" ++ [10]%N) [3; 5]
       [ascii_bytes "Liquidsoap 2.2.0" ++ [x0d; x0a; x45];
        [x4e; x44; x0d; x0a]]
       (lit "Liquidsoap 2.2.0").

Definition uptime_turn : turn :=
  Turn (lit "uptime" ++ [10]%N) [7]
       [ascii_bytes "0d 00h 01m 02s" ++ Connection.END_MARKER]
       (lit "0d 00h 01m 02s").

Definition bye_turn : turn :=
  Turn Connection.QUIT_CMD [5] [Connection.QUIT_MARKER] [].

(** A world whose server goes through those turns. *)
Definition talkative : Socket.world :=
  Socket.mkWorld
    [Socket.Establish
       (tx_script [version_turn; uptime_turn; bye_turn])
       (rx_script [version_turn; uptime_turn; bye_turn])]
    3 [].


(** A dead socket in a world whose server takes a new connection and
    answers [version]. *)
Definition revived : state :=
  at_socket Sample.local Sample.dead_socket
    (Socket.mkWorld [Sample.version_server] 4 []).

(** A link that takes [help] twice and answers [OK] once, after the first
    read has timed out. *)
Definition late_socket : Socket.t :=
  Sample.linked [Socket.TxAccept 5; Socket.TxAccept 2; Socket.TxAccept 3]
                [Socket.RxRaise Socket.timed_out;
                 Socket.RxData (ascii_bytes "OK" ++ Connection.END_MARKER)].

End Scene.

(** ** Facts about the Python values *)

Example decode_version :
  Py.decode (map Py.byte_of (lit "Liquidsoap 2.2.0")) = Some (lit "Liquidsoap 2.2.0").
Proof. reflexivity. Qed.

Example encode_utf8 : Py.encode [0x41; 0xE9; 0x20AC; 0x1F600]%N
  = Some [x41; xc3; xa9; xe2; x82; xac; xf0; x9f; x98; x80].
Proof. reflexivity. Qed.

Example decode_utf8 :
  Py.decode [x41; xc3; xa9; xe2; x82; xac; xf0; x9f; x98; x80]
  = Some [0x41; 0xE9; 0x20AC; 0x1F600]%N.
Proof. reflexivity. Qed.

Example decode_overlong : Py.decode [xc0; x80] = None.
Proof. reflexivity. Qed.

Example int_port : Py.int (lit "1234") = Some 1234%Z.
Proof. reflexivity. Qed.

Example int_bad : Py.int (lit ":1") = None.
Proof. reflexivity. Qed.

(** The Arabic-Indic digits one to four are read as 1234. *)
Example int_arabic_indic :
  Py.int [0x661; 0x662; 0x663; 0x664]%N = Some 1234%Z.
Proof. reflexivity. Qed.

(** The unit separator U+001F is white space for [strip()], not for
    [int()]; beside a digit beyond ASCII it still is not. *)
Example int_unit_separator : Py.int (31%N :: lit "1234") = None.
Proof. reflexivity. Qed.

Example int_unit_separator_wide : Py.int [31; 0x661]%N = None.
Proof. reflexivity. Qed.

(** A no-break space before the digits is skipped. *)
Example int_no_break_space : Py.int (0xA0%N :: lit "1234") = Some 1234%Z.
Proof. reflexivity. Qed.

Example int_signs_and_underscores :
  Py.int (lit " -1_000 ") = Some (-1000)%Z
  /\ Py.int (lit "1__0") = None
  /\ Py.int (lit "_1") = None
  /\ Py.int (lit "1_") = None
  /\ Py.int (lit "+") = None
  /\ Py.int (lit "0012") = Some 12%Z.
Proof. repeat split; reflexivity. Qed.

(** One digit more than the interpreter's limit is refused. *)
Example int_too_long :
  Py.int (repeat 48%N 4300) = Some 0%Z
  /\ Py.int (repeat 48%N 4301) = None.
Proof. split; vm_compute; reflexivity. Qed.

Example split_addr :
  Py.split1 Py.colon (lit "localhost:1234") = [lit "localhost"; lit "1234"].
Proof. reflexivity. Qed.

Section PyFacts.

Lemma bytes_eqb_eq (a b : bytes) : Py.bytes_eqb a b = true <-> a = b.
Proof.
  revert b; induction a as [|x a IH]; intros [|y b]; simpl;
    try (split; [discriminate | discriminate]); try tauto.
  rewrite andb_true_iff, IH. split.
  - intros [Hx ->]. now rewrite (Byte.byte_dec_bl _ _ Hx).
  - intros [= -> ->]. split; [now apply Byte.byte_dec_lb | reflexivity].
Qed.

Lemma endswith_spec (b m : bytes) :
  Py.endswith b m = true <-> exists p, b = p ++ m.
Proof.
  unfold Py.endswith. rewrite andb_true_iff, Nat.leb_le, bytes_eqb_eq. split.
  - intros [Hlen Heq]. exists (firstn (length b - length m) b).
    rewrite <- (firstn_skipn (length b - length m) b) at 1.
    now rewrite Heq.
  - intros [p ->]. rewrite length_app. split; [lia|].
    replace (length p + length m - length m) with (length p + 0) by lia.
    rewrite skipn_app, Nat.add_0_r, skipn_all, Nat.sub_diag. reflexivity.
Qed.

Lemma endswith_self_app (p m : bytes) : Py.endswith (p ++ m) m = true.
Proof. apply endswith_spec. now exists p. Qed.

(** Decoding is a left-to-right scan: a valid text followed by more
    bytes decodes to that text followed by what the rest decodes to. *)
Lemma decode_app_aux (n : nat) :
  forall (a b : bytes) (ta : str),
    length a <= n ->
    Py.decode a = Some ta ->
    Py.decode (a ++ b) = option_map (app ta) (Py.decode b).
Proof.
  induction n as [|n IH]; intros a b ta Hn Ha.
  - destruct a; [|simpl in Hn; lia]. simpl in Ha. injection Ha as <-.
    simpl. now destruct (Py.decode b).
  - destruct a as [|b0 r0].
    { simpl in Ha. injection Ha as <-. simpl. now destruct (Py.decode b). }
    simpl in Hn.
    cbn [Py.decode app] in Ha |- *.
    destruct (Byte.to_N b0 <? 128)%N.
    { destruct (Py.decode r0) as [t0|] eqn:E0; [|discriminate].
      simpl in Ha. injection Ha as <-.
      rewrite (IH r0 b t0) by (trivial; lia). now destruct (Py.decode b). }
    destruct r0 as [|b1 r1]; [discriminate|]. simpl in Hn.
    cbn [app].
    destruct (Py.in_range 194 223 b0).
    { destruct (Py.cont b1); [|discriminate].
      destruct (Py.decode r1) as [t1|] eqn:E1; [|discriminate].
      simpl in Ha. injection Ha as <-.
      rewrite (IH r1 b t1) by (trivial; lia). now destruct (Py.decode b). }
    destruct r1 as [|b2 r2]; [discriminate|]. simpl in Hn.
    cbn [app].
    destruct (Py.in_range 224 239 b0).
    { destruct (Py.second3 b0 b1 && Py.cont b2); [|discriminate].
      destruct (Py.decode r2) as [t2|] eqn:E2; [|discriminate].
      simpl in Ha. injection Ha as <-.
      rewrite (IH r2 b t2) by (trivial; lia). now destruct (Py.decode b). }
    destruct r2 as [|b3 r3]; [discriminate|]. simpl in Hn.
    cbn [app].
    destruct (Py.in_range 240 244 b0 && Py.second4 b0 b1
              && Py.cont b2 && Py.cont b3); [|discriminate].
    destruct (Py.decode r3) as [t3|] eqn:E3; [|discriminate].
    simpl in Ha. injection Ha as <-.
    rewrite (IH r3 b t3) by (trivial; lia). now destruct (Py.decode b).
Qed.

Lemma decode_app (a b : bytes) (ta : str) :
  Py.decode a = Some ta ->
  Py.decode (a ++ b) = option_map (app ta) (Py.decode b).
Proof. now apply decode_app_aux with (n := length a). Qed.

Lemma decode_ascii (m : bytes) :
  forallb ascii_byte m = true -> Py.decode m = Some (map Byte.to_N m).
Proof.
  induction m as [|x m IH]; [reflexivity|].
  cbn [forallb]. unfold ascii_byte at 1. rewrite andb_true_iff.
  intros [Hx Hm]. cbn [Py.decode map]. rewrite Hx, (IH Hm). reflexivity.
Qed.

Lemma slice_to_neg_app {A} (t m : list A) (n : nat) :
  length m = n -> (n = 0 -> t = []) ->
  Py.slice_to_neg (t ++ m) n = t.
Proof.
  intros Hn H0. unfold Py.slice_to_neg. destruct n as [|n'].
  - now rewrite H0.
  - rewrite length_app, Hn.
    replace (length t + S n' - S n') with (length t + 0) by lia.
    rewrite firstn_app_2. simpl. apply app_nil_r.
Qed.

End PyFacts.

(** ** Facts about the socket model *)

Module SocketFacts.
Import Socket.

Lemma logs_nil (w : world) : logs [] w = w.
Proof. destruct w; unfold logs; simpl. now rewrite app_nil_r. Qed.

Lemma logs_logs (e1 e2 : list event) (w : world) :
  logs e2 (logs e1 w) = logs (e1 ++ e2) w.
Proof. unfold logs; simpl. now rewrite app_assoc. Qed.

Lemma with_tx_same (s : t) : with_tx s (tx s) = s.
Proof. now destruct s. Qed.

Lemma with_rx_same (s : t) : with_rx s (rx s) (rxbuf s) = s.
Proof. now destruct s. Qed.

Lemma send_accept (data : bytes) (s : t) (w : world) n txs :
  usable s = true -> tx s = TxAccept n :: txs ->
  send data s w
  = (Ret (Nat.min n (length data)), with_tx s txs,
     log (EvSend (fd s) (firstn (Nat.min n (length data)) data)) w).
Proof.
  unfold usable, send. intros Hu ->.
  destruct (closed s), (connected s); try discriminate. reflexivity.
Qed.

Lemma send_raise (data : bytes) (s : t) (w : world) e txs :
  usable s = true -> tx s = TxRaise e :: txs ->
  send data s w = (Raise e, with_tx s txs, log (EvError (fd s) e) w).
Proof.
  unfold usable, send. intros Hu ->.
  destruct (closed s), (connected s); try discriminate. reflexivity.
Qed.

Lemma send_silent (data : bytes) (s : t) (w : world) :
  usable s = true -> tx s = [] -> send data s w = (silent s, s, w).
Proof.
  unfold usable, send. intros Hu ->.
  destruct (closed s), (connected s); try discriminate. reflexivity.
Qed.

Lemma recv_buffered (bufsize : nat) (s : t) (w : world) :
  usable s = true -> rxbuf s <> [] ->
  recv bufsize s w
  = (Ret (firstn bufsize (rxbuf s)),
     with_rx s (rx s) (skipn bufsize (rxbuf s)),
     log (EvRecv (fd s) (firstn bufsize (rxbuf s))) w).
Proof.
  unfold usable, recv. intros Hu Hb.
  destruct (closed s), (connected s); try discriminate.
  destruct (rxbuf s); [congruence | reflexivity].
Qed.

Lemma recv_segment (bufsize : nat) (s : t) (w : world) chunk rxs :
  usable s = true -> rxbuf s = [] -> rx s = RxData chunk :: rxs ->
  chunk <> [] ->
  recv bufsize s w
  = (Ret (firstn bufsize chunk), with_rx s rxs (skipn bufsize chunk),
     log (EvRecv (fd s) (firstn bufsize chunk)) w).
Proof.
  unfold usable, recv. intros Hu -> -> Hc.
  destruct (closed s), (connected s); try discriminate.
  destruct chunk; [congruence | reflexivity].
Qed.

Lemma recv_eof (bufsize : nat) (s : t) (w : world) rxs :
  usable s = true -> rxbuf s = [] -> rx s = RxData [] :: rxs ->
  recv bufsize s w = (Ret [], s, log (EvRecv (fd s) []) w).
Proof.
  unfold usable, recv. intros Hu -> ->.
  destruct (closed s), (connected s); try discriminate. reflexivity.
Qed.

Lemma recv_raise (bufsize : nat) (s : t) (w : world) e rxs :
  usable s = true -> rxbuf s = [] -> rx s = RxRaise e :: rxs ->
  recv bufsize s w = (Raise e, with_rx s rxs [], log (EvError (fd s) e) w).
Proof.
  unfold usable, recv. intros Hu -> ->.
  destruct (closed s), (connected s); try discriminate. reflexivity.
Qed.

Lemma recv_silent (bufsize : nat) (s : t) (w : world) :
  usable s = true -> rxbuf s = [] -> rx s = [] ->
  recv bufsize s w = (silent s, s, w).
Proof.
  unfold usable, recv. intros Hu -> ->.
  destruct (closed s), (connected s); try discriminate. reflexivity.
Qed.

Lemma firstn_nonempty {A} (n : nat) (l : list A) :
  0 < n -> l <> [] -> firstn n l <> [].
Proof.
  intros Hn Hl. destruct n; [lia|]. destruct l; [congruence|].
  simpl. discriminate.
Qed.

Lemma skipn_shorter {A} (n : nat) (l : list A) :
  0 < n -> l <> [] -> length (skipn n l) < length l.
Proof.
  intros Hn Hl. rewrite length_skipn. destruct l; [congruence|].
  cbn [length]. lia.
Qed.

End SocketFacts.

(** ** The two loops of [send] *)

Module LoopFacts.
Import SocketFacts Connection.

Lemma BUFSIZE_pos : 0 < BUFSIZE.
Proof. unfold BUFSIZE. lia. Qed.

Local Opaque BUFSIZE.

Lemma on_socket_at {A} attr
    (meth : Socket.t -> Socket.world -> result A * Socket.t * Socket.world)
    a s w :
  on_socket attr meth (at_socket a s w)
  = let '(r, s', w') := meth s w in (r, at_socket a s' w').
Proof. reflexivity. Qed.

Lemma on_socket_none {A} attr
    (meth : Socket.t -> Socket.world -> result A * Socket.t * Socket.world)
    a w :
  on_socket attr meth (no_socket a w)
  = (Raise (NoneType_has_no attr), no_socket a w).
Proof. reflexivity. Qed.

Lemma write_loop_done fuel request total st :
  length request <= total ->
  write_loop fuel request total st = (Ret tt, st).
Proof.
  intros H. destruct fuel; simpl;
    (destruct (Nat.ltb_spec total (length request)); [lia | reflexivity]).
Qed.

Lemma write_loop_step fuel request total a s w n txs :
  total < length request ->
  Socket.usable s = true -> Socket.tx s = Socket.TxAccept (S n) :: txs ->
  write_loop (S fuel) request total (at_socket a s w)
  = write_loop fuel request
      (total + Nat.min (S n) (length request - total))
      (at_socket a (Socket.with_tx s txs)
         (Socket.log (Socket.EvSend (Socket.fd s)
                        (firstn (S n) (skipn total request))) w)).
Proof.
  intros Ht Hu Htx. cbn [write_loop].
  destruct (Nat.ltb_spec total (length request)); [|lia].
  unfold bind at 1. rewrite on_socket_at; erewrite send_accept by eassumption.
  rewrite length_skipn.
  destruct (Nat.min (S n) (length request - total)) eqn:E; [lia|].
  cbn [Nat.eqb]. rewrite <- E.
  rewrite <- (firstn_firstn (skipn total request) (S n)
                (length request - total)).
  rewrite <- (length_skipn total request), firstn_all. reflexivity.
Qed.

Lemma write_loop_zero fuel request total a s w txs :
  total < length request ->
  Socket.usable s = true -> Socket.tx s = Socket.TxAccept 0 :: txs ->
  write_loop (S fuel) request total (at_socket a s w)
  = (Raise lost,
     no_socket a (Socket.log (Socket.EvSend (Socket.fd s) []) w)).
Proof.
  intros Ht Hu Htx. cbn [write_loop].
  destruct (Nat.ltb_spec total (length request)); [|lia].
  unfold bind at 1. rewrite on_socket_at; erewrite send_accept by eassumption.
  reflexivity.
Qed.

Lemma write_loop_raise fuel request total a s w e txs :
  total < length request ->
  Socket.usable s = true -> Socket.tx s = Socket.TxRaise e :: txs ->
  write_loop (S fuel) request total (at_socket a s w)
  = (Raise e,
     at_socket a (Socket.with_tx s txs)
       (Socket.log (Socket.EvError (Socket.fd s) e) w)).
Proof.
  intros Ht Hu Htx. cbn [write_loop].
  destruct (Nat.ltb_spec total (length request)); [|lia].
  unfold bind at 1. rewrite on_socket_at; erewrite send_raise by eassumption.
  reflexivity.
Qed.

Lemma write_loop_silent fuel request total a s w ms :
  total < length request ->
  Socket.usable s = true -> Socket.tx s = [] ->
  Socket.timeout s = Some ms ->
  write_loop (S fuel) request total (at_socket a s w)
  = (Raise Socket.timed_out, at_socket a s w).
Proof.
  intros Ht Hu Htx Hms. cbn [write_loop].
  destruct (Nat.ltb_spec total (length request)); [|lia].
  unfold bind at 1. rewrite on_socket_at; erewrite send_silent by eassumption.
  unfold Socket.silent. rewrite Hms. reflexivity.
Qed.

(** Writes that fit: the loop takes them one by one. *)
Lemma write_loop_run ns :
  forall fuel request total a s w txs,
    Socket.usable s = true ->
    Socket.tx s = map Socket.TxAccept ns ++ txs ->
    Forall (fun n => 1 <= n) ns ->
    total + list_sum ns <= length request ->
    write_loop (length ns + fuel) request total (at_socket a s w)
    = write_loop fuel request (total + list_sum ns)
        (at_socket a (Socket.with_tx s txs)
           (Socket.logs (map (Socket.EvSend (Socket.fd s))
                           (pieces (skipn total request) ns)) w)).
Proof.
  induction ns as [|n ns IH]; intros fuel request total a s w txs Hu Htx Hns Hsum.
  - cbn in *. rewrite Nat.add_0_r, logs_nil, <- Htx, with_tx_same.
    reflexivity.
  - inversion Hns as [|? ? Hn Hns']; subst.
    destruct n as [|n]; [lia|].
    change (list_sum (S n :: ns)) with (S n + list_sum ns) in *.
    cbn [length Nat.add map app] in *.
    erewrite write_loop_step by (try eassumption; lia).
    rewrite Nat.min_l by lia.
    rewrite (IH fuel request (total + S n) a _ _ txs);
      trivial; try (cbn; lia).
    cbn [pieces map]. unfold Socket.log. rewrite logs_logs.
    rewrite skipn_skipn.
    replace (total + S n + list_sum ns) with (total + (S n + list_sum ns))
      by lia.
    replace (S n + total) with (total + S n) by lia.
    reflexivity.
Qed.

(** Writes of at least one byte each that together cover the rest of
    the request: the loop ends with every byte handed over. *)
Lemma write_loop_completes ns :
  forall fuel request total a s w txs,
    Socket.usable s = true ->
    Socket.tx s = map Socket.TxAccept ns ++ txs ->
    Forall (fun n => 1 <= n) ns ->
    total <= length request ->
    length request <= total + list_sum ns ->
    length request - total <= fuel ->
    exists ps txs',
      write_loop fuel request total (at_socket a s w)
      = (Ret tt,
         at_socket a (Socket.with_tx s txs')
           (Socket.logs (map (Socket.EvSend (Socket.fd s)) ps) w))
      /\ concat ps = skipn total request
      /\ Forall (fun p => p <> []) ps.
Proof.
  induction ns as [|n ns IH];
    intros fuel request total a s w txs Hu Htx Hns Hlo Hhi Hfuel.
  - cbn in Hhi. exists [], (Socket.tx s).
    rewrite write_loop_done, with_tx_same, logs_nil by lia.
    rewrite skipn_all2 by lia. repeat split. constructor.
  - destruct (Nat.ltb_spec total (length request)) as [Hlt|Hge].
    + inversion Hns as [|? ? Hn Hns']; subst.
      destruct n as [|n]; [lia|].
      change (list_sum (S n :: ns)) with (S n + list_sum ns) in *.
      cbn [map app] in Htx.
      destruct fuel as [|fuel]; [lia|].
      erewrite write_loop_step by (try eassumption; lia).
      destruct (IH fuel request
                  (total + Nat.min (S n) (length request - total)) a
                  (Socket.with_tx s (map Socket.TxAccept ns ++ txs))
                  (Socket.log (Socket.EvSend (Socket.fd s)
                                 (firstn (S n) (skipn total request))) w)
                  txs)
        as (ps & txs' & Hrun & Hcat & Hne); trivial; try lia.
      exists (firstn (S n) (skipn total request) :: ps), txs'.
      rewrite Hrun. unfold Socket.log. rewrite logs_logs.
      repeat split.
      * cbn [concat]. rewrite Hcat.
        etransitivity; [|apply (firstn_skipn (S n))].
        f_equal. rewrite skipn_skipn.
        destruct (Nat.le_ge_cases (S n) (length request - total)).
        -- rewrite Nat.min_l by lia. f_equal. lia.
        -- rewrite Nat.min_r by lia.
           rewrite !skipn_all2 by lia. reflexivity.
      * constructor; [|assumption].
        apply firstn_nonempty; [lia|].
        intros E. apply (f_equal (@length _)) in E.
        rewrite length_skipn in E. cbn in E. lia.
    + exists [], (Socket.tx s).
      rewrite write_loop_done, with_tx_same, logs_nil by lia.
      rewrite skipn_all2 by lia. repeat split. constructor.
Qed.

(** *** The read loop *)

Lemma quiet_spec marker acc data :
  quiet marker acc data = true
  <-> forall k, k < length data ->
                Py.endswith (acc ++ firstn k data) marker = false.
Proof.
  unfold quiet. rewrite forallb_forall. split.
  - intros H k Hk. apply negb_true_iff, H, in_seq. lia.
  - intros H k Hk. apply in_seq in Hk. apply negb_true_iff, H. lia.
Qed.

Lemma quiet_head marker acc data :
  quiet marker acc data = true -> data <> [] ->
  Py.endswith acc marker = false.
Proof.
  intros H Hd. rewrite <- (app_nil_r acc).
  apply (proj1 (quiet_spec marker acc data) H 0).
  destruct data; [congruence | cbn; lia].
Qed.

Lemma quiet_shift marker acc p q :
  quiet marker acc (p ++ q) = true -> quiet marker (acc ++ p) q = true.
Proof.
  rewrite !quiet_spec. intros H k Hk.
  rewrite <- app_assoc, <- firstn_app_2. apply H.
  rewrite length_app. lia.
Qed.

Lemma if_nonempty {A B} (l : list A) (x y : B) :
  l <> [] -> match l with [] => x | _ :: _ => y end = y.
Proof. destruct l; [congruence | reflexivity]. Qed.

Lemma read_loop_done fuel marker reply st :
  Py.endswith reply marker = true ->
  read_loop fuel marker reply st = (Ret reply, st).
Proof. intros H. destruct fuel; cbn [read_loop]; now rewrite H. Qed.

Lemma read_loop_eq fuel marker reply :
  Py.endswith reply marker = false ->
  read_loop (S fuel) marker reply
  = (chunk <- on_socket "recv" (Socket.recv BUFSIZE) ;;
     match chunk with
     | [] => set_socket None ;; raise lost
     | _ :: _ => read_loop fuel marker (reply ++ chunk)
     end).
Proof. intros H. cbn [read_loop]. now rewrite H. Qed.

(** Reads that do not complete the reply: the loop takes what is
    buffered and then the segments, a buffer-load at a time. *)
Lemma read_loop_run m :
  forall buf chunks acc a s w rxs marker,
    weight buf chunks <= m ->
    Socket.usable s = true ->
    Socket.rxbuf s = buf ->
    Socket.rx s = map Socket.RxData chunks ++ rxs ->
    Forall (fun c => c <> []) chunks ->
    quiet marker acc (buf ++ concat chunks) = true ->
    exists n ps,
      n <= weight buf chunks
      /\ concat ps = buf ++ concat chunks
      /\ forall fuel,
          read_loop (n + fuel) marker acc (at_socket a s w)
          = read_loop fuel marker (acc ++ buf ++ concat chunks)
              (at_socket a (Socket.with_rx s rxs [])
                 (Socket.logs (map (Socket.EvRecv (Socket.fd s)) ps) w)).
Proof.
  induction m as [|m IH];
    intros buf chunks acc a s w rxs marker Hm Hu Hbuf Hrx Hne Hq.
  - unfold weight in Hm.
    destruct buf; [|cbn in Hm; lia]. destruct chunks; [|cbn in Hm; lia].
    exists 0, []. repeat split; [unfold weight; cbn; lia|].
    intros fuel. cbn [concat app map Nat.add] in *. rewrite app_nil_r.
    rewrite logs_nil, <- Hrx, <- Hbuf, with_rx_same. reflexivity.
  - destruct buf as [|x buf].
    + destruct chunks as [|c chunks].
      * exists 0, []. repeat split; [unfold weight; cbn; lia|].
        intros fuel. cbn [concat app map Nat.add] in *. rewrite app_nil_r.
        rewrite logs_nil, <- Hrx, <- Hbuf, with_rx_same. reflexivity.
      * inversion Hne as [|? ? Hc Hne']; subst.
        cbn [app concat map] in *.
        assert (Hhead : Py.endswith acc marker = false).
        { apply (quiet_head _ _ _ Hq). destruct c; [congruence|discriminate]. }
        rewrite <- (firstn_skipn BUFSIZE c) in Hq. rewrite <- app_assoc in Hq.
        apply quiet_shift in Hq.
        destruct (IH (skipn BUFSIZE c) chunks (acc ++ firstn BUFSIZE c) a
                     (Socket.with_rx s (map Socket.RxData chunks ++ rxs)
                                     (skipn BUFSIZE c))
                     (Socket.log (Socket.EvRecv (Socket.fd s)
                                    (firstn BUFSIZE c)) w)
                     rxs marker)
          as (n & ps & Hn & Hcat & Hrun); trivial.
        { pose proof (skipn_shorter BUFSIZE c BUFSIZE_pos Hc).
          unfold weight in *. cbn [map list_sum] in Hm. cbn [length] in Hm.
          change (list_sum (S (length c) :: ?l)) with (S (length c) + list_sum l) in Hm.
          lia. }
        exists (S n), (firstn BUFSIZE c :: ps). repeat split.
        { pose proof (skipn_shorter BUFSIZE c BUFSIZE_pos Hc).
          unfold weight in *. cbn [map length].
          change (list_sum (S (length c) :: ?l)) with (S (length c) + list_sum l).
          lia. }
        { cbn [concat]. rewrite Hcat, app_assoc, firstn_skipn. reflexivity. }
        intros fuel. cbn [Nat.add]. rewrite read_loop_eq by assumption.
        unfold bind at 1. rewrite on_socket_at.
        erewrite recv_segment by eassumption.
        rewrite if_nonempty
          by (apply firstn_nonempty; [apply BUFSIZE_pos|assumption]).
        rewrite Hrun. unfold Socket.log. rewrite logs_logs.
        rewrite <- app_assoc, (app_assoc (firstn BUFSIZE c)), firstn_skipn.
        reflexivity.
    + assert (Hb : Socket.rxbuf s <> []) by (rewrite Hbuf; discriminate).
      assert (Hhead : Py.endswith acc marker = false).
      { apply (quiet_head _ _ _ Hq). discriminate. }
      rewrite <- (firstn_skipn BUFSIZE (x :: buf)) in Hq.
      rewrite <- app_assoc in Hq.
      apply quiet_shift in Hq.
      destruct (IH (skipn BUFSIZE (x :: buf)) chunks
                   (acc ++ firstn BUFSIZE (x :: buf)) a
                   (Socket.with_rx s (Socket.rx s) (skipn BUFSIZE (x :: buf)))
                   (Socket.log (Socket.EvRecv (Socket.fd s)
                                  (firstn BUFSIZE (x :: buf))) w)
                   rxs marker)
        as (n & ps & Hn & Hcat & Hrun); trivial.
      { assert (Hx : x :: buf <> []) by discriminate.
        pose proof (skipn_shorter BUFSIZE _ BUFSIZE_pos Hx).
        unfold weight in *. lia. }
      exists (S n), (firstn BUFSIZE (x :: buf) :: ps). repeat split.
      { assert (Hx : x :: buf <> []) by discriminate.
        pose proof (skipn_shorter BUFSIZE _ BUFSIZE_pos Hx).
        unfold weight in *. lia. }
      { cbn [concat]. rewrite Hcat, app_assoc, firstn_skipn. reflexivity. }
      intros fuel. cbn [Nat.add]. rewrite read_loop_eq by assumption.
      unfold bind at 1. rewrite on_socket_at.
      erewrite recv_buffered by eassumption. rewrite Hbuf.
      rewrite if_nonempty
        by (apply firstn_nonempty; [apply BUFSIZE_pos|discriminate]).
      rewrite Hrun. unfold Socket.log. rewrite logs_logs.
      rewrite <- app_assoc, (app_assoc (firstn BUFSIZE (x :: buf))),
        firstn_skipn.
      reflexivity.
Qed.

End LoopFacts.

(** ** One exchange on a connected socket *)

Module ExchangeFacts.
Import SocketFacts LoopFacts Connection.

Lemma all_positive_Forall ns :
  all_positive ns = true -> Forall (fun n => 1 <= n) ns.
Proof.
  unfold all_positive. rewrite forallb_forall, Forall_forall.
  intros H n Hn. now apply Nat.leb_le, H.
Qed.

Lemma all_nonempty_Forall chunks :
  all_nonempty chunks = true -> Forall (fun c : bytes => c <> []) chunks.
Proof.
  unfold all_nonempty. rewrite forallb_forall, Forall_forall.
  intros H c Hc E. specialize (H c Hc). now rewrite E in H.
Qed.

Lemma occurs_false marker data :
  occurs marker data = false ->
  quiet marker [] data = true /\ Py.endswith data marker = false.
Proof.
  unfold occurs. intros H. split.
  - apply quiet_spec. intros k Hk. cbn [app].
    apply not_true_is_false. intros E.
    assert (Hex : existsb (fun k => Py.endswith (firstn k data) marker)
                          (seq 0 (S (length data))) = true).
    { apply existsb_exists. exists k. split; [apply in_seq; lia | exact E]. }
    congruence.
  - apply not_true_is_false. intros E.
    assert (Hex : existsb (fun k => Py.endswith (firstn k data) marker)
                          (seq 0 (S (length data))) = true).
    { apply existsb_exists. exists (length data).
      split; [apply in_seq; lia | now rewrite firstn_all]. }
    congruence.
Qed.

(** A marker that ends the wire reply and nothing before it does not occur
    in the data: of the two conditions on a reply, [quiet] is the stronger
    one. *)
Lemma quiet_not_occurs marker body :
  marker <> [] ->
  quiet marker [] (body ++ marker) = true ->
  occurs marker body = false.
Proof.
  intros Hm Hq. unfold occurs. apply not_true_is_false. intros Hex.
  apply existsb_exists in Hex. destruct Hex as (k & Hk & Hend).
  apply in_seq in Hk.
  assert (Hlt : k < length (body ++ marker)).
  { rewrite length_app. destruct marker; [congruence | cbn [length]; lia]. }
  pose proof (proj1 (quiet_spec marker [] (body ++ marker)) Hq k Hlt) as Hno.
  cbn [app] in Hno. rewrite firstn_app in Hno.
  replace (k - length body) with 0 in Hno by lia.
  cbn [firstn] in Hno. rewrite app_nil_r in Hno. congruence.
Qed.

(** [send] begins like [__enter__]: it connects when there is no socket. *)
Lemma send_enter command marker :
  send command marker
  = (__enter__ ;; write_request command ;; read_reply marker).
Proof. reflexivity. Qed.

Lemma send_from command marker st st1 :
  __enter__ st = (Ret tt, st1) ->
  send command marker st
  = (write_request command ;; read_reply marker) st1.
Proof. intros H. rewrite send_enter. unfold bind at 1. now rewrite H. Qed.

Lemma enter_connected a s w :
  __enter__ (at_socket a s w) = (Ret tt, at_socket a s w).
Proof. reflexivity. Qed.

Lemma write_request_eq command data st :
  Py.encode (Py.strip command) = Some data ->
  write_request command st
  = write_loop (S (length (data ++ [x0a]))) (data ++ [x0a]) 0 st.
Proof. intros H. unfold write_request. rewrite H. reflexivity. Qed.

Lemma pending_weight s chunks rxs :
  Socket.rx s = map Socket.RxData chunks ++ rxs ->
  weight (Socket.rxbuf s) chunks <= Socket.pending s.
Proof.
  unfold weight, Socket.pending. intros ->.
  apply Nat.add_le_mono_l.
  induction chunks as [|c chunks IH]; cbn [map app fold_right list_sum].
  - lia.
  - apply Nat.add_le_mono_l. exact IH.
Qed.

(** The write phase of an exchange whose writes go through. *)
Lemma write_request_completes command data a s w ns txs :
  Py.encode (Py.strip command) = Some data ->
  Socket.usable s = true ->
  Socket.tx s = map Socket.TxAccept ns ++ txs ->
  all_positive ns = true ->
  length data + 1 <= list_sum ns ->
  exists ps txs',
    write_request command (at_socket a s w)
    = (Ret tt,
       at_socket a (Socket.with_tx s txs')
         (Socket.logs (map (Socket.EvSend (Socket.fd s)) ps) w))
    /\ concat ps = data ++ [x0a]
    /\ Forall (fun p => p <> []) ps.
Proof.
  intros Henc Hu Htx Hns Hsum.
  rewrite (write_request_eq _ _ _ Henc).
  destruct (write_loop_completes ns (S (length (data ++ [x0a])))
              (data ++ [x0a]) 0 a s w txs)
    as (ps & txs' & Hrun & Hcat & Hne); trivial.
  - now apply all_positive_Forall.
  - lia.
  - rewrite length_app. cbn. lia.
  - lia.
  - exists ps, txs'. auto.
Qed.

(** The read phase of an exchange whose reply arrives whole. *)
Lemma read_reply_returns marker body text chunks a s w rxs :
  Socket.usable s = true ->
  Socket.rx s = map Socket.RxData chunks ++ rxs ->
  all_nonempty chunks = true ->
  Socket.rxbuf s ++ concat chunks = body ++ marker ->
  quiet marker [] (body ++ marker) = true ->
  forallb ascii_byte marker = true ->
  Py.decode body = Some text ->
  exists ps,
    read_reply marker (at_socket a s w)
    = (Ret text,
       at_socket a (Socket.with_rx s rxs [])
         (Socket.logs (map (Socket.EvRecv (Socket.fd s)) ps) w))
    /\ concat ps = body ++ marker.
Proof.
  intros Hu Hrx Hne Hcat Hq Hascii Hdec.
  destruct (read_loop_run (weight (Socket.rxbuf s) chunks)
              (Socket.rxbuf s) chunks [] a s w rxs marker)
    as (n & ps & Hn & Hps & Hrun); trivial.
  - now apply all_nonempty_Forall.
  - now rewrite Hcat.
  - exists ps. split; [|now rewrite Hps].
    pose proof (pending_weight s chunks rxs Hrx) as Hpend.
    unfold read_reply, bind at 1, read_fuel. cbn [at_socket self socket].
    replace (S (Socket.pending s))
      with (n + (S (Socket.pending s) - n)) by lia.
    unfold bind at 1. rewrite Hrun. cbn [app]. rewrite Hcat.
    rewrite read_loop_done by apply endswith_self_app.
    rewrite (decode_app _ marker _ Hdec), (decode_ascii _ Hascii).
    cbn [option_map of_option]. unfold bind, ret.
    rewrite slice_to_neg_app; [reflexivity | apply length_map |].
    intros Hz. apply length_zero_iff_nil in Hz. subst marker.
    rewrite app_nil_r in Hq.
    destruct body as [|b body]; [cbn in Hdec; congruence|].
    apply quiet_head in Hq; [|discriminate]. cbn in Hq. discriminate.
Qed.

Lemma length_le_sum ns :
  all_positive ns = true -> length ns <= list_sum ns.
Proof.
  intros H. apply all_positive_Forall in H.
  induction H as [|n ns Hn _ IH]; [cbn; lia|].
  change (list_sum (n :: ns)) with (n + list_sum ns). cbn [length]. lia.
Qed.

Lemma pending_split s chunks rxs :
  Socket.rx s = map Socket.RxData chunks ++ rxs ->
  Socket.pending s
  = weight (Socket.rxbuf s) chunks
    + Socket.pending (Socket.with_rx s rxs []).
Proof.
  unfold weight, Socket.pending. intros ->. cbn [Socket.with_rx Socket.rxbuf Socket.rx length].
  rewrite <- Nat.add_assoc. f_equal.
  induction chunks as [|c chunks IH]; cbn [map app fold_right list_sum].
  - reflexivity.
  - cbn [map app fold_right list_sum] in IH. rewrite IH.
    change (fold_right Init.Nat.add 0 ?l) with (list_sum l). lia.
Qed.

(** The write phase up to a write that does not take a byte. *)
Lemma write_request_run command data a s w ns txs :
  Py.encode (Py.strip command) = Some data ->
  Socket.usable s = true ->
  Socket.tx s = map Socket.TxAccept ns ++ txs ->
  all_positive ns = true ->
  list_sum ns < length (data ++ [x0a]) ->
  exists fuel,
    write_request command (at_socket a s w)
    = write_loop (S fuel) (data ++ [x0a]) (list_sum ns)
        (at_socket a (Socket.with_tx s txs)
           (Socket.logs (map (Socket.EvSend (Socket.fd s))
                           (pieces (data ++ [x0a]) ns)) w)).
Proof.
  intros Henc Hu Htx Hns Hsum.
  pose proof (length_le_sum ns Hns) as Hlen.
  exists (length (data ++ [x0a]) - length ns).
  rewrite (write_request_eq _ _ _ Henc).
  replace (S (length (data ++ [x0a])))
    with (length ns + S (length (data ++ [x0a]) - length ns)) by lia.
  rewrite (write_loop_run ns _ (data ++ [x0a]) 0 a s w txs); trivial.
  - now apply all_positive_Forall.
  - lia.
Qed.

(** The read phase up to a read that brings no data. *)
Lemma read_reply_run marker chunks a s w rxs :
  Socket.usable s = true ->
  Socket.rx s = map Socket.RxData chunks ++ rxs ->
  all_nonempty chunks = true ->
  occurs marker (Socket.rxbuf s ++ concat chunks) = false ->
  exists fuel ps,
    concat ps = Socket.rxbuf s ++ concat chunks
    /\ Socket.pending (Socket.with_rx s rxs []) <= fuel
    /\ read_reply marker (at_socket a s w)
       = (reply <- (chunk <- on_socket "recv" (Socket.recv BUFSIZE) ;;
                    match chunk with
                    | [] => set_socket None ;; raise lost
                    | _ :: _ =>
                      read_loop fuel marker
                        ((Socket.rxbuf s ++ concat chunks) ++ chunk)
                    end) ;;
          text <- of_option (Exn UnicodeDecodeError "invalid utf-8")
                            (Py.decode reply) ;;
          ret (Py.slice_to_neg text (length marker)))
           (at_socket a (Socket.with_rx s rxs [])
              (Socket.logs (map (Socket.EvRecv (Socket.fd s)) ps) w)).
Proof.
  intros Hu Hrx Hne Hocc.
  destruct (occurs_false _ _ Hocc) as [Hq Hend].
  destruct (read_loop_run (weight (Socket.rxbuf s) chunks)
              (Socket.rxbuf s) chunks [] a s w rxs marker)
    as (n & ps & Hn & Hps & Hrun); trivial.
  { now apply all_nonempty_Forall. }
  pose proof (pending_split s chunks rxs Hrx) as Hpend.
  exists (Socket.pending s - n), ps. split; [exact Hps|]. split; [lia|].
  unfold read_reply, bind at 1, read_fuel. cbn [at_socket self socket].
  replace (S (Socket.pending s))
    with (n + S (Socket.pending s - n)) by lia.
  unfold bind at 1. rewrite Hrun. cbn [app].
  rewrite read_loop_eq by exact Hend. reflexivity.
Qed.

(** An exchange on which the link gives out. *)
Lemma exchange_gives_out command marker data a s w :
  Py.encode (Py.strip command) = Some data ->
  Socket.usable s = true ->
  gives_out (data ++ [x0a]) marker s ->
  exists evs,
    exchange command marker (at_socket a s w)
    = (Raise lost, no_socket a (Socket.logs evs w)).
Proof.
  intros Henc Hu [ns txs Htx Hns Hsum | ns txs chunks rxs Htx Hns Hsum Hrx Hne Hocc].
  - destruct (write_request_run command data a s w ns _ Henc Hu Htx Hns Hsum)
      as (fuel & Hw).
    eexists. unfold exchange, bind at 1. rewrite Hw.
    rewrite (write_loop_zero fuel _ _ a _ _ txs); trivial.
    unfold Socket.log. rewrite logs_logs. reflexivity.
  - destruct (write_request_completes command data a s w ns txs)
      as (sent & txs' & Hw & _ & _); trivial.
    { rewrite length_app in Hsum. exact Hsum. }
    destruct (read_reply_run marker chunks a (Socket.with_tx s txs')
                (Socket.logs (map (Socket.EvSend (Socket.fd s)) sent) w)
                (Socket.RxData [] :: rxs))
      as (fuel & ps & _ & _ & Hr); trivial.
    eexists. unfold exchange, bind at 1. rewrite Hw, Hr.
    unfold bind at 1 2. rewrite on_socket_at.
    erewrite recv_eof; [| exact Hu | reflexivity | reflexivity].
    unfold Socket.log. rewrite !logs_logs. reflexivity.
Qed.

(** An exchange during which a call on the socket raises. *)
Lemma exchange_raises command marker data a s w e :
  Py.encode (Py.strip command) = Some data ->
  Socket.usable s = true ->
  call_raises (data ++ [x0a]) marker s e ->
  exists evs s',
    exchange command marker (at_socket a s w)
    = (Raise e, at_socket a s' (Socket.logs evs w))
    /\ Socket.fd s' = Socket.fd s
    /\ Socket.usable s' = true.
Proof.
  intros Henc Hu
         [ ns txs Htx Hns Hsum
         | ns txs chunks rxs Htx Hns Hsum Hrx Hne Hocc
         | ns ms Htx Hns Hsum Hms ->
         | ns txs chunks ms Htx Hns Hsum Hrx Hne Hocc Hms -> ].
  - destruct (write_request_run command data a s w ns _ Henc Hu Htx Hns Hsum)
      as (fuel & Hw).
    eexists. exists (Socket.with_tx s txs).
    split; [|split; [reflexivity | exact Hu]].
    unfold exchange, bind at 1. rewrite Hw.
    rewrite (write_loop_raise fuel _ _ a _ _ e txs); trivial.
    unfold Socket.log. rewrite logs_logs. reflexivity.
  - destruct (write_request_completes command data a s w ns txs)
      as (sent & txs' & Hw & _ & _); trivial.
    { rewrite length_app in Hsum. exact Hsum. }
    destruct (read_reply_run marker chunks a (Socket.with_tx s txs')
                (Socket.logs (map (Socket.EvSend (Socket.fd s)) sent) w)
                (Socket.RxRaise e :: rxs))
      as (fuel & ps & _ & _ & Hr); trivial.
    eexists. exists (Socket.with_rx (Socket.with_tx s txs') rxs []).
    split; [|split; [reflexivity | exact Hu]].
    unfold exchange, bind at 1. rewrite Hw, Hr.
    unfold bind at 1 2. rewrite on_socket_at.
    erewrite recv_raise; [| exact Hu | reflexivity | reflexivity].
    unfold Socket.log. rewrite !logs_logs. reflexivity.
  - rewrite <- (app_nil_r (map Socket.TxAccept ns)) in Htx.
    destruct (write_request_run command data a s w ns _ Henc Hu Htx Hns Hsum)
      as (fuel & Hw).
    eexists. exists (Socket.with_tx s []).
    split; [|split; [reflexivity | exact Hu]].
    unfold exchange, bind at 1. rewrite Hw.
    rewrite (write_loop_silent fuel _ _ a _ _ ms); trivial.
  - destruct (write_request_completes command data a s w ns txs)
      as (sent & txs' & Hw & _ & _); trivial.
    { rewrite length_app in Hsum. exact Hsum. }
    rewrite <- (app_nil_r (map Socket.RxData chunks)) in Hrx.
    destruct (read_reply_run marker chunks a (Socket.with_tx s txs')
                (Socket.logs (map (Socket.EvSend (Socket.fd s)) sent) w)
                [])
      as (fuel & ps & _ & _ & Hr); trivial.
    eexists. exists (Socket.with_rx (Socket.with_tx s txs') [] []).
    split; [|split; [reflexivity | exact Hu]].
    unfold exchange, bind at 1. rewrite Hw, Hr.
    unfold bind at 1 2. rewrite on_socket_at.
    erewrite recv_silent; [| exact Hu | reflexivity | reflexivity].
    unfold Socket.silent. cbn [Socket.timeout Socket.with_rx Socket.with_tx].
    rewrite Hms. rewrite logs_logs. reflexivity.
Qed.

End ExchangeFacts.

(** ** The properties of the exchange *)

(** C1, as amended. When the marker occurs in the wire reply (the data
    followed by the marker) only as its last bytes, the data is valid UTF-8
    and the marker is ASCII, then however the reply is cut into non-empty
    segments, [send] reads them all, stops when the buffer ends with the
    marker, and returns the data as text with the marker cut off. *)
Theorem send_returns_reply_text :
  forall command marker body text chunks st a s w data ns txs rxs,
    Connection.__enter__ st = (Ret tt, at_socket a s w) ->
    Socket.usable s = true ->
    Py.encode (Py.strip command) = Some data ->
    Socket.tx s = map Socket.TxAccept ns ++ txs ->
    all_positive ns = true ->
    length data + 1 <= list_sum ns ->
    Socket.rxbuf s = [] ->
    Socket.rx s = map Socket.RxData chunks ++ rxs ->
    all_nonempty chunks = true ->
    concat chunks = body ++ marker ->
    quiet marker [] (body ++ marker) = true ->
    forallb ascii_byte marker = true ->
    Py.decode body = Some text ->
    exists sent got st',
      Connection.send command marker st = (Ret text, st')
      /\ Socket.trace (env st')
         = Socket.trace w
           ++ map (Socket.EvSend (Socket.fd s)) sent
           ++ map (Socket.EvRecv (Socket.fd s)) got
      /\ concat sent = data ++ [x0a]
      /\ concat got = body ++ marker.
Proof.
  intros command marker body text chunks st a s w data ns txs rxs
         Henter Hu Henc Htx Hns Hsum Hbuf Hrx Hne Hcat Hq Hascii Hdec.
  destruct (ExchangeFacts.write_request_completes command data a s w ns txs)
    as (sent & txs' & Hw & Hsent & _); trivial.
  destruct (ExchangeFacts.read_reply_returns marker body text chunks a
              (Socket.with_tx s txs')
              (Socket.logs (map (Socket.EvSend (Socket.fd s)) sent) w) rxs)
    as (got & Hr & Hgot); trivial.
  { cbn. rewrite Hbuf. exact Hcat. }
  exists sent, got. eexists. split; [|split; [|split]]; trivial.
  - rewrite (ExchangeFacts.send_from _ _ _ _ Henter).
    unfold bind at 1. rewrite Hw. exact Hr.
  - cbn. now rewrite app_assoc.
Qed.

Lemma send_returns_reply_text_witness :
  exists sent got st',
    Connection.send (lit "version") Connection.END_MARKER Sample.fresh
    = (Ret (lit "Liquidsoap 2.2.0"), st')
    /\ Socket.trace (env st')
       = Socket.trace Sample.version_world
         ++ map (Socket.EvSend 3) sent ++ map (Socket.EvRecv 3) got
    /\ concat sent = ascii_bytes "version" ++ [x0a]
    /\ concat got = ascii_bytes "Liquidsoap 2.2.0" ++ Connection.END_MARKER.
Proof.
  apply (send_returns_reply_text
           (lit "version") Connection.END_MARKER
           (ascii_bytes "Liquidsoap 2.2.0") (lit "Liquidsoap 2.2.0")
           [ascii_bytes "Liquidsoap 2.2.0" ++ [x0d; x0a; x45];
            [x4e; x44; x0d; x0a]]
           Sample.fresh (lit "localhost:1234")
           Sample.version_socket Sample.version_world
           (ascii_bytes "version") [3; 100] [] []);
    try reflexivity.
  vm_compute. lia.
Defined.

(** C1, as written: the data [OK\r\nEND] does not contain the marker, yet
    when the first segment ends after the line break that follows it, the
    buffer ends with the marker already and [send] returns [OK]. *)
Lemma send_returns_unmarked_data_fails : ~ send_returns_unmarked_data.
Proof.
  intros H.
  specialize (H (lit "help") Connection.END_MARKER Sample.end_line_body
                (lit "OK" ++ [13; 10]%N ++ lit "END")
                [ascii_bytes "OK" ++ [x0d; x0a] ++ ascii_bytes "END"
                 ++ [x0d; x0a];
                 ascii_bytes "END" ++ [x0d; x0a]]
                (at_socket (lit "localhost:1234") Sample.end_line_socket
                           (Socket.mkWorld [] 4 []))
                (lit "localhost:1234") Sample.end_line_socket
                (Socket.mkWorld [] 4 [])
                (ascii_bytes "help") [100] []  []
                eq_refl eq_refl eq_refl eq_refl eq_refl).
  assert (Hlen : length (ascii_bytes "help") + 1 <= list_sum [100])
    by (vm_compute; lia).
  specialize (H Hlen eq_refl eq_refl eq_refl eq_refl eq_refl eq_refl).
  vm_compute in H. discriminate H.
Qed.

(** What [send] returns there. *)
Example end_line_reply_is_cut :
  fst (Connection.send (lit "help") Connection.END_MARKER
         (at_socket Sample.local Sample.end_line_socket Sample.somewhere))
  = Ret (lit "OK").
Proof. reflexivity. Qed.

(** C9. Whatever the command, when the link takes the request in partial
    writes of at least one byte each, [send] hands over every byte of the
    framed request, in order, and only then starts to read: what follows is
    the read phase, on a socket from which nothing was read yet. *)
Theorem send_writes_whole_request :
  forall command marker st a s w data ns txs,
    Connection.__enter__ st = (Ret tt, at_socket a s w) ->
    Socket.usable s = true ->
    Py.encode (Py.strip command) = Some data ->
    Socket.tx s = map Socket.TxAccept ns ++ txs ->
    all_positive ns = true ->
    length data + 1 <= list_sum ns ->
    exists sent s1 w1,
      concat sent = data ++ [x0a]
      /\ Forall (fun p => p <> []) sent
      /\ Socket.trace w1
         = Socket.trace w ++ map (Socket.EvSend (Socket.fd s)) sent
      /\ Socket.rx s1 = Socket.rx s
      /\ Socket.rxbuf s1 = Socket.rxbuf s
      /\ Connection.write_request command (at_socket a s w)
         = (Ret tt, at_socket a s1 w1)
      /\ Connection.send command marker st
         = Connection.read_reply marker (at_socket a s1 w1).
Proof.
  intros command marker st a s w data ns txs Henter Hu Henc Htx Hns Hsum.
  destruct (ExchangeFacts.write_request_completes command data a s w ns txs)
    as (sent & txs' & Hw & Hsent & Hne); trivial.
  exists sent, (Socket.with_tx s txs'),
    (Socket.logs (map (Socket.EvSend (Socket.fd s)) sent) w).
  repeat split; trivial.
  rewrite (ExchangeFacts.send_from _ _ _ _ Henter).
  unfold bind at 1. now rewrite Hw.
Qed.

Lemma send_writes_whole_request_witness :
  exists sent s1 w1,
    concat sent = ascii_bytes "version" ++ [x0a]
    /\ Forall (fun p => p <> []) sent
    /\ Socket.trace w1
       = Socket.trace Sample.version_world ++ map (Socket.EvSend 3) sent
    /\ Socket.rx s1 = Socket.rx Sample.version_socket
    /\ Socket.rxbuf s1 = []
    /\ Connection.write_request (lit "version")
         (at_socket (lit "localhost:1234") Sample.version_socket
                    Sample.version_world)
       = (Ret tt, at_socket (lit "localhost:1234") s1 w1)
    /\ Connection.send (lit "version") Connection.END_MARKER Sample.fresh
       = Connection.read_reply Connection.END_MARKER
           (at_socket (lit "localhost:1234") s1 w1).
Proof.
  apply (send_writes_whole_request
           (lit "version") Connection.END_MARKER Sample.fresh
           (lit "localhost:1234") Sample.version_socket Sample.version_world
           (ascii_bytes "version") [3; 100] []);
    try reflexivity.
  vm_compute. lia.
Defined.

(** C4. A write that takes no byte and a read that returns no byte each
    make [send] drop the socket ([self.socket = None]) and raise the one
    error of a lost link, [OSError('Connection lost')]. *)
Theorem send_zero_bytes_is_connection_lost :
  forall command marker st a s w data,
    Connection.__enter__ st = (Ret tt, at_socket a s w) ->
    Socket.usable s = true ->
    Py.encode (Py.strip command) = Some data ->
    gives_out (data ++ [x0a]) marker s ->
    exists st',
      Connection.send command marker st = (Raise Connection.lost, st')
      /\ socket (self st') = None
      /\ is_OSError Connection.lost = true.
Proof.
  intros command marker st a s w data Henter Hu Henc Hout.
  destruct (ExchangeFacts.exchange_gives_out command marker data a s w
              Henc Hu Hout) as (evs & Hx).
  eexists. split.
  - rewrite (ExchangeFacts.send_from _ _ _ _ Henter). exact Hx.
  - split; reflexivity.
Qed.

Lemma send_zero_bytes_is_connection_lost_witness :
  (exists st',
      Connection.send (lit "help") Connection.END_MARKER
        (at_socket Sample.local Sample.dead_socket Sample.somewhere)
      = (Raise Connection.lost, st')
      /\ socket (self st') = None
      /\ is_OSError Connection.lost = true)
  /\ (exists st',
      Connection.send (lit "help") Connection.END_MARKER
        (at_socket Sample.local Sample.closing_socket Sample.somewhere)
      = (Raise Connection.lost, st')
      /\ socket (self st') = None
      /\ is_OSError Connection.lost = true).
Proof.
  split.
  - apply (send_zero_bytes_is_connection_lost
             (lit "help") Connection.END_MARKER
             (at_socket Sample.local Sample.dead_socket Sample.somewhere)
             Sample.local Sample.dead_socket Sample.somewhere
             (ascii_bytes "help")); try reflexivity.
    apply (zero_write _ _ _ [] []); try reflexivity. vm_compute. lia.
  - apply (send_zero_bytes_is_connection_lost
             (lit "help") Connection.END_MARKER
             (at_socket Sample.local Sample.closing_socket Sample.somewhere)
             Sample.local Sample.closing_socket Sample.somewhere
             (ascii_bytes "help")); try reflexivity.
    apply (zero_read _ _ _ [100] [] [] []); try reflexivity.
    vm_compute. lia.
Defined.

(** C2, as amended. A read that times out inside [send] is not tried
    again: the timeout, an [OSError], leaves [send] as the error of the
    exchange; the socket stays in [self.socket] and keeps what the peer
    sends later. *)
Theorem send_read_timeout_propagates :
  forall command marker st a s w data ns txs chunks rxs,
    Connection.__enter__ st = (Ret tt, at_socket a s w) ->
    Socket.usable s = true ->
    Py.encode (Py.strip command) = Some data ->
    Socket.tx s = map Socket.TxAccept ns ++ txs ->
    all_positive ns = true ->
    length data + 1 <= list_sum ns ->
    Socket.rx s
    = map Socket.RxData chunks ++ Socket.RxRaise Socket.timed_out :: rxs ->
    all_nonempty chunks = true ->
    occurs marker (Socket.rxbuf s ++ concat chunks) = false ->
    exists st' s',
      Connection.send command marker st = (Raise Socket.timed_out, st')
      /\ is_OSError Socket.timed_out = true
      /\ socket (self st') = Some s'
      /\ Socket.fd s' = Socket.fd s
      /\ Socket.rx s' = rxs.
Proof.
  intros command marker st a s w data ns txs chunks rxs
         Henter Hu Henc Htx Hns Hsum Hrx Hne Hocc.
  destruct (ExchangeFacts.write_request_completes command data a s w ns txs)
    as (sent & txs' & Hw & _ & _); trivial.
  destruct (ExchangeFacts.read_reply_run marker chunks a
              (Socket.with_tx s txs')
              (Socket.logs (map (Socket.EvSend (Socket.fd s)) sent) w)
              (Socket.RxRaise Socket.timed_out :: rxs))
    as (fuel & ps & _ & _ & Hr); trivial.
  eexists. exists (Socket.with_rx (Socket.with_tx s txs') rxs []).
  split.
  - rewrite (ExchangeFacts.send_from _ _ _ _ Henter).
    unfold bind at 1. rewrite Hw, Hr.
    unfold bind at 1 2. rewrite LoopFacts.on_socket_at.
    erewrite SocketFacts.recv_raise; [| exact Hu | reflexivity | reflexivity].
    reflexivity.
  - repeat split.
Qed.

Lemma send_read_timeout_propagates_witness :
  exists st' s',
    Connection.send (lit "help") Connection.END_MARKER
      (at_socket Sample.local Sample.slow_socket Sample.somewhere)
    = (Raise Socket.timed_out, st')
    /\ is_OSError Socket.timed_out = true
    /\ socket (self st') = Some s'
    /\ Socket.fd s' = 3
    /\ Socket.rx s'
       = [Socket.RxData (ascii_bytes "OK" ++ Connection.END_MARKER)].
Proof.
  apply (send_read_timeout_propagates
           (lit "help") Connection.END_MARKER
           (at_socket Sample.local Sample.slow_socket Sample.somewhere)
           Sample.local Sample.slow_socket Sample.somewhere
           (ascii_bytes "help") [100] [] []
           [Socket.RxData (ascii_bytes "OK" ++ Connection.END_MARKER)]);
    try reflexivity.
  vm_compute. lia.
Defined.

(** C2, as written: the reply [OK] arrives after one timed-out read, and
    [send] raises the timeout instead of returning [OK]. *)
Lemma timeout_is_retried_fails : ~ timeout_is_retried.
Proof.
  intros H.
  assert (Hlen : length (ascii_bytes "help") + 1 <= list_sum [100])
    by (vm_compute; lia).
  specialize (H (lit "help") Connection.END_MARKER (ascii_bytes "OK")
                (lit "OK") [] [ascii_bytes "OK" ++ Connection.END_MARKER]
                (at_socket Sample.local Sample.slow_socket Sample.somewhere)
                Sample.local Sample.slow_socket Sample.somewhere
                (ascii_bytes "help") [100] [] []
                eq_refl eq_refl eq_refl eq_refl eq_refl Hlen
                eq_refl eq_refl eq_refl eq_refl eq_refl eq_refl eq_refl).
  vm_compute in H. discriminate H.
Qed.

(** ** Every run of the two loops *)

Module RunFacts.
Import SocketFacts LoopFacts Connection.

Local Opaque BUFSIZE.

Lemma sent_bytes_app e1 e2 :
  sent_bytes (e1 ++ e2) = sent_bytes e1 ++ sent_bytes e2.
Proof. unfold sent_bytes. now rewrite flat_map_app. Qed.

Lemma left_by_stay zero a s s' w {A} (r : result A) :
  Socket.fd s' = Socket.fd s -> r <> OutOfFuel ->
  left_by zero a s w r (at_socket a s' w) [].
Proof.
  intros Hfd Hr. exists (Some s'). rewrite logs_nil. repeat split; trivial.
Qed.

Lemma left_by_one zero ev a s s' w {A} (r : result A) :
  Socket.fd s' = Socket.fd s -> r <> OutOfFuel ->
  left_by zero a s w r (at_socket a s' (Socket.log ev w)) [ev].
Proof. intros Hfd Hr. exists (Some s'). repeat split; trivial. Qed.

Lemma left_by_lost zero a s w {A} :
  left_by zero a s w (@Raise A lost) (no_socket a (Socket.log zero w)) [zero].
Proof.
  exists None. repeat split; [|discriminate]. now exists [].
Qed.

Lemma left_by_step zero ev a s s1 w {A} (r : result A) st' evs :
  Socket.fd s1 = Socket.fd s ->
  left_by zero a s1 (Socket.log ev w) r st' evs ->
  left_by zero a s w r st' (ev :: evs).
Proof.
  intros Hfd (o & -> & Ho & Hr). exists o.
  unfold Socket.log. rewrite logs_logs. repeat split; trivial.
  destruct o; [congruence|].
  destruct Ho as (Hl & evs0 & ->). split; [exact Hl|].
  now exists (ev :: evs0).
Qed.

Lemma write_loop_unfold fuel request total a s w :
  total < length request ->
  write_loop (S fuel) request total (at_socket a s w)
  = match Socket.send (skipn total request) s w with
    | (Ret k, s', w') =>
      if k =? 0 then (Raise lost, no_socket a w')
      else write_loop fuel request (total + k) (at_socket a s' w')
    | (Raise e, s', w') => (Raise e, at_socket a s' w')
    | (Hang, s', w') => (Hang, at_socket a s' w')
    | (OutOfFuel, s', w') => (OutOfFuel, at_socket a s' w')
    end.
Proof.
  intros Hlt. cbn [write_loop].
  destruct (Nat.ltb_spec total (length request)); [|lia].
  unfold bind at 1. rewrite on_socket_at.
  destruct (Socket.send (skipn total request) s w) as [[r s'] w'].
  destruct r as [k| | |]; try reflexivity.
  destruct (k =? 0); reflexivity.
Qed.

Lemma write_loop_inv fuel :
  forall request total a s w r st',
    length request - total < fuel ->
    write_loop fuel request total (at_socket a s w) = (r, st') ->
    exists evs,
      left_by (Socket.EvSend (Socket.fd s) []) a s w r st' evs
      /\ forallb (is_tx (Socket.fd s)) evs = true
      /\ (exists rest, sent_bytes evs ++ rest = skipn total request)
      /\ (r = Ret tt -> sent_bytes evs = skipn total request).
Proof.
  induction fuel as [|fuel IH]; intros request total a s w r st' Hfuel Hrun;
    [lia|].
  destruct (Nat.ltb_spec total (length request)) as [Hlt|Hge].
  - rewrite write_loop_unfold in Hrun by assumption.
    unfold Socket.send in Hrun.
    assert (Hstay : forall e : exn,
               (@Raise unit e, at_socket a s w) = (r, st')
               \/ (@Hang unit, at_socket a s w) = (r, st') ->
               exists evs,
                 left_by (Socket.EvSend (Socket.fd s) []) a s w r st' evs
                 /\ forallb (is_tx (Socket.fd s)) evs = true
                 /\ (exists rest,
                        sent_bytes evs ++ rest = skipn total request)
                 /\ (r = Ret tt -> sent_bytes evs = skipn total request)).
    { intros e0 [[= <- <-]|[= <- <-]]; exists []; repeat split;
        try (apply left_by_stay; [reflexivity | discriminate]);
        try (exists (skipn total request); reflexivity); discriminate. }
    destruct (Socket.closed s) eqn:Hc.
    { apply (Hstay Socket.EBADF). left. exact Hrun. }
    destruct (Socket.connected s) eqn:Hn; cbv beta iota zeta delta [negb] in Hrun.
    2:{ apply (Hstay Socket.ENOTCONN). left. exact Hrun. }
    destruct (Socket.tx s) as [|[n|e] txs] eqn:Htx.
    + (* a silent link *)
      unfold Socket.silent in Hrun. apply (Hstay Socket.timed_out).
      destruct (Socket.timeout s); [left | right]; exact Hrun.
    + (* the link takes some bytes, or none *)
      rewrite length_skipn in Hrun.
      destruct (Nat.min n (length request - total)) as [|k] eqn:Hk.
      * cbn in Hrun. injection Hrun as <- <-.
        exists [Socket.EvSend (Socket.fd s) []]. repeat split.
        -- apply left_by_lost.
        -- cbn. now rewrite Nat.eqb_refl.
        -- exists (skipn total request). reflexivity.
        -- discriminate.
      * cbn [Nat.eqb] in Hrun.
        apply IH in Hrun; [|lia].
        destruct Hrun as (evs & Hleft & Htxs & (rest & Hrest) & Hret).
        exists (Socket.EvSend (Socket.fd s)
                  (firstn (S k) (skipn total request)) :: evs).
        repeat split.
        -- eapply left_by_step; [|exact Hleft]. reflexivity.
        -- cbn [forallb is_tx]. now rewrite Nat.eqb_refl.
        -- exists rest. cbn [sent_bytes flat_map]. rewrite <- app_assoc.
           fold (sent_bytes evs). rewrite Hrest.
           rewrite (Nat.add_comm total), <- skipn_skipn. apply firstn_skipn.
        -- intros Hr. cbn [sent_bytes flat_map]. fold (sent_bytes evs).
           rewrite (Hret Hr), (Nat.add_comm total), <- skipn_skipn.
           apply firstn_skipn.
    + (* the call raises *)
      injection Hrun as <- <-.
      exists [Socket.EvError (Socket.fd s) e]. repeat split.
      * apply left_by_one; [reflexivity | discriminate].
      * cbn. now rewrite Nat.eqb_refl.
      * exists (skipn total request). reflexivity.
      * discriminate.
  - rewrite write_loop_done in Hrun by assumption.
    injection Hrun as <- <-. exists []. repeat split.
    + apply left_by_stay; [reflexivity | discriminate].
    + exists []. rewrite skipn_all2 by lia. reflexivity.
    + intros _. rewrite skipn_all2 by lia. reflexivity.
Qed.

Lemma read_loop_unfold fuel marker reply a s w :
  Py.endswith reply marker = false ->
  read_loop (S fuel) marker reply (at_socket a s w)
  = match Socket.recv BUFSIZE s w with
    | (Ret chunk, s', w') =>
      match chunk with
      | [] => (Raise lost, no_socket a w')
      | _ :: _ => read_loop fuel marker (reply ++ chunk) (at_socket a s' w')
      end
    | (Raise e, s', w') => (Raise e, at_socket a s' w')
    | (Hang, s', w') => (Hang, at_socket a s' w')
    | (OutOfFuel, s', w') => (OutOfFuel, at_socket a s' w')
    end.
Proof.
  intros Hend. rewrite read_loop_eq by assumption.
  unfold bind at 1. rewrite on_socket_at.
  destruct (Socket.recv BUFSIZE s w) as [[r s'] w'].
  destruct r as [chunk| | |]; try reflexivity.
  destruct chunk; reflexivity.
Qed.

Lemma read_loop_inv fuel :
  forall marker reply a s w r st',
    Socket.pending s < fuel ->
    read_loop fuel marker reply (at_socket a s w) = (r, st') ->
    exists evs,
      left_by (Socket.EvRecv (Socket.fd s) []) a s w r st' evs
      /\ forallb (is_rx (Socket.fd s)) evs = true.
Proof.
  induction fuel as [|fuel IH]; intros marker reply a s w r st' Hfuel Hrun;
    [lia|].
  destruct (Py.endswith reply marker) eqn:Hend.
  { rewrite read_loop_done in Hrun by assumption.
    injection Hrun as <- <-. exists []. split; [|reflexivity].
    apply left_by_stay; [reflexivity | discriminate]. }
  rewrite read_loop_unfold in Hrun by assumption.
  unfold Socket.recv in Hrun.
  assert (Hstay : forall e : exn,
             (@Raise bytes e, at_socket a s w) = (r, st')
             \/ (@Hang bytes, at_socket a s w) = (r, st') ->
             exists evs,
               left_by (Socket.EvRecv (Socket.fd s) []) a s w r st' evs
               /\ forallb (is_rx (Socket.fd s)) evs = true).
  { intros e0 [[= <- <-]|[= <- <-]]; exists []; (split; [|reflexivity]);
      apply left_by_stay; (reflexivity || discriminate). }
  destruct (Socket.closed s) eqn:Hc.
  { apply (Hstay Socket.EBADF). left. exact Hrun. }
  destruct (Socket.connected s) eqn:Hn; cbv beta iota zeta delta [negb] in Hrun.
  2:{ apply (Hstay Socket.ENOTCONN). left. exact Hrun. }
  destruct (Socket.rxbuf s) as [|b buf] eqn:Hbuf.
  - destruct (Socket.rx s) as [|[[|x c]|e] rxs] eqn:Hrx.
    + (* a silent link *)
      unfold Socket.silent in Hrun. apply (Hstay Socket.timed_out).
      destruct (Socket.timeout s); [left | right]; exact Hrun.
    + (* the peer has closed *)
      injection Hrun as <- <-.
      exists [Socket.EvRecv (Socket.fd s) []]. split; [|cbn; now rewrite Nat.eqb_refl].
      apply left_by_lost.
    + (* a segment arrives *)
      rewrite if_nonempty in Hrun
        by (apply firstn_nonempty; [apply BUFSIZE_pos | discriminate]).
      apply IH in Hrun.
      * destruct Hrun as (evs & Hleft & Hrxs).
        exists (Socket.EvRecv (Socket.fd s) (firstn BUFSIZE (x :: c)) :: evs).
        split.
        -- eapply left_by_step; [|exact Hleft]. reflexivity.
        -- cbn [forallb is_rx]. now rewrite Nat.eqb_refl.
      * assert (Hx : x :: c <> []) by discriminate.
        pose proof (skipn_shorter BUFSIZE _ BUFSIZE_pos Hx) as Hs.
        unfold Socket.pending in *. rewrite Hbuf, Hrx in Hfuel.
        cbn [Socket.with_rx Socket.rxbuf Socket.rx fold_right] in *.
        cbn [length] in Hfuel. cbn [length] in Hs. lia.
    + (* the call raises *)
      injection Hrun as <- <-.
      exists [Socket.EvError (Socket.fd s) e]. split; [|cbn; now rewrite Nat.eqb_refl].
      apply left_by_one; [reflexivity | discriminate].
  - (* buffered bytes *)
    rewrite if_nonempty in Hrun
      by (apply firstn_nonempty; [apply BUFSIZE_pos | discriminate]).
    apply IH in Hrun.
    + destruct Hrun as (evs & Hleft & Hrxs).
      exists (Socket.EvRecv (Socket.fd s) (firstn BUFSIZE (b :: buf)) :: evs).
      split.
      * eapply left_by_step; [|exact Hleft]. reflexivity.
      * cbn [forallb is_rx]. now rewrite Nat.eqb_refl.
    + assert (Hx : b :: buf <> []) by discriminate.
      pose proof (skipn_shorter BUFSIZE _ BUFSIZE_pos Hx) as Hs.
      unfold Socket.pending in *. rewrite Hbuf in Hfuel.
      cbn [Socket.with_rx Socket.rxbuf Socket.rx] in *. lia.
Qed.

(** *** [_connect] *)

Lemma split1_colon (addr : str) :
  Py.contains Py.colon addr = true ->
  exists host port,
    Py.split1 Py.colon addr = [host; port]
    /\ addr = host ++ Py.colon :: port
    /\ Py.contains Py.colon host = false.
Proof.
  induction addr as [|c addr IH]; [discriminate|].
  cbn [Py.contains existsb Py.split1]. rewrite (N.eqb_sym Py.colon c).
  destruct (N.eqb_spec c Py.colon) as [->|Hc].
  - intros _. exists [], addr. repeat split.
  - cbn [orb]. intros H. destruct (IH H) as (host & port & Hs & -> & Hh).
    exists (c :: host), port. rewrite Hs. repeat split.
    cbn [Py.contains existsb]. rewrite (N.eqb_sym Py.colon c).
    destruct (N.eqb_spec c Py.colon); [contradiction | exact Hh].
Qed.

(** What [_connect] does, by the address and by what the world holds. *)
Lemma connect_eq a o w :
  _connect (St (Conn a o) w)
  = match target a with
    | None =>
      (Raise (Exn ValueError "invalid literal for int()"),
       at_socket a (made_socket a w) (made_world a w))
    | Some t =>
      match Socket.net w with
      | [] =>
        (Raise Socket.ECONNREFUSED,
         at_socket a (made_socket a w)
           (Socket.log (Socket.EvConnect (Socket.next_fd w) t
                          (Some Socket.ECONNREFUSED)) (made_world a w)))
      | Socket.Refuse e :: n =>
        (Raise e,
         at_socket a (made_socket a w)
           (Socket.mkWorld n (S (Socket.next_fd w))
              (Socket.trace (made_world a w)
               ++ [Socket.EvConnect (Socket.next_fd w) t (Some e)])))
      | Socket.Establish txs rxs :: n =>
        (Ret tt,
         at_socket a
           (Socket.mk (Socket.next_fd w) (family_for a) true false
                      (Some 100%N) txs rxs [])
           (Socket.mkWorld n (S (Socket.next_fd w))
              (Socket.trace (made_world a w)
               ++ [Socket.EvConnect (Socket.next_fd w) t None])))
      end
    end.
Proof.
  unfold _connect, target, family_for, made_socket, made_world, family_for.
  unfold bind at 1, get_addr. cbn [self socket_addr].
  destruct (Py.contains Py.colon a) eqn:Hcolon.
  - destruct (split1_colon a Hcolon) as (host & port & -> & _ & _).
    destruct (Py.int port) as [p|]; [|reflexivity].
    cbn [option_map]. destruct (Socket.net w) as [|[e|txs rxs] n] eqn:Hnet;
      unfold bind, new_socket, on_socket, of_option, ret, Socket.socket,
        Socket.connect, Socket.settimeout;
      cbn [self socket env socket_addr Socket.closed Socket.connected
           Socket.net Socket.fd Socket.af Socket.timeout Socket.tx
           Socket.rx Socket.rxbuf Socket.next_fd Socket.trace];
      rewrite ?Hnet; reflexivity.
  - destruct (Socket.net w) as [|[e|txs rxs] n] eqn:Hnet;
      unfold bind, new_socket, on_socket, of_option, ret, Socket.socket,
        Socket.connect, Socket.settimeout;
      cbn [self socket env socket_addr Socket.closed Socket.connected
           Socket.net Socket.fd Socket.af Socket.timeout Socket.tx
           Socket.rx Socket.rxbuf Socket.next_fd Socket.trace];
      rewrite ?Hnet; reflexivity.
Qed.

(** A socket that [_connect] has connected is usable and has the timeout
    of a tenth of a second: on it a silent link makes a call raise, never
    hang. *)
Lemma connect_sets_timeout a o w st' :
  _connect (St (Conn a o) w) = (Ret tt, st') ->
  exists s,
    socket (self st') = Some s
    /\ Socket.usable s = true
    /\ Socket.timeout s = Some 100%N
    /\ Socket.fd s = Socket.next_fd w.
Proof.
  rewrite connect_eq. destruct (target a) as [t|]; [|discriminate].
  destruct (Socket.net w) as [|[e|txs rxs] n]; try discriminate.
  intros [= <-]. eexists. repeat split.
Qed.

(** *** Every run of an exchange *)

Lemma is_tx_io fd evs :
  forallb (is_tx fd) evs = true -> forallb (is_io fd) evs = true.
Proof.
  rewrite !forallb_forall. intros H ev Hev. unfold is_io.
  now rewrite (H ev Hev).
Qed.

Lemma is_rx_io fd evs :
  forallb (is_rx fd) evs = true -> forallb (is_io fd) evs = true.
Proof.
  rewrite !forallb_forall. intros H ev Hev. unfold is_io.
  rewrite (H ev Hev). apply orb_true_r.
Qed.

Lemma is_rx_sent fd evs :
  forallb (is_rx fd) evs = true -> sent_bytes evs = [].
Proof.
  induction evs as [|ev evs IH]; [reflexivity|].
  cbn [forallb]. rewrite andb_true_iff. intros [Hev Hevs].
  cbn [sent_bytes flat_map]. fold (sent_bytes evs). rewrite (IH Hevs).
  destruct ev; try reflexivity. discriminate.
Qed.

Lemma is_io_connects fd evs :
  forallb (is_io fd) evs = true -> connects evs = 0.
Proof.
  induction evs as [|ev evs IH]; [reflexivity|].
  cbn [forallb]. rewrite andb_true_iff. intros [Hev Hevs].
  unfold connects in *. cbn [filter].
  destruct ev; try (apply IH; exact Hevs); discriminate.
Qed.

Lemma exchange_inv command marker a s w r st' :
  exchange command marker (at_socket a s w) = (r, st') ->
  exists evs,
    io_only a s w r st' evs
    /\ r <> OutOfFuel
    /\ exists rest, sent_bytes evs ++ rest = request_of command.
Proof.
  unfold exchange, request_of, write_request. unfold bind at 1 2.
  destruct (Py.encode (Py.strip command)) as [data|].
  2:{ cbn. intros [= <- <-]. exists []. repeat split; try discriminate.
      - exists (Some s). rewrite logs_nil. repeat split.
      - now exists []. }
  cbn [of_option ret].
  destruct (write_loop (S (length (data ++ [x0a]))) (data ++ [x0a]) 0
              (at_socket a s w)) as [rw st1] eqn:Hw.
  apply write_loop_inv in Hw; [|lia].
  destruct Hw as (evs1 & Hleft & Htx & (rest & Hrest) & Hret).
  cbn [skipn] in Hrest, Hret.
  pose proof (is_tx_io _ _ Htx) as Hio1.
  assert (Hfail : forall r0 : result str,
             r0 <> OutOfFuel ->
             (rw = Raise Connection.lost -> r0 = Raise Connection.lost) ->
             (r0, st1) = (r, st') ->
             exists evs,
               io_only a s w r st' evs
               /\ r <> OutOfFuel
               /\ exists rest0, sent_bytes evs ++ rest0 = data ++ [x0a]).
  { intros r0 Hr0 Hlost [= <- <-]. exists evs1. repeat split; trivial.
    - destruct Hleft as (o & -> & Ho & _). exists o. repeat split; trivial.
      destruct o; [exact Ho|]. destruct Ho as (Hr & evs0 & ->).
      split; [now apply Hlost|]. exists evs0. now left.
    - now exists rest. }
  destruct rw as [[]|e| |].
  - (* the request is out *)
    destruct Hleft as (o1 & -> & Ho1 & _).
    destruct o1 as [s1|]; [|destruct Ho1; discriminate].
    unfold read_reply. unfold bind at 1, read_fuel at 1.
    cbn [self socket]. unfold bind at 1.
    destruct (read_loop (S (Socket.pending s1)) marker []
                (St (Conn a (Some s1)) (Socket.logs evs1 w)))
      as [rr st2] eqn:Hr.
    apply (read_loop_inv _ marker [] a s1) in Hr; [|lia].
    destruct Hr as (evs2 & Hleft2 & Hrx).
    rewrite Ho1 in Hrx.
    pose proof (is_rx_io _ _ Hrx) as Hio2.
    assert (Hdone : forall r0 : result str,
               r0 <> OutOfFuel ->
               (rr = Raise Connection.lost -> r0 = Raise Connection.lost) ->
               (r0, st2) = (r, st') ->
               exists evs,
                 io_only a s w r st' evs
                 /\ r <> OutOfFuel
                 /\ exists rest0, sent_bytes evs ++ rest0 = data ++ [x0a]).
    { intros r0 Hr0 Hlost [= <- <-]. exists (evs1 ++ evs2). repeat split.
      - destruct Hleft2 as (o & -> & Ho & Hfu). exists o.
        rewrite logs_logs, forallb_app, Hio1, Hio2. repeat split.
        destruct o; [congruence|]. destruct Ho as (Hl & evs0 & ->).
        split; [now apply Hlost|]. exists (evs1 ++ evs0). right.
        now rewrite Ho1, app_assoc.
      - exact Hr0.
      - exists rest. rewrite sent_bytes_app, (is_rx_sent _ _ Hrx), app_nil_r.
        exact Hrest. }
    destruct rr as [reply|e| |].
    + destruct (Py.decode reply) as [text|]; cbn [of_option];
        unfold bind, ret, raise; apply Hdone; try discriminate; reflexivity.
    + apply Hdone; [discriminate | intros [= ->]; reflexivity].
    + apply Hdone; discriminate.
    + destruct Hleft2 as (o & _ & _ & Hfu). congruence.
  - apply Hfail; [discriminate | intros [= ->]; reflexivity].
  - apply Hfail; discriminate.
  - destruct Hleft as (o & _ & _ & Hfu). congruence.
Qed.

(** [send] on a connection that has a socket is the exchange on it. *)
Lemma send_connected command marker a s w :
  send command marker (at_socket a s w)
  = exchange command marker (at_socket a s w).
Proof. reflexivity. Qed.

(** [send] on a connection without a socket connects first. *)
Lemma send_disconnected command marker a w :
  send command marker (no_socket a w)
  = (_connect ;; exchange command marker) (no_socket a w).
Proof. reflexivity. Qed.

(** Every run of [send] is one attempt, and ends within its budget. *)
Lemma send_inv command marker st r st' :
  send command marker st = (r, st') ->
  r <> OutOfFuel
  /\ exists evs,
      Socket.trace (env st') = Socket.trace (env st) ++ evs
      /\ one_attempt command evs.
Proof.
  destruct st as [[a [s|]] w]; intros Hrun.
  - change (St (Conn a (Some s)) w) with (at_socket a s w) in Hrun.
    rewrite send_connected in Hrun.
    apply exchange_inv in Hrun.
    destruct Hrun as (evs & (o & -> & Hio & _) & Hfu & Hsent).
    split; [exact Hfu|]. exists evs. split; [reflexivity|].
    split; [|exact Hsent]. rewrite (is_io_connects _ _ Hio). lia.
  - change (St (Conn a None) w) with (no_socket a w) in Hrun.
    rewrite send_disconnected in Hrun. unfold bind at 1 in Hrun.
    unfold no_socket in Hrun. rewrite connect_eq in Hrun.
    assert (Hnone : forall (e : exn) (w' : Socket.world) evs,
               Socket.trace w' = Socket.trace w ++ evs ->
               connects evs <= 1 -> sent_bytes evs = [] ->
               (@Raise str e, at_socket a (made_socket a w) w') = (r, st') ->
               r <> OutOfFuel
               /\ exists evs0,
                   Socket.trace (env st') = Socket.trace w ++ evs0
                   /\ one_attempt command evs0).
    { intros e w' evs Htr Hc Hs [= <- <-]. split; [discriminate|].
      exists evs. split; [exact Htr|]. split; [exact Hc|].
      exists (request_of command). now rewrite Hs. }
    destruct (target a) as [t|].
    2:{ eapply Hnone; [| | |exact Hrun]; [reflexivity | cbn; lia | reflexivity]. }
    destruct (Socket.net w) as [|[e|txs rxs] n].
    + eapply Hnone; [| | |exact Hrun].
      * unfold Socket.log, Socket.logs, made_world. cbn [Socket.trace].
        rewrite <- app_assoc. reflexivity.
      * cbn. lia.
      * reflexivity.
    + eapply Hnone; [| | |exact Hrun].
      * unfold made_world. cbn [Socket.trace].
        rewrite <- app_assoc. reflexivity.
      * cbn. lia.
      * reflexivity.
    + apply exchange_inv in Hrun.
      destruct Hrun as (evs & (o & -> & Hio & _) & Hfu & (rest & Hsent)).
      split; [exact Hfu|].
      exists ([Socket.EvSocket (Socket.next_fd w) (family_for a);
               Socket.EvConnect (Socket.next_fd w) t None] ++ evs).
      split; [|split].
      * unfold made_world. cbn [env Socket.logs Socket.trace].
        rewrite <- !app_assoc. reflexivity.
      * unfold connects in *. cbn [app filter length].
        pose proof (is_io_connects _ _ Hio) as Hz. unfold connects in Hz.
        cbn [Socket.fd] in Hz. rewrite Hz. lia.
      * exists rest. exact Hsent.
Qed.

End RunFacts.

(** The port is what [int()] makes of the text after the colon: digits of
    another script are a port number, and a separator that [strip()] would
    remove makes the port no number. *)
Example connect_reads_port_in_any_script :
  Connection._connect
    (no_socket (lit "localhost:" ++ [0x661; 0x662; 0x663; 0x664]%N)
       (Socket.mkWorld [Sample.version_server] 3 []))
  = (Ret tt,
     at_socket (lit "localhost:" ++ [0x661; 0x662; 0x663; 0x664]%N)
       Sample.version_socket Sample.version_world).
Proof. reflexivity. Qed.

Example connect_refuses_separator_in_port :
  Connection._connect
    (no_socket (lit "localhost:" ++ 31%N :: lit "1234")
       (Socket.mkWorld [Sample.version_server] 3 []))
  = (Raise (Exn ValueError "invalid literal for int()"),
     at_socket (lit "localhost:" ++ 31%N :: lit "1234")
       (Socket.mk 3 Socket.AF_INET false false None [] [] [])
       (Socket.mkWorld [Sample.version_server] 4
          [Socket.EvSocket 3 Socket.AF_INET])).
Proof. reflexivity. Qed.

(** C5. Whatever the address, [_connect] picks the transport by the colon:
    with a colon, a TCP socket (AF_INET) is made and the address is cut at
    its first colon into the host and the text of the port, to which the
    socket is then connected when [int()] reads that text as a number;
    without a colon a Unix domain socket is made and connected to the
    address as a path. *)
Theorem connect_selects_transport_by_colon :
  forall addr o w,
    let run := Connection._connect (St (Conn addr o) w) in
    exists s evs,
      socket (self (snd run)) = Some s
      /\ Socket.af s = (if Py.contains Py.colon addr
                        then Socket.AF_INET else Socket.AF_UNIX)
      /\ Socket.trace (env (snd run))
         = Socket.trace w
           ++ Socket.EvSocket (Socket.next_fd w) (Socket.af s) :: evs
      /\ (if Py.contains Py.colon addr
          then exists host port,
              addr = host ++ Py.colon :: port
              /\ Py.contains Py.colon host = false
              /\ match Py.int port with
                 | Some p =>
                   exists err,
                   evs = [Socket.EvConnect (Socket.fd s)
                            (Socket.Inet host p) err]
                 | None => evs = [] /\ exn_cls_of (fst run) = Some ValueError
                 end
          else exists err,
              evs = [Socket.EvConnect (Socket.fd s) (Socket.Unix addr) err]).
Proof.
  intros addr o w run. subst run. rewrite RunFacts.connect_eq.
  unfold target, family_for, made_socket, made_world, family_for.
  destruct (Py.contains Py.colon addr) eqn:Hcolon.
  - destruct (RunFacts.split1_colon addr Hcolon) as (host & port & Hs & Ha & Hh).
    rewrite Hs.
    destruct (Py.int port) as [p|] eqn:Hint; cbn [option_map].
    + destruct (Socket.net w) as [|[e|txs rxs] n];
        eexists; eexists; (split; [reflexivity|]); (split; [reflexivity|]);
        (split; [cbn; rewrite <- app_assoc; reflexivity|]);
        exists host, port; rewrite Hint; repeat split; trivial;
        eexists; reflexivity.
    + eexists; exists []. repeat split.
      exists host, port. rewrite Hint. repeat split; trivial.
  - destruct (Socket.net w) as [|[e|txs rxs] n];
      eexists; eexists; (split; [reflexivity|]); (split; [reflexivity|]);
      (split; [cbn; rewrite <- app_assoc; reflexivity|]);
      eexists; reflexivity.
Qed.

(** C7. When the [connect] call fails, [_connect] raises the error of that
    call at once: one socket was made, one connection attempt was made on
    it, nothing was sent, and no second attempt follows, neither in
    [__enter__] nor in [send]. *)
Theorem connect_failure_surfaces :
  forall addr o w e n t,
    Socket.net w = Socket.Refuse e :: n ->
    target addr = Some t ->
    let failed :=
      at_socket addr (made_socket addr w)
        (Socket.mkWorld n (S (Socket.next_fd w))
           (Socket.trace w
            ++ [Socket.EvSocket (Socket.next_fd w) (family_for addr);
                Socket.EvConnect (Socket.next_fd w) t (Some e)])) in
    Connection._connect (St (Conn addr o) w) = (Raise e, failed)
    /\ Connection.__enter__ (no_socket addr w) = (Raise e, failed)
    /\ forall command marker,
        Connection.send command marker (no_socket addr w) = (Raise e, failed).
Proof.
  intros addr o w e n t Hnet Ht failed.
  assert (H : forall o', Connection._connect (St (Conn addr o') w)
                         = (Raise e, failed)).
  { intros o'. rewrite RunFacts.connect_eq, Ht, Hnet. subst failed.
    unfold made_world. cbn [Socket.trace]. rewrite <- app_assoc. reflexivity. }
  split; [apply H|]. split.
  - unfold Connection.__enter__, bind, get_socket, no_socket.
    cbn [self socket]. apply H.
  - intros command marker. rewrite ExchangeFacts.send_enter.
    unfold bind at 1, Connection.__enter__, bind, get_socket, no_socket.
    cbn [self socket]. now rewrite H.
Qed.

(** After a failed [connect] the socket that was made stays in
    [self.socket]: a later [send] finds a socket, does not connect again,
    and fails on the first write. *)
Lemma send_after_failed_connect command marker a s w data :
  Socket.closed s = false -> Socket.connected s = false ->
  Py.encode (Py.strip command) = Some data ->
  Connection.send command marker (at_socket a s w)
  = (Raise Socket.ENOTCONN, at_socket a s w).
Proof.
  intros Hc Hn Henc. rewrite RunFacts.send_connected.
  unfold exchange, bind at 1.
  rewrite (ExchangeFacts.write_request_eq _ _ _ Henc).
  rewrite RunFacts.write_loop_unfold by (rewrite length_app; cbn; lia).
  unfold Socket.send. rewrite Hc, Hn. reflexivity.
Qed.

Lemma connect_failure_surfaces_witness :
  let failed :=
    at_socket Sample.local (made_socket Sample.local Sample.refusing)
      (Socket.mkWorld [Sample.version_server] 4
         [Socket.EvSocket 3 Socket.AF_INET;
          Socket.EvConnect 3 (Socket.Inet (lit "localhost") 1234)
            (Some Socket.ECONNREFUSED)]) in
  Connection._connect (St (Conn Sample.local None) Sample.refusing)
  = (Raise Socket.ECONNREFUSED, failed)
  /\ Connection.__enter__ (no_socket Sample.local Sample.refusing)
     = (Raise Socket.ECONNREFUSED, failed)
  /\ forall command marker,
      Connection.send command marker (no_socket Sample.local Sample.refusing)
      = (Raise Socket.ECONNREFUSED, failed).
Proof.
  apply (connect_failure_surfaces
           Sample.local None Sample.refusing Socket.ECONNREFUSED
           [Sample.version_server] (Socket.Inet (lit "localhost") 1234));
    reflexivity.
Defined.

(** What [send] does there. *)
Example slow_reply_raises :
  fst (Connection.send (lit "help") Connection.END_MARKER Sample.slow)
  = Raise Socket.timed_out.
Proof. reflexivity. Qed.

(** Whatever [send] does on a connection that has a socket, it makes no
    new socket and no connection: it only sends and receives on that
    socket, and it drops the socket only after a call that moved no byte,
    raising the error of a lost link. *)
Lemma send_drops_socket_only_on_zero_bytes command marker a s w r st' :
  Connection.send command marker (at_socket a s w) = (r, st') ->
  exists evs, io_only a s w r st' evs.
Proof.
  intros Hrun. rewrite RunFacts.send_connected in Hrun.
  apply RunFacts.exchange_inv in Hrun. destruct Hrun as (evs & Hio & _).
  now exists evs.
Qed.

(** C10. When a write or a read raises during [send], [send] raises that
    error and keeps the socket in [self.socket]: the connection still
    counts as connected, so whatever is sent next, the retry of
    [Console._send] included, goes to the same socket and no new transport
    is set up; only a write or a read of zero bytes drops the socket. *)
Theorem send_error_keeps_socket :
  forall command marker a s w data e,
    Socket.usable s = true ->
    Py.encode (Py.strip command) = Some data ->
    call_raises (data ++ [x0a]) marker s e ->
    exists evs s',
      Connection.send command marker (at_socket a s w)
      = (Raise e, at_socket a s' (Socket.logs evs w))
      /\ Socket.fd s' = Socket.fd s
      /\ Socket.usable s' = true
      /\ (forall command2 marker2 r st',
             Connection.send command2 marker2
               (at_socket a s' (Socket.logs evs w)) = (r, st') ->
             exists evs', io_only a s' (Socket.logs evs w) r st' evs')
      /\ (marker = Connection.END_MARKER -> is_OSError e = true ->
          Console._send command (at_socket a s w)
          = Connection.send command Connection.END_MARKER
              (at_socket a s' (Socket.logs evs w))).
Proof.
  intros command marker a s w data e Hu Henc Hraise.
  destruct (ExchangeFacts.exchange_raises command marker data a s w e
              Henc Hu Hraise) as (evs & s' & Hx & Hfd & Hu').
  exists evs, s'. rewrite RunFacts.send_connected.
  split; [exact Hx|]. split; [exact Hfd|]. split; [exact Hu'|]. split.
  - intros command2 marker2 r st'.
    apply send_drops_socket_only_on_zero_bytes.
  - intros -> He. unfold Console._send, try_except_OSError.
    rewrite RunFacts.send_connected, Hx, He. reflexivity.
Qed.

Lemma send_error_keeps_socket_witness :
  exists evs s',
    Connection.send (lit "help") Connection.END_MARKER Sample.slow
    = (Raise Socket.timed_out,
       at_socket Sample.local s' (Socket.logs evs Sample.somewhere))
    /\ Socket.fd s' = 3
    /\ Socket.usable s' = true
    /\ (forall command2 marker2 r st',
           Connection.send command2 marker2
             (at_socket Sample.local s' (Socket.logs evs Sample.somewhere))
           = (r, st') ->
           exists evs',
             io_only Sample.local s' (Socket.logs evs Sample.somewhere)
                     r st' evs')
    /\ (Connection.END_MARKER = Connection.END_MARKER ->
        is_OSError Socket.timed_out = true ->
        Console._send (lit "help") Sample.slow
        = Connection.send (lit "help") Connection.END_MARKER
            (at_socket Sample.local s' (Socket.logs evs Sample.somewhere))).
Proof.
  apply (send_error_keeps_socket
           (lit "help") Connection.END_MARKER Sample.local
           Sample.slow_socket Sample.somewhere (ascii_bytes "help")
           Socket.timed_out); try reflexivity.
  apply (read_raises _ _ _ _ [100] [] []
           [Socket.RxData (ascii_bytes "OK" ++ Connection.END_MARKER)]);
    try reflexivity.
  vm_compute. lia.
Defined.

(** The retry after a timeout, on a server that answers late: the line
    goes out a second time on the same socket, and the answer returned is
    the one to the first. *)
Example timeout_retry_sends_twice :
  fst (Console._send (lit "help") Sample.patient) = Ret (lit "OK")
  /\ Socket.trace (env (snd (Console._send (lit "help") Sample.patient)))
     = [Socket.EvSend 3 (ascii_bytes "help" ++ [x0a]);
        Socket.EvError 3 Socket.timed_out;
        Socket.EvSend 3 (ascii_bytes "help" ++ [x0a]);
        Socket.EvRecv 3 (ascii_bytes "OK" ++ Connection.END_MARKER)].
Proof. split; reflexivity. Qed.

(** When [send] does not raise an [OSError], [Console._send] is that one
    call of [send]. *)
Lemma interactive_send_passes line st r st1 :
  Connection.send line Connection.END_MARKER st = (r, st1) ->
  (forall e, r = Raise e -> is_OSError e = false) ->
  Console._send line st = (r, st1).
Proof.
  intros Hrun Hr. unfold Console._send, try_except_OSError. rewrite Hrun.
  destruct r as [t|e| |]; try reflexivity.
  now rewrite (Hr e eq_refl).
Qed.

(** C6. When [send] fails with an [OSError], [Console._send] calls [send]
    once more with the same line, and what that second call does is the
    outcome: a second failure is raised to the caller. The second call
    connects anew when the first dropped the socket. Each call of [send]
    is one attempt: at most one connection attempt, and the request written
    at most once. *)
Theorem interactive_send_retries_once :
  forall line st e1 st1,
    Connection.send line Connection.END_MARKER st = (Raise e1, st1) ->
    is_OSError e1 = true ->
    Console._send line st = Connection.send line Connection.END_MARKER st1
    /\ (forall e2 st2,
           Connection.send line Connection.END_MARKER st1 = (Raise e2, st2) ->
           Console._send line st = (Raise e2, st2))
    /\ (socket (self st1) = None ->
        Connection.send line Connection.END_MARKER st1
        = (Connection._connect ;; exchange line Connection.END_MARKER) st1)
    /\ (exists evs1,
           Socket.trace (env st1) = Socket.trace (env st) ++ evs1
           /\ one_attempt line evs1)
    /\ (forall r st2,
           Connection.send line Connection.END_MARKER st1 = (r, st2) ->
           exists evs2,
             Socket.trace (env st2) = Socket.trace (env st1) ++ evs2
             /\ one_attempt line evs2).
Proof.
  intros line st e1 st1 Hrun He.
  assert (Hretry : Console._send line st
                   = Connection.send line Connection.END_MARKER st1).
  { unfold Console._send, try_except_OSError. now rewrite Hrun, He. }
  split; [exact Hretry|]. split; [|split; [|split]].
  - intros e2 st2 H2. now rewrite Hretry.
  - destruct st1 as [[a [s1|]] w1]; [discriminate|]. intros _. reflexivity.
  - apply (RunFacts.send_inv _ _ _ _ _ Hrun).
  - intros r st2 H2. apply (RunFacts.send_inv _ _ _ _ _ H2).
Qed.

Lemma interactive_send_retries_once_witness :
  exists st1,
    Console._send (lit "version") Sample.dropped
    = Connection.send (lit "version") Connection.END_MARKER st1
    /\ socket (self st1) = None
    /\ fst (Console._send (lit "version") Sample.dropped)
       = Ret (lit "Liquidsoap 2.2.0").
Proof.
  exists (no_socket Sample.local
            (Socket.mkWorld [Sample.version_server] 4 [Socket.EvSend 3 []])).
  split; [|split; reflexivity].
  apply (interactive_send_retries_once
           (lit "version") Sample.dropped Connection.lost
           (no_socket Sample.local
              (Socket.mkWorld [Sample.version_server] 4
                 [Socket.EvSend 3 []]))); reflexivity.
Defined.

(** Every call of [send] ends within the budgets of its two loops. *)
Lemma send_fuel_suffices command marker st :
  fst (Connection.send command marker st) <> OutOfFuel.
Proof.
  destruct (Connection.send command marker st) as [r st'] eqn:Hrun.
  apply (RunFacts.send_inv _ _ _ _ _ Hrun).
Qed.

(** ** Leaving the [with] block *)

Module ExitFacts.
Import SocketFacts LoopFacts Connection.

(** [__exit__] on a connection that has a socket, by what the farewell
    exchange does. *)
Lemma exit_eq a s w :
  __exit__ (at_socket a s w)
  = match send QUIT_CMD QUIT_MARKER (at_socket a s w) with
    | (Ret _, st1) => on_socket "close" Socket.close st1
    | (Raise e, st1) =>
      if is_OSError e then on_socket "close" Socket.close st1
      else (Raise e, st1)
    | (Hang, st1) => (Hang, st1)
    | (OutOfFuel, st1) => (OutOfFuel, st1)
    end.
Proof.
  unfold __exit__. unfold bind at 1, get_socket. cbn [at_socket self socket].
  unfold bind at 1, try_except_OSError. unfold bind at 1.
  destruct (send QUIT_CMD QUIT_MARKER (at_socket a s w)) as [r st1].
  destruct r as [t|e| |].
  - reflexivity.
  - destruct (is_OSError e); reflexivity.
  - reflexivity.
  - reflexivity.
Qed.


(** The farewell on a closed socket fails at the first write, with an
    [OSError], before anything is sent. *)
Lemma quit_on_closed a s w :
  Socket.closed s = true ->
  send QUIT_CMD QUIT_MARKER (at_socket a s w)
  = (Raise Socket.EBADF, at_socket a s w).
Proof.
  intros Hc. rewrite RunFacts.send_connected. unfold exchange, bind at 1.
  rewrite (ExchangeFacts.write_request_eq QUIT_CMD (ascii_bytes "quit"))
    by reflexivity.
  rewrite RunFacts.write_loop_unfold by (cbn; lia).
  unfold Socket.send. rewrite Hc. reflexivity.
Qed.

(** A normal return of [__exit__] leaves the connection shut: the state
    in which a second [__exit__] finds it. *)
Lemma exit_shuts st st' : __exit__ st = (Ret tt, st') -> shut st' = true.
Proof.
  destruct st as [[a [s|]] w].
  - change (St (Conn a (Some s)) w) with (at_socket a s w).
    rewrite exit_eq.
    destruct (send QUIT_CMD QUIT_MARKER (at_socket a s w)) as [r st1].
    assert (Hclose : on_socket "close" Socket.close st1 = (Ret tt, st') ->
                     shut st' = true).
    { destruct st1 as [[a1 [s1|]] w1]; unfold on_socket; cbn [self socket];
        [|discriminate].
      unfold Socket.close. destruct (Socket.closed s1) eqn:Hc;
        intros [= <-]; unfold shut; cbn; trivial. }
    destruct r as [t|e| |]; try discriminate; trivial.
    destruct (is_OSError e); [exact Hclose | discriminate].
  - intros [= <-]. reflexivity.
Qed.

(** The farewell answered: the socket is closed and stays in
    [self.socket]. *)
Lemma exit_after_quit a s w t s1 w1 :
  send QUIT_CMD QUIT_MARKER (at_socket a s w) = (Ret t, at_socket a s1 w1) ->
  Socket.closed s1 = false ->
  exists s2,
    __exit__ (at_socket a s w)
    = (Ret tt, at_socket a s2 (Socket.log (Socket.EvClose (Socket.fd s1)) w1))
    /\ Socket.closed s2 = true /\ Socket.fd s2 = Socket.fd s1.
Proof.
  intros Hrun Hc. rewrite exit_eq, Hrun, on_socket_at.
  unfold Socket.close. rewrite Hc. eexists. repeat split.
Qed.

End ExitFacts.

(** The farewell answered with [Bye!]: [__exit__] returns, the socket is
    closed. *)
Example exit_after_bye :
  fst (Connection.__exit__ Sample.quitting) = Ret tt
  /\ shut (snd (Connection.__exit__ Sample.quitting)) = true
  /\ Socket.trace (env (snd (Connection.__exit__ Sample.quitting)))
     = [Socket.EvSend 3 (ascii_bytes "quit" ++ [x0a]);
        Socket.EvRecv 3 Connection.QUIT_MARKER;
        Socket.EvClose 3].
Proof. repeat split. Qed.

(** C3, where the code departs from it. Whenever the farewell exchange is
    lost, be it that a write of [quit] takes no byte or that the read of
    the answer finds the peer gone, [send] drops the socket and raises,
    [__exit__] swallows that error and then calls [close] on [None]:
    [AttributeError] is raised out of [__exit__]. *)
Theorem exit_raises_when_quit_is_lost :
  forall a s w,
    Socket.usable s = true ->
    gives_out (request_of Connection.QUIT_CMD) Connection.QUIT_MARKER s ->
    exists st',
      Connection.__exit__ (at_socket a s w)
      = (Raise (NoneType_has_no "close"), st')
      /\ socket (self st') = None.
Proof.
  intros a s w Hu Hout.
  destruct (ExchangeFacts.exchange_gives_out
              Connection.QUIT_CMD Connection.QUIT_MARKER
              (ascii_bytes "quit") a s w eq_refl Hu Hout) as (evs & Hx).
  eexists. rewrite ExitFacts.exit_eq, RunFacts.send_connected, Hx.
  cbn [is_OSError Connection.lost exn_cls]. split; reflexivity.
Qed.

Lemma exit_raises_when_quit_is_lost_witness :
  exists st',
    Connection.__exit__ Sample.hung_up
    = (Raise (NoneType_has_no "close"), st')
    /\ socket (self st') = None.
Proof.
  apply (exit_raises_when_quit_is_lost
           Sample.local Sample.closing_socket Sample.somewhere);
    try reflexivity.
  apply (zero_read _ _ _ [100] [] [] []); try reflexivity.
  vm_compute. lia.
Defined.

(** The peer takes [quit] and closes: what [__exit__] leaves. *)
Example exit_raises_when_peer_hung_up :
  Connection.__exit__ Sample.hung_up
  = (Raise (NoneType_has_no "close"),
     no_socket Sample.local
       (Socket.mkWorld [] 4
          [Socket.EvSend 3 (ascii_bytes "quit" ++ [x0a]);
           Socket.EvRecv 3 []])).
Proof. reflexivity. Qed.

(** C8. [__exit__] on a connection that is shut, be it that an earlier
    [__exit__] closed its socket or that it has none, returns without an
    error and changes nothing: no byte is sent, no event reaches the
    transport, the connection and the world are as before. *)
Theorem close_is_idempotent :
  forall st, shut st = true -> Connection.__exit__ st = (Ret tt, st).
Proof.
  intros [[a [s|]] w] Hshut.
  - unfold shut in Hshut. cbn [self socket] in Hshut.
    change (St (Conn a (Some s)) w) with (at_socket a s w).
    rewrite ExitFacts.exit_eq, (ExitFacts.quit_on_closed a s w Hshut).
    cbn [is_OSError Socket.EBADF exn_cls]. rewrite LoopFacts.on_socket_at.
    unfold Socket.close. rewrite Hshut. reflexivity.
  - reflexivity.
Qed.

Lemma close_is_idempotent_witness :
  shut (snd (Connection.__exit__ Sample.quitting)) = true
  /\ Connection.__exit__ (snd (Connection.__exit__ Sample.quitting))
     = (Ret tt, snd (Connection.__exit__ Sample.quitting)).
Proof.
  split; [reflexivity|].
  apply (close_is_idempotent (snd (Connection.__exit__ Sample.quitting))).
  reflexivity.
Defined.

(** ** The codec at both ends of [send] *)

Module CodecFacts.

Lemma to_N_byte_of (n : N) : (n < 256)%N -> Byte.to_N (Py.byte_of n) = n.
Proof.
  intros Hn. unfold Py.byte_of. rewrite N.mod_small by exact Hn.
  destruct (Byte.of_N n) as [b|] eqn:E.
  - now apply Byte.to_of_N.
  - apply Byte.of_N_None_iff in E. lia.
Qed.

Lemma split64 (c : N) :
  (c = 64 * (c / 64) + c mod 64 /\ c mod 64 < 64)%N.
Proof.
  split; [apply N.div_mod; discriminate | apply N.mod_lt; discriminate].
Qed.

Lemma div4096 (c : N) : (c / 4096 = c / 64 / 64)%N.
Proof. now rewrite N.Div0.div_div. Qed.

Lemma div262144 (c : N) : (c / 262144 = c / 64 / 64 / 64)%N.
Proof. now rewrite !N.Div0.div_div. Qed.

Ltac nbool :=
  repeat match goal with
         | |- context [(?x <? ?y)%N] => destruct (N.ltb_spec x y); try lia
         | |- context [(?x <=? ?y)%N] => destruct (N.leb_spec x y); try lia
         | |- context [(?x =? ?y)%N] => destruct (N.eqb_spec x y); try lia
         end.

Lemma Some_inj {A} (x y : A) : Some x = Some y -> x = y.
Proof. now intros [= ->]. Qed.

(** One code point, encoded and decoded again. *)
Lemma decode_encode1 (c : N) (bs r : bytes) :
  Py.encode1 c = Some bs ->
  Py.decode (bs ++ r) = option_map (cons c) (Py.decode r).
Proof.
  unfold Py.encode1.
  destruct (split64 c) as [Hc Hr].
  destruct (split64 (c / 64)) as [Hd Hdr].
  destruct (split64 (c / 64 / 64)) as [He Her].
  rewrite div4096, div262144.
  set (q1 := (c / 64)%N) in *. set (r0 := (c mod 64)%N) in *.
  set (q2 := (q1 / 64)%N) in *. set (r1 := (q1 mod 64)%N) in *.
  set (q3 := (q2 / 64)%N) in *. set (r2 := (q2 mod 64)%N) in *.
  destruct (N.ltb_spec c 128).
  { intros Hbs. apply Some_inj in Hbs. subst bs. cbn [app Py.decode].
    rewrite to_N_byte_of by lia.
    destruct (N.ltb_spec c 128); [reflexivity | lia]. }
  destruct (N.ltb_spec c 2048).
  { intros Hbs. apply Some_inj in Hbs. subst bs. cbn [app Py.decode].
    unfold Py.in_range, Py.cont, Py.in_range, Py.cbits.
    rewrite !to_N_byte_of by lia. nbool. cbn [andb].
    f_equal. f_equal. lia. }
  destruct (N.ltb_spec c 65536).
  { destruct (N.leb_spec 55296 c); destruct (N.leb_spec c 57343);
      cbn [andb]; try discriminate;
      intros Hbs; apply Some_inj in Hbs; subst bs; cbn [app Py.decode];
      unfold Py.second3, Py.in_range, Py.cont, Py.in_range, Py.cbits;
      rewrite !to_N_byte_of by lia; nbool; cbn [andb];
      f_equal; f_equal; lia. }
  destruct (N.ltb_spec c 1114112); [|discriminate].
  intros Hbs. apply Some_inj in Hbs. subst bs. cbn [app Py.decode].
  unfold Py.second4, Py.in_range, Py.cont, Py.in_range, Py.cbits.
  rewrite !to_N_byte_of by lia. nbool; cbn [andb];
    f_equal; f_equal; lia.
Qed.

(** Text that can be encoded decodes to itself, whatever follows it
    decoding after it. *)
Lemma decode_encode_app (s : str) (data r : bytes) :
  Py.encode s = Some data ->
  Py.decode (data ++ r) = option_map (app s) (Py.decode r).
Proof.
  revert data. induction s as [|c s IH]; intros data.
  - intros [= <-]. cbn. now destruct (Py.decode r).
  - cbn [Py.encode]. destruct (Py.encode1 c) as [bs|] eqn:E1; [|discriminate].
    destruct (Py.encode s) as [rest|]; [|discriminate].
    intros [= <-]. rewrite <- app_assoc, (decode_encode1 c bs _ E1).
    rewrite (IH rest eq_refl). now destruct (Py.decode r).
Qed.

Lemma decode_encode (s : str) (data : bytes) :
  Py.encode s = Some data -> Py.decode data = Some s.
Proof.
  intros H. rewrite <- (app_nil_r data), (decode_encode_app s data [] H).
  cbn. now rewrite app_nil_r.
Qed.

(** *** ASCII bytes after bytes that do not decode *)

Lemma ascii_not_cont (b : byte) : ascii_byte b = true -> Py.cont b = false.
Proof.
  unfold ascii_byte, Py.cont, Py.in_range. intros H.
  apply N.ltb_lt in H. nbool; reflexivity.
Qed.

Lemma ascii_not_second3 (b0 b : byte) :
  ascii_byte b = true -> Py.second3 b0 b = false.
Proof.
  unfold ascii_byte, Py.second3, Py.cont, Py.in_range. intros H.
  apply N.ltb_lt in H. nbool; reflexivity.
Qed.

Lemma ascii_not_second4 (b0 b : byte) :
  ascii_byte b = true -> Py.second4 b0 b = false.
Proof.
  unfold ascii_byte, Py.second4, Py.cont, Py.in_range. intros H.
  apply N.ltb_lt in H. nbool; reflexivity.
Qed.

(** ASCII bytes do not complete a sequence: when bytes followed by ASCII
    bytes decode, the bytes before decode on their own. *)
Lemma decode_app_ascii (n : nat) :
  forall (a m : bytes),
    length a <= n ->
    forallb ascii_byte m = true ->
    Py.decode (a ++ m) <> None -> Py.decode a <> None.
Proof.
  induction n as [|n IH]; intros a m Hn Hm.
  { destruct a; [discriminate | cbn in Hn; lia]. }
  assert (Htail : forall r, length r <= n ->
                            option_map (cons 0%N) (Py.decode (r ++ m)) <> None ->
                            Py.decode r <> None).
  { intros r Hr H. apply (IH r m Hr Hm). now destruct (Py.decode (r ++ m)). }
  assert (Hmap : forall (x y : N) (o : option str),
             option_map (cons x) o <> None -> option_map (cons y) o <> None).
  { intros x y [t|]; [discriminate | trivial]. }
  assert (Hm1 : forall b r, m = b :: r -> ascii_byte b = true).
  { intros b r ->. cbn in Hm. now apply andb_true_iff in Hm. }
  assert (Hm2 : forall b b' r, m = b :: b' :: r -> ascii_byte b' = true).
  { intros b b' r ->. cbn in Hm. apply andb_true_iff in Hm.
    destruct Hm as [_ Hm]. now apply andb_true_iff in Hm. }
  destruct a as [|b0 r0]; [discriminate|].
  cbn [length] in Hn. cbn [app Py.decode].
  destruct (Byte.to_N b0 <? 128)%N.
  { intros H. apply (Hmap _ 0%N) in H. apply Htail in H; [|lia].
    now destruct (Py.decode r0). }
  destruct r0 as [|b1 r1]; cbn [app length] in *.
  { (* the sequence would go on into [m] *)
    destruct m as [|c1 m1]; [trivial|].
    rewrite (ascii_not_cont c1 (Hm1 _ _ eq_refl)),
            (ascii_not_second3 b0 c1 (Hm1 _ _ eq_refl)),
            (ascii_not_second4 b0 c1 (Hm1 _ _ eq_refl)).
    destruct (Py.in_range 194 223 b0); [trivial|].
    destruct m1 as [|c2 m2]; [trivial|].
    destruct (Py.in_range 224 239 b0); cbn [andb]; [trivial|].
    destruct m2 as [|c3 m3]; [trivial|].
    rewrite andb_false_r. trivial. }
  destruct (Py.in_range 194 223 b0).
  { destruct (Py.cont b1); [|trivial].
    intros H. apply (Hmap _ 0%N) in H. apply Htail in H; [|lia].
    now destruct (Py.decode r1). }
  destruct r1 as [|b2 r2]; cbn [app length] in *.
  { destruct m as [|c2 m2]; [trivial|].
    rewrite (ascii_not_cont c2 (Hm1 _ _ eq_refl)).
    destruct (Py.in_range 224 239 b0).
    { rewrite andb_false_r. trivial. }
    destruct m2 as [|c3 m3]; [trivial|].
    rewrite andb_false_r. cbn [andb]. trivial. }
  destruct (Py.in_range 224 239 b0).
  { destruct (Py.second3 b0 b1 && Py.cont b2); [|trivial].
    intros H. apply (Hmap _ 0%N) in H. apply Htail in H; [|lia].
    now destruct (Py.decode r2). }
  destruct r2 as [|b3 r3]; cbn [app length] in *.
  { destruct m as [|c3 m3]; [trivial|].
    rewrite (ascii_not_cont c3 (Hm1 _ _ eq_refl)), andb_false_r. trivial. }
  destruct (Py.in_range 240 244 b0 && Py.second4 b0 b1
            && Py.cont b2 && Py.cont b3); [|trivial].
  intros H. apply (Hmap _ 0%N) in H. apply Htail in H; [|lia].
  now destruct (Py.decode r3).
Qed.

(** Bytes that do not decode do not decode with a marker after them. *)
Lemma decode_none_app (body marker : bytes) :
  forallb ascii_byte marker = true ->
  Py.decode body = None -> Py.decode (body ++ marker) = None.
Proof.
  intros Hm Hb. destruct (Py.decode (body ++ marker)) eqn:E; [|reflexivity].
  exfalso. apply (decode_app_ascii (length body) body marker (le_n _) Hm);
    [now rewrite E | exact Hb].
Qed.

(** *** [strip] *)

Lemma lstrip_ws (pre s : str) :
  forallb Py.isspace pre = true -> Py.lstrip (pre ++ s) = Py.lstrip s.
Proof.
  induction pre as [|c pre IH]; [reflexivity|].
  cbn [forallb app Py.lstrip]. rewrite andb_true_iff. intros [-> H].
  now apply IH.
Qed.

Lemma lstrip_ws_nil (ws : str) :
  forallb Py.isspace ws = true -> Py.lstrip ws = [].
Proof.
  intros H. rewrite <- (app_nil_r ws), (lstrip_ws ws [] H). reflexivity.
Qed.

Lemma lstrip_app (s post : str) :
  Py.lstrip s <> [] -> Py.lstrip (s ++ post) = Py.lstrip s ++ post.
Proof.
  induction s as [|c s IH]; [cbn; congruence|].
  cbn [app Py.lstrip]. destruct (Py.isspace c); [exact IH | reflexivity].
Qed.

Lemma lstrip_all_ws (s : str) :
  Py.lstrip s = [] -> forallb Py.isspace s = true.
Proof.
  induction s as [|c s IH]; [reflexivity|].
  cbn [Py.lstrip forallb]. destruct (Py.isspace c); [exact IH | discriminate].
Qed.

Lemma forallb_rev {A} (f : A -> bool) (l : list A) :
  forallb f (rev l) = forallb f l.
Proof.
  induction l as [|x l IH]; [reflexivity|].
  cbn [rev forallb]. rewrite forallb_app, IH. cbn. rewrite andb_true_r.
  apply andb_comm.
Qed.

(** White space around a text does not change what [strip] leaves. *)
Lemma strip_around (pre s post : str) :
  forallb Py.isspace pre = true ->
  forallb Py.isspace post = true ->
  Py.strip (pre ++ s ++ post) = Py.strip s.
Proof.
  intros Hpre Hpost. unfold Py.strip. rewrite (lstrip_ws pre _ Hpre).
  destruct (Py.lstrip s) as [|c t] eqn:E.
  - pose proof (lstrip_all_ws s E) as Hs.
    rewrite (lstrip_ws_nil (s ++ post)); [reflexivity|].
    now rewrite forallb_app, Hs, Hpost.
  - rewrite lstrip_app by congruence. rewrite E, rev_app_distr.
    rewrite lstrip_ws; [reflexivity|]. now rewrite forallb_rev.
Qed.

End CodecFacts.

(** ** More about one exchange *)

Module ReplyFacts.
Import SocketFacts LoopFacts Connection.

(** The read phase on a reply that arrives whole, whatever its bytes. *)
Lemma read_reply_whole marker body chunks a s w rxs :
  Socket.usable s = true ->
  Socket.rx s = map Socket.RxData chunks ++ rxs ->
  all_nonempty chunks = true ->
  Socket.rxbuf s ++ concat chunks = body ++ marker ->
  quiet marker [] (body ++ marker) = true ->
  exists ps,
    read_reply marker (at_socket a s w)
    = (match Py.decode (body ++ marker) with
       | Some text => Ret (Py.slice_to_neg text (length marker))
       | None => Raise (Exn UnicodeDecodeError "invalid utf-8")
       end,
       at_socket a (Socket.with_rx s rxs [])
         (Socket.logs (map (Socket.EvRecv (Socket.fd s)) ps) w))
    /\ concat ps = body ++ marker.
Proof.
  intros Hu Hrx Hne Hcat Hq.
  destruct (read_loop_run (weight (Socket.rxbuf s) chunks)
              (Socket.rxbuf s) chunks [] a s w rxs marker)
    as (n & ps & Hn & Hps & Hrun); trivial.
  - now apply ExchangeFacts.all_nonempty_Forall.
  - now rewrite Hcat.
  - exists ps. split; [|now rewrite Hps].
    pose proof (ExchangeFacts.pending_weight s chunks rxs Hrx) as Hpend.
    unfold read_reply, bind at 1, read_fuel. cbn [at_socket self socket].
    replace (S (Socket.pending s))
      with (n + (S (Socket.pending s) - n)) by lia.
    unfold bind at 1. rewrite Hrun. cbn [app]. rewrite Hcat.
    rewrite read_loop_done by apply endswith_self_app.
    destruct (Py.decode (body ++ marker)); reflexivity.
Qed.

(** The write phase when the writes take the request exactly. *)
Lemma write_request_exact command data a s w ns txs :
  Py.encode (Py.strip command) = Some data ->
  Socket.usable s = true ->
  Socket.tx s = map Socket.TxAccept ns ++ txs ->
  all_positive ns = true ->
  list_sum ns = length data + 1 ->
  write_request command (at_socket a s w)
  = (Ret tt,
     at_socket a (Socket.with_tx s txs)
       (Socket.logs (map (Socket.EvSend (Socket.fd s))
                       (pieces (data ++ [x0a]) ns)) w)).
Proof.
  intros Henc Hu Htx Hns Hsum.
  pose proof (ExchangeFacts.length_le_sum ns Hns) as Hlen.
  assert (Hreq : length (data ++ [x0a]) = list_sum ns)
    by (rewrite length_app; cbn; lia).
  rewrite (ExchangeFacts.write_request_eq _ _ _ Henc).
  replace (S (length (data ++ [x0a])))
    with (length ns + (S (length (data ++ [x0a])) - length ns)) by lia.
  rewrite (write_loop_run ns _ (data ++ [x0a]) 0 a s w txs); trivial.
  - apply write_loop_done. lia.
  - now apply ExchangeFacts.all_positive_Forall.
  - lia.
Qed.

Lemma concat_pieces (data : bytes) (ns : list nat) :
  length data <= list_sum ns -> concat (pieces data ns) = data.
Proof.
  revert data. induction ns as [|n ns IH]; intros data Hlen.
  - cbn in Hlen. destruct data; [reflexivity | cbn in Hlen; lia].
  - change (list_sum (n :: ns)) with (n + list_sum ns) in Hlen.
    cbn [pieces concat]. rewrite IH, firstn_skipn; [reflexivity|].
    rewrite length_skipn. lia.
Qed.

End ReplyFacts.

(** White space around a command is not sent: [send] with blanks, tabs or
    line ends before and after the command is [send] with the command
    alone, and the request is the same. *)
Theorem send_ignores_surrounding_whitespace :
  forall pre command post marker st,
    forallb Py.isspace pre = true ->
    forallb Py.isspace post = true ->
    Connection.send (pre ++ command ++ post) marker st
    = Connection.send command marker st
    /\ request_of (pre ++ command ++ post) = request_of command.
Proof.
  intros pre command post marker st Hpre Hpost.
  assert (Hw : Connection.write_request (pre ++ command ++ post)
               = Connection.write_request command).
  { unfold Connection.write_request.
    now rewrite (CodecFacts.strip_around pre command post Hpre Hpost). }
  split.
  - unfold Connection.send. now rewrite Hw.
  - unfold request_of.
    now rewrite (CodecFacts.strip_around pre command post Hpre Hpost).
Qed.

Lemma send_ignores_surrounding_whitespace_witness :
  Connection.send (lit "  " ++ lit "version" ++ [10]%N)
                  Connection.END_MARKER Sample.fresh
  = Connection.send (lit "version") Connection.END_MARKER Sample.fresh
  /\ request_of (lit "  " ++ lit "version" ++ [10]%N)
     = request_of (lit "version").
Proof.
  apply (send_ignores_surrounding_whitespace
           (lit "  ") (lit "version") [10]%N Connection.END_MARKER
           Sample.fresh); reflexivity.
Defined.

(** What reaches the server is the command line: when the link takes the
    writes, the bytes sent, put together, decode to the command without
    the white space around it, followed by one line feed. *)
Theorem request_decodes_to_stripped_line :
  forall command data a s w ns txs,
    Py.encode (Py.strip command) = Some data ->
    Socket.usable s = true ->
    Socket.tx s = map Socket.TxAccept ns ++ txs ->
    all_positive ns = true ->
    length data + 1 <= list_sum ns ->
    exists sent st1,
      Connection.write_request command (at_socket a s w) = (Ret tt, st1)
      /\ Socket.trace (env st1)
         = Socket.trace w ++ map (Socket.EvSend (Socket.fd s)) sent
      /\ Py.decode (concat sent) = Some (Py.strip command ++ [10]%N).
Proof.
  intros command data a s w ns txs Henc Hu Htx Hns Hsum.
  destruct (ExchangeFacts.write_request_completes command data a s w ns txs)
    as (sent & txs' & Hw & Hsent & _); trivial.
  exists sent. eexists. split; [exact Hw|]. split; [reflexivity|].
  rewrite Hsent, (CodecFacts.decode_encode_app _ _ [x0a] Henc).
  reflexivity.
Qed.

Lemma request_decodes_to_stripped_line_witness :
  exists sent st1,
    Connection.write_request (lit " version ")
      (at_socket Sample.local Sample.version_socket Sample.version_world)
    = (Ret tt, st1)
    /\ Socket.trace (env st1)
       = Socket.trace Sample.version_world ++ map (Socket.EvSend 3) sent
    /\ Py.decode (concat sent) = Some (Py.strip (lit " version ") ++ [10]%N).
Proof.
  apply (request_decodes_to_stripped_line
           (lit " version ") (ascii_bytes "version") Sample.local
           Sample.version_socket Sample.version_world [3; 100] []);
    try reflexivity.
  vm_compute. lia.
Defined.

(** Text comes back as it was encoded: when the server sends the UTF-8
    form of a text and then the marker, and the marker ends the wire reply
    and no part of it before, [send] returns that text, however the reply
    is cut into segments. *)
Theorem send_returns_encoded_text :
  forall command marker text body chunks st a s w data ns txs rxs,
    Connection.__enter__ st = (Ret tt, at_socket a s w) ->
    Socket.usable s = true ->
    Py.encode (Py.strip command) = Some data ->
    Socket.tx s = map Socket.TxAccept ns ++ txs ->
    all_positive ns = true ->
    length data + 1 <= list_sum ns ->
    Socket.rxbuf s = [] ->
    Socket.rx s = map Socket.RxData chunks ++ rxs ->
    all_nonempty chunks = true ->
    Py.encode text = Some body ->
    concat chunks = body ++ marker ->
    quiet marker [] (body ++ marker) = true ->
    forallb ascii_byte marker = true ->
    fst (Connection.send command marker st) = Ret text.
Proof.
  intros command marker text body chunks st a s w data ns txs rxs
         Henter Hu Henc Htx Hns Hsum Hbuf Hrx Hne Htext Hcat Hq Hascii.
  destruct (ExchangeFacts.write_request_completes command data a s w ns txs)
    as (sent & txs' & Hw & _ & _); trivial.
  destruct (ExchangeFacts.read_reply_returns marker body text chunks a
              (Socket.with_tx s txs')
              (Socket.logs (map (Socket.EvSend (Socket.fd s)) sent) w) rxs)
    as (got & Hr & _); trivial.
  { cbn. rewrite Hbuf. exact Hcat. }
  { exact (CodecFacts.decode_encode _ _ Htext). }
  rewrite (ExchangeFacts.send_from _ _ _ _ Henter).
  unfold bind at 1. rewrite Hw, Hr. reflexivity.
Qed.

Lemma send_returns_encoded_text_witness :
  fst (Connection.send (lit "version") Connection.END_MARKER Sample.fresh)
  = Ret (lit "Liquidsoap 2.2.0").
Proof.
  apply (send_returns_encoded_text
           (lit "version") Connection.END_MARKER (lit "Liquidsoap 2.2.0")
           (ascii_bytes "Liquidsoap 2.2.0")
           [ascii_bytes "Liquidsoap 2.2.0" ++ [x0d; x0a; x45];
            [x4e; x44; x0d; x0a]]
           Sample.fresh Sample.local
           Sample.version_socket Sample.version_world
           (ascii_bytes "version") [3; 100] [] []);
    try reflexivity.
  vm_compute. lia.
Defined.

(** A reply that is not UTF-8: [send] reads it to the marker and then
    raises [UnicodeDecodeError]; the socket stays in place with the reply
    taken off it, so that the next exchange starts clean. *)
Theorem send_raises_on_malformed_reply :
  forall command marker body chunks st a s w data ns txs rxs,
    Connection.__enter__ st = (Ret tt, at_socket a s w) ->
    Socket.usable s = true ->
    Py.encode (Py.strip command) = Some data ->
    Socket.tx s = map Socket.TxAccept ns ++ txs ->
    all_positive ns = true ->
    length data + 1 <= list_sum ns ->
    Socket.rxbuf s = [] ->
    Socket.rx s = map Socket.RxData chunks ++ rxs ->
    all_nonempty chunks = true ->
    concat chunks = body ++ marker ->
    quiet marker [] (body ++ marker) = true ->
    forallb ascii_byte marker = true ->
    Py.decode body = None ->
    exists st' s',
      Connection.send command marker st
      = (Raise (Exn UnicodeDecodeError "invalid utf-8"), st')
      /\ socket (self st') = Some s'
      /\ Socket.fd s' = Socket.fd s
      /\ Socket.rx s' = rxs
      /\ Socket.rxbuf s' = [].
Proof.
  intros command marker body chunks st a s w data ns txs rxs
         Henter Hu Henc Htx Hns Hsum Hbuf Hrx Hne Hcat Hq Hascii Hdec.
  destruct (ExchangeFacts.write_request_completes command data a s w ns txs)
    as (sent & txs' & Hw & _ & _); trivial.
  destruct (ReplyFacts.read_reply_whole marker body chunks a
              (Socket.with_tx s txs')
              (Socket.logs (map (Socket.EvSend (Socket.fd s)) sent) w) rxs)
    as (got & Hr & _); trivial.
  { cbn. rewrite Hbuf. exact Hcat. }
  rewrite (CodecFacts.decode_none_app body marker Hascii Hdec) in Hr.
  eexists. exists (Socket.with_rx (Socket.with_tx s txs') rxs []). split.
  - rewrite (ExchangeFacts.send_from _ _ _ _ Henter).
    unfold bind at 1. rewrite Hw. exact Hr.
  - repeat split.
Qed.

Lemma send_raises_on_malformed_reply_witness :
  exists st' s',
    Connection.send (lit "help") Connection.END_MARKER Scene.garbled
    = (Raise (Exn UnicodeDecodeError "invalid utf-8"), st')
    /\ socket (self st') = Some s'
    /\ Socket.fd s' = 3
    /\ Socket.rx s' = []
    /\ Socket.rxbuf s' = [].
Proof.
  apply (send_raises_on_malformed_reply
           (lit "help") Connection.END_MARKER [xff]
           [[xff] ++ Connection.END_MARKER]
           Scene.garbled Sample.local
           Scene.garbled_socket Sample.version_world
           (ascii_bytes "help") [100] [] []);
    try reflexivity.
  vm_compute. lia.
Defined.

(** ** Dialogues: one exchange after the other *)

Module TurnFacts.
Import SocketFacts LoopFacts Connection.

Lemma sent_bytes_sends fd ps :
  sent_bytes (map (Socket.EvSend fd) ps) = concat ps.
Proof.
  induction ps as [|p ps IH]; [reflexivity|].
  cbn [map sent_bytes flat_map concat]. fold (sent_bytes (map (Socket.EvSend fd) ps)).
  now rewrite IH.
Qed.

Lemma sent_bytes_recvs fd ps :
  sent_bytes (map (Socket.EvRecv fd) ps) = [].
Proof. induction ps as [|p ps IH]; [reflexivity | exact IH]. Qed.

Lemma is_io_sends fd ps :
  forallb (is_io fd) (map (Socket.EvSend fd) ps) = true.
Proof.
  induction ps as [|p ps IH]; [reflexivity|].
  cbn [map forallb]. rewrite IH. unfold is_io at 1. cbn [is_tx].
  now rewrite Nat.eqb_refl.
Qed.

Lemma is_io_recvs fd ps :
  forallb (is_io fd) (map (Socket.EvRecv fd) ps) = true.
Proof.
  induction ps as [|p ps IH]; [reflexivity|].
  cbn [map forallb]. rewrite IH. unfold is_io at 1. cbn [is_tx is_rx].
  now rewrite Nat.eqb_refl.
Qed.

Lemma is_io_closes fd evs :
  forallb (is_io fd) evs = true -> closes evs = 0.
Proof.
  induction evs as [|ev evs IH]; [reflexivity|].
  cbn [forallb]. rewrite andb_true_iff. intros [Hev Hevs].
  unfold closes in *. cbn [filter].
  destruct ev; try (apply IH; exact Hevs); discriminate.
Qed.

Lemma request_of_encoded command data :
  Py.encode (Py.strip command) = Some data ->
  request_of command = data ++ [x0a].
Proof. unfold request_of. now intros ->. Qed.

(** A turn that goes well, on a socket whose link goes through it. *)
Lemma exchange_served marker t a s w txs rxs :
  Socket.usable s = true ->
  Socket.rxbuf s = [] ->
  Socket.tx s = map Socket.TxAccept (t_writes t) ++ txs ->
  Socket.rx s = map Socket.RxData (t_chunks t) ++ rxs ->
  forallb ascii_byte marker = true ->
  served marker t ->
  exists evs,
    exchange (t_cmd t) marker (at_socket a s w)
    = (Ret (t_text t),
       at_socket a (Socket.with_rx (Socket.with_tx s txs) rxs [])
         (Socket.logs evs w))
    /\ forallb (is_io (Socket.fd s)) evs = true
    /\ sent_bytes evs = request_of (t_cmd t).
Proof.
  intros Hu Hbuf Htx Hrx Hascii
         (data & body & Henc & Hpos & Hsum & Hne & Hcat & Hq & Hdec).
  pose proof (ReplyFacts.write_request_exact (t_cmd t) data a s w
                (t_writes t) txs Henc Hu Htx Hpos Hsum) as Hw.
  destruct (ExchangeFacts.read_reply_returns marker body (t_text t)
              (t_chunks t) a (Socket.with_tx s txs)
              (Socket.logs (map (Socket.EvSend (Socket.fd s))
                              (pieces (data ++ [x0a]) (t_writes t))) w) rxs)
    as (got & Hr & Hgot); trivial.
  { cbn. rewrite Hbuf. exact Hcat. }
  exists (map (Socket.EvSend (Socket.fd s))
              (pieces (data ++ [x0a]) (t_writes t))
          ++ map (Socket.EvRecv (Socket.fd s)) got).
  split; [|split].
  - unfold exchange, bind at 1. rewrite Hw, Hr, logs_logs. reflexivity.
  - now rewrite forallb_app, is_io_sends, is_io_recvs.
  - rewrite RunFacts.sent_bytes_app, sent_bytes_sends, sent_bytes_recvs,
      app_nil_r, (request_of_encoded _ _ Henc).
    apply ReplyFacts.concat_pieces. rewrite length_app. cbn. lia.
Qed.


(** The lines of a file whose turns all go well: every reply is printed,
    in order, and the socket is left at the end of the dialogue. *)
Lemma send_lines_served d :
  forall out a s w txs rxs,
    Socket.usable s = true ->
    Socket.rxbuf s = [] ->
    Socket.tx s = tx_script d ++ txs ->
    Socket.rx s = rx_script d ++ rxs ->
    Forall (served END_MARKER) d ->
    exists evs,
      Main.send_lines (map t_cmd d) out (at_socket a s w)
      = (Ret tt, out ++ map t_text d,
         at_socket a (Socket.with_rx (Socket.with_tx s txs) rxs [])
           (Socket.logs evs w))
      /\ forallb (is_io (Socket.fd s)) evs = true
      /\ sent_bytes evs = requests d.
Proof.
  induction d as [|t d IH]; intros out a s w txs rxs Hu Hbuf Htx Hrx Hd.
  - exists []. cbn in Htx, Hrx. cbn [map Main.send_lines].
    rewrite app_nil_r, logs_nil. repeat split.
    destruct s; cbn in *; subst; reflexivity.
  - inversion Hd as [|? ? Ht Hd']; subst.
    change (tx_script (t :: d))
      with (map Socket.TxAccept (t_writes t) ++ tx_script d) in Htx.
    change (rx_script (t :: d))
      with (map Socket.RxData (t_chunks t) ++ rx_script d) in Hrx.
    rewrite <- app_assoc in Htx, Hrx.
    destruct (exchange_served END_MARKER t a s w _ _ Hu Hbuf Htx Hrx
                eq_refl Ht) as (evs1 & Hx & Hio1 & Hsent1).
    destruct (IH (out ++ [t_text t]) a
                 (Socket.with_rx (Socket.with_tx s (tx_script d ++ txs))
                                 (rx_script d ++ rxs) [])
                 (Socket.logs evs1 w) txs rxs)
      as (evs2 & Hrun & Hio2 & Hsent2); trivial.
    exists (evs1 ++ evs2). split; [|split].
    + cbn [map Main.send_lines]. rewrite RunFacts.send_connected.
      rewrite Hx, Hrun, logs_logs, <- app_assoc. reflexivity.
    + cbn [Socket.fd Socket.with_rx Socket.with_tx] in Hio2.
      now rewrite forallb_app, Hio1, Hio2.
    + rewrite RunFacts.sent_bytes_app, Hsent1, Hsent2. reflexivity.
Qed.

End TurnFacts.

(** ** The [with] block of the batch run *)

Module BatchFacts.
Import SocketFacts LoopFacts Connection.

Lemma tx_script_app d1 d2 : tx_script (d1 ++ d2) = tx_script d1 ++ tx_script d2.
Proof. unfold tx_script. apply flat_map_app. Qed.

Lemma rx_script_app d1 d2 : rx_script (d1 ++ d2) = rx_script d1 ++ rx_script d2.
Proof. unfold rx_script. apply flat_map_app. Qed.

(** Entering a new connection when the server takes it. *)
Lemma enter_fresh addr tgt w txs rxs n :
  target addr = Some tgt ->
  Socket.net w = Socket.Establish txs rxs :: n ->
  __enter__ (St (__init__ addr) w)
  = (Ret tt,
     at_socket addr
       (Socket.mk (Socket.next_fd w) (family_for addr) true false
                  (Some 100%N) txs rxs [])
       (Socket.mkWorld n (S (Socket.next_fd w))
          (Socket.trace w
           ++ [Socket.EvSocket (Socket.next_fd w) (family_for addr);
               Socket.EvConnect (Socket.next_fd w) tgt None]))).
Proof.
  intros Ht Hnet. unfold __enter__, __init__, bind, get_socket.
  cbn [self socket]. rewrite RunFacts.connect_eq, Ht, Hnet.
  unfold made_world. cbn [Socket.trace]. rewrite <- app_assoc. reflexivity.
Qed.

(** The farewell answered: [__exit__] says [quit], reads [Bye!] and
    closes. *)
Lemma exit_served bye a s w txs rxs :
  Socket.usable s = true ->
  Socket.rxbuf s = [] ->
  Socket.tx s = tx_script [bye] ++ txs ->
  Socket.rx s = rx_script [bye] ++ rxs ->
  farewell bye ->
  exists evs s',
    __exit__ (at_socket a s w)
    = (Ret tt,
       at_socket a s'
         (Socket.logs (evs ++ [Socket.EvClose (Socket.fd s)]) w))
    /\ Socket.closed s' = true
    /\ forallb (is_io (Socket.fd s)) evs = true
    /\ sent_bytes evs = request_of QUIT_CMD.
Proof.
  intros Hu Hbuf Htx Hrx [Hcmd Hbye].
  unfold tx_script in Htx. unfold rx_script in Hrx.
  cbn [flat_map] in Htx, Hrx. rewrite app_nil_r in Htx, Hrx.
  destruct (TurnFacts.exchange_served QUIT_MARKER bye a s w txs rxs
              Hu Hbuf Htx Hrx eq_refl Hbye) as (evs & Hx & Hio & Hsent).
  rewrite Hcmd in Hx, Hsent.
  exists evs. eexists. split; [|split; [|split]].
  - rewrite ExitFacts.exit_eq, RunFacts.send_connected, Hx, on_socket_at.
    unfold Socket.close.
    assert (Hc : Socket.closed (Socket.with_rx (Socket.with_tx s txs) rxs [])
                 = false).
    { cbn. unfold Socket.usable in Hu. now destruct (Socket.closed s). }
    rewrite Hc. unfold Socket.log. rewrite logs_logs. reflexivity.
  - reflexivity.
  - exact Hio.
  - exact Hsent.
Qed.

(** One file whose turns and farewell all go well. *)
Lemma with_Connection_served addr tgt w n d bye txs rxs out :
  target addr = Some tgt ->
  Socket.net w
  = Socket.Establish (tx_script (d ++ [bye]) ++ txs)
                     (rx_script (d ++ [bye]) ++ rxs) :: n ->
  Forall (served END_MARKER) d ->
  farewell bye ->
  exists evs,
    Main.with_Connection addr (Main.send_lines (map t_cmd d)) out w
    = (Ret tt, out ++ map t_text d,
       Socket.mkWorld n (S (Socket.next_fd w))
         (Socket.trace w
          ++ [Socket.EvSocket (Socket.next_fd w) (family_for addr);
              Socket.EvConnect (Socket.next_fd w) tgt None]
          ++ evs ++ [Socket.EvClose (Socket.next_fd w)]))
    /\ forallb (is_io (Socket.next_fd w)) evs = true
    /\ sent_bytes evs = requests d ++ request_of QUIT_CMD.
Proof.
  intros Ht Hnet Hd Hbye. unfold Main.with_Connection.
  rewrite (enter_fresh addr tgt w _ _ n Ht Hnet).
  set (s0 := Socket.mk (Socket.next_fd w) (family_for addr) true false
                       (Some 100%N) (tx_script (d ++ [bye]) ++ txs)
                       (rx_script (d ++ [bye]) ++ rxs) []).
  set (w0 := Socket.mkWorld n (S (Socket.next_fd w)) _).
  destruct (TurnFacts.send_lines_served d out addr s0 w0
              (tx_script [bye] ++ txs) (rx_script [bye] ++ rxs))
    as (evs1 & Hrun & Hio1 & Hsent1); trivial.
  { subst s0. cbn [Socket.tx]. now rewrite tx_script_app, <- app_assoc. }
  { subst s0. cbn [Socket.rx]. now rewrite rx_script_app, <- app_assoc. }
  rewrite Hrun.
  destruct (exit_served bye addr
              (Socket.with_rx (Socket.with_tx s0 (tx_script [bye] ++ txs))
                              (rx_script [bye] ++ rxs) [])
              (Socket.logs evs1 w0) txs rxs)
    as (evs2 & s' & Hexit & _ & Hio2 & Hsent2); trivial.
  rewrite Hexit. exists (evs1 ++ evs2). split; [|split].
  - subst w0 s0. unfold Socket.logs.
    cbn [env at_socket Socket.trace Socket.net
         Socket.next_fd Socket.fd Socket.with_rx Socket.with_tx].
    rewrite <- !app_assoc. reflexivity.
  - rewrite forallb_app. subst s0. cbn [Socket.fd] in Hio1.
    cbn [Socket.fd Socket.with_rx Socket.with_tx] in Hio2.
    now rewrite Hio1, Hio2.
  - now rewrite RunFacts.sent_bytes_app, Hsent1, Hsent2.
Qed.

Lemma connects_app e1 e2 : connects (e1 ++ e2) = connects e1 + connects e2.
Proof. unfold connects. now rewrite filter_app, length_app. Qed.

Lemma closes_app e1 e2 : closes (e1 ++ e2) = closes e1 + closes e2.
Proof. unfold closes. now rewrite filter_app, length_app. Qed.

End BatchFacts.

(** The batch run on files whose lines and farewells the server answers:
    every reply is printed, in the order of the lines and of the files;
    each file has one connection of its own, which is closed after its
    farewell; and what is sent is the requests of the lines and one [quit]
    for each file. *)
Theorem batch_prints_every_reply :
  forall addr tgt files out w n,
    target addr = Some tgt ->
    Socket.net w = map link_of files ++ n ->
    Forall well_served files ->
    exists evs,
      Main.batch addr (map lines_of files) out w
      = (Ret tt, out ++ flat_map replies_of files,
         Socket.mkWorld n (Socket.next_fd w + length files)
                        (Socket.trace w ++ evs))
      /\ connects evs = length files
      /\ closes evs = length files
      /\ sent_bytes evs = flat_map received files.
Proof.
  intros addr tgt files. induction files as [|f files IH];
    intros out w n Ht Hnet Hfiles.
  - exists []. cbn in Hnet. cbn [map Main.batch flat_map length].
    rewrite !app_nil_r, Nat.add_0_r. repeat split.
    destruct w; cbn in *; now subst.
  - inversion Hfiles as [|? ? [Hd Hbye] Hrest]; subst.
    destruct f as [d bye]. cbn [fst snd] in Hd, Hbye.
    cbn [map app] in Hnet. unfold link_of at 1 in Hnet. cbn [fst snd] in Hnet.
    rewrite <- (app_nil_r (tx_script (d ++ [bye]))),
            <- (app_nil_r (rx_script (d ++ [bye]))) in Hnet.
    destruct (BatchFacts.with_Connection_served addr tgt w
                (map link_of files ++ n) d bye [] [] out Ht Hnet Hd Hbye)
      as (evs1 & Hrun & Hio1 & Hsent1).
    cbn [map Main.batch]. unfold lines_of at 1. cbn [fst]. rewrite Hrun.
    destruct (IH (out ++ map t_text d)
                 (Socket.mkWorld (map link_of files ++ n)
                    (S (Socket.next_fd w))
                    (Socket.trace w
                     ++ [Socket.EvSocket (Socket.next_fd w) (family_for addr);
                         Socket.EvConnect (Socket.next_fd w) tgt None]
                     ++ evs1 ++ [Socket.EvClose (Socket.next_fd w)]))
                 n Ht eq_refl Hrest)
      as (evs2 & Hrun2 & Hc2 & Hx2 & Hsent2).
    exists (([Socket.EvSocket (Socket.next_fd w) (family_for addr);
              Socket.EvConnect (Socket.next_fd w) tgt None]
             ++ evs1 ++ [Socket.EvClose (Socket.next_fd w)]) ++ evs2).
    split; [|split; [|split]].
    + rewrite Hrun2. cbn [Socket.next_fd Socket.trace flat_map length].
      unfold replies_of at 2. cbn [fst].
      rewrite <- !app_assoc, Nat.add_succ_r. reflexivity.
    + rewrite BatchFacts.connects_app, Hc2, !BatchFacts.connects_app,
        (RunFacts.is_io_connects _ _ Hio1). reflexivity.
    + rewrite BatchFacts.closes_app, Hx2, !BatchFacts.closes_app,
        (TurnFacts.is_io_closes _ _ Hio1). cbn. lia.
    + rewrite RunFacts.sent_bytes_app, Hsent2, !RunFacts.sent_bytes_app,
        Hsent1. cbn [flat_map]. unfold received at 2. cbn [fst].
      cbn [sent_bytes flat_map app]. now rewrite app_nil_r.
Qed.

Lemma batch_prints_every_reply_witness :
  exists evs,
    Main.batch Sample.local
      [[lit "version" ++ [10]%N; lit "uptime" ++ [10]%N]] [] Scene.talkative
    = (Ret tt, [lit "Liquidsoap 2.2.0"; lit "0d 00h 01m 02s"],
       Socket.mkWorld [] 4 (Socket.trace Scene.talkative ++ evs))
    /\ connects evs = 1
    /\ closes evs = 1
    /\ sent_bytes evs
       = ascii_bytes "version" ++ [x0a] ++ ascii_bytes "uptime" ++ [x0a]
         ++ ascii_bytes "quit" ++ [x0a].
Proof.
  apply (batch_prints_every_reply
           Sample.local (Socket.Inet (lit "localhost") 1234)
           [([Scene.version_turn; Scene.uptime_turn], Scene.bye_turn)]
           [] Scene.talkative []); try reflexivity.
  repeat constructor.
  - exists (ascii_bytes "version"), (ascii_bytes "Liquidsoap 2.2.0").
    repeat split; reflexivity.
  - exists (ascii_bytes "uptime"), (ascii_bytes "0d 00h 01m 02s").
    repeat split; reflexivity.
  - exists (ascii_bytes "quit"), [].
    repeat split; reflexivity.
Defined.



(** ** After a failure *)

(** Once a [connect] has failed, the connection does not connect again:
    the socket that was made stays in [self.socket], so every later [send],
    and with it every [Console._send], finds a socket, fails without
    reaching the transport, and leaves everything as it is. *)
Theorem no_reconnect_after_failed_connect :
  forall addr o w e n tgt,
    Socket.net w = Socket.Refuse e :: n ->
    target addr = Some tgt ->
    let failed := snd (Connection._connect (St (Conn addr o) w)) in
    forall command marker,
      exists e1 e2,
        Connection.send command marker failed = (Raise e1, failed)
        /\ Console._send command failed = (Raise e2, failed)
        /\ connects (Socket.trace (env failed)) = connects (Socket.trace w) + 1.
Proof.
  intros addr o w e n tgt Hnet Ht failed command marker. subst failed.
  rewrite RunFacts.connect_eq, Ht, Hnet. cbn [snd].
  set (w' := Socket.mkWorld n _ _).
  assert (Hsend : forall c m,
             exists e1,
               Connection.send c m (at_socket addr (made_socket addr w) w')
               = (Raise e1, at_socket addr (made_socket addr w) w')).
  { intros c m. destruct (Py.encode (Py.strip c)) as [data|] eqn:Henc.
    - exists Socket.ENOTCONN.
      now apply (send_after_failed_connect c m addr _ w' data).
    - eexists. rewrite RunFacts.send_connected.
      unfold exchange, bind at 1, Connection.write_request.
      rewrite Henc. reflexivity. }
  destruct (Hsend command marker) as (e1 & H1).
  destruct (Hsend command Connection.END_MARKER) as (e2 & H2).
  exists e1, e2. split; [exact H1|]. split.
  - unfold Console._send, try_except_OSError. rewrite H2.
    destruct (is_OSError e2); [exact H2 | reflexivity].
  - subst w'. unfold made_world. cbn [env at_socket Socket.trace].
    rewrite !BatchFacts.connects_app. cbn. lia.
Qed.

Lemma no_reconnect_after_failed_connect_witness :
  exists e1 e2,
    Connection.send (lit "help") Connection.END_MARKER Scene.refused
    = (Raise e1, Scene.refused)
    /\ Console._send (lit "help") Scene.refused = (Raise e2, Scene.refused)
    /\ connects (Socket.trace (env Scene.refused))
       = connects (Socket.trace Sample.refusing) + 1.
Proof.
  apply (no_reconnect_after_failed_connect
           Sample.local None Sample.refusing Socket.ECONNREFUSED
           [Sample.version_server] (Socket.Inet (lit "localhost") 1234)
           eq_refl eq_refl (lit "help") Connection.END_MARKER).
Defined.

(** An [OSError] raised by a write or a read of the farewell, a timeout
    for one, is swallowed: [__exit__] returns, and the socket is closed,
    the close being the last thing the transport sees. *)
Theorem exit_closes_after_swallowed_error :
  forall a s w e,
    Socket.usable s = true ->
    call_raises (request_of Connection.QUIT_CMD) Connection.QUIT_MARKER s e ->
    is_OSError e = true ->
    exists evs s2,
      Connection.__exit__ (at_socket a s w)
      = (Ret tt,
         at_socket a s2
           (Socket.logs (evs ++ [Socket.EvClose (Socket.fd s)]) w))
      /\ Socket.closed s2 = true
      /\ Socket.fd s2 = Socket.fd s.
Proof.
  intros a s w e Hu Hraise He.
  destruct (ExchangeFacts.exchange_raises
              Connection.QUIT_CMD Connection.QUIT_MARKER
              (ascii_bytes "quit") a s w e eq_refl Hu Hraise)
    as (evs & s' & Hx & Hfd & Hu').
  exists evs. eexists. split; [|split].
  - rewrite ExitFacts.exit_eq, RunFacts.send_connected, Hx, He.
    rewrite LoopFacts.on_socket_at. unfold Socket.close.
    assert (Hc : Socket.closed s' = false).
    { unfold Socket.usable in Hu'. now destruct (Socket.closed s'). }
    rewrite Hc, Hfd. unfold Socket.log.
    rewrite SocketFacts.logs_logs. reflexivity.
  - reflexivity.
  - reflexivity.
Qed.

Lemma exit_closes_after_swallowed_error_witness :
  exists evs s2,
    Connection.__exit__
      (at_socket Sample.local Scene.mute_socket Sample.somewhere)
    = (Ret tt,
       at_socket Sample.local s2
         (Socket.logs (evs ++ [Socket.EvClose 3]) Sample.somewhere))
    /\ Socket.closed s2 = true
    /\ Socket.fd s2 = 3.
Proof.
  apply (exit_closes_after_swallowed_error
           Sample.local Scene.mute_socket Sample.somewhere Socket.timed_out);
    try reflexivity.
  apply (read_raises _ _ _ _ [100] [] [] []); try reflexivity.
  vm_compute. lia.
Defined.

(** An error of the farewell that is no [OSError], a keyboard interrupt
    for one, is not swallowed: it is raised out of [__exit__], and the
    socket is left open, no close reaching the transport. *)
Theorem exit_lets_other_errors_through :
  forall a s w e,
    Socket.usable s = true ->
    call_raises (request_of Connection.QUIT_CMD) Connection.QUIT_MARKER s e ->
    is_OSError e = false ->
    exists evs s',
      Connection.__exit__ (at_socket a s w)
      = (Raise e, at_socket a s' (Socket.logs evs w))
      /\ Socket.fd s' = Socket.fd s
      /\ Socket.usable s' = true
      /\ closes evs = 0.
Proof.
  intros a s w e Hu Hraise He.
  destruct (ExchangeFacts.exchange_raises
              Connection.QUIT_CMD Connection.QUIT_MARKER
              (ascii_bytes "quit") a s w e eq_refl Hu Hraise)
    as (evs & s' & Hx & Hfd & Hu').
  pose proof (RunFacts.exchange_inv _ _ _ _ _ _ _ Hx)
    as (evs' & (o & Hst & Hio & _) & _).
  unfold at_socket in Hst. injection Hst as _ Hlogs.
  apply app_inv_head in Hlogs. subst evs'.
  exists evs, s'. split; [|split; [|split]]; trivial.
  - rewrite ExitFacts.exit_eq, RunFacts.send_connected, Hx, He. reflexivity.
  - apply (TurnFacts.is_io_closes _ _ Hio).
Qed.

Lemma exit_lets_other_errors_through_witness :
  exists evs s',
    Connection.__exit__
      (at_socket Sample.local Scene.interrupted_socket Sample.somewhere)
    = (Raise Scene.interrupt,
       at_socket Sample.local s' (Socket.logs evs Sample.somewhere))
    /\ Socket.fd s' = 3
    /\ Socket.usable s' = true
    /\ closes evs = 0.
Proof.
  apply (exit_lets_other_errors_through
           Sample.local Scene.interrupted_socket Sample.somewhere
           Scene.interrupt); try reflexivity.
  apply (read_raises _ _ _ _ [100] [] [] []); try reflexivity.
  vm_compute. lia.
Defined.

(** The retry of [Console._send] after a lost link: the first [send]
    drops the socket, the second connects anew, and when the new link
    takes the request and brings the reply, [Console._send] returns the
    text of that reply, read from the new socket alone. *)
Theorem interactive_send_reconnects :
  forall line a s w data tgt n ns txs chunks rxs body text,
    Socket.usable s = true ->
    Py.encode (Py.strip line) = Some data ->
    gives_out (data ++ [x0a]) Connection.END_MARKER s ->
    target a = Some tgt ->
    Socket.net w
    = Socket.Establish (map Socket.TxAccept ns ++ txs)
                       (map Socket.RxData chunks ++ rxs) :: n ->
    all_positive ns = true ->
    length data + 1 <= list_sum ns ->
    all_nonempty chunks = true ->
    concat chunks = body ++ Connection.END_MARKER ->
    quiet Connection.END_MARKER [] (body ++ Connection.END_MARKER) = true ->
    Py.decode body = Some text ->
    exists st' s',
      Console._send line (at_socket a s w) = (Ret text, st')
      /\ socket (self st') = Some s'
      /\ Socket.fd s' = Socket.next_fd w
      /\ Socket.net (env st') = n.
Proof.
  intros line a s w data tgt n ns txs chunks rxs body text
         Hu Henc Hout Ht Hnet Hns Hsum Hne Hcat Hq Hdec.
  destruct (ExchangeFacts.exchange_gives_out line Connection.END_MARKER
              data a s w Henc Hu Hout) as (evs & Hx).
  unfold Console._send, try_except_OSError.
  rewrite RunFacts.send_connected, Hx.
  cbn [is_OSError Connection.lost exn_cls].
  rewrite RunFacts.send_disconnected. unfold bind at 1, no_socket.
  rewrite RunFacts.connect_eq, Ht. cbn [Socket.logs Socket.net]. rewrite Hnet.
  set (s1 := Socket.mk _ _ _ _ _ _ _ _). set (w1 := Socket.mkWorld n _ _).
  destruct (ExchangeFacts.write_request_completes line data a s1 w1 ns txs)
    as (sent & txs' & Hw & _ & _); trivial.
  destruct (ExchangeFacts.read_reply_returns Connection.END_MARKER body text
              chunks a (Socket.with_tx s1 txs')
              (Socket.logs (map (Socket.EvSend (Socket.fd s1)) sent) w1) rxs)
    as (got & Hr & _); trivial.
  eexists. eexists. split.
  - unfold exchange, bind at 1. rewrite Hw. exact Hr.
  - repeat split.
Qed.

Lemma interactive_send_reconnects_witness :
  exists st' s',
    Console._send (lit "version") Scene.revived
    = (Ret (lit "Liquidsoap 2.2.0"), st')
    /\ socket (self st') = Some s'
    /\ Socket.fd s' = 4
    /\ Socket.net (env st') = [].
Proof.
  apply (interactive_send_reconnects
           (lit "version") Sample.local Sample.dead_socket
           (Socket.mkWorld [Sample.version_server] 4 [])
           (ascii_bytes "version") (Socket.Inet (lit "localhost") 1234) []
           [3; 100] []
           [ascii_bytes "Liquidsoap 2.2.0" ++ [x0d; x0a; x45];
            [x4e; x44; x0d; x0a]] []
           (ascii_bytes "Liquidsoap 2.2.0") (lit "Liquidsoap 2.2.0"));
    try reflexivity.
  - apply (zero_write _ _ _ [] []); try reflexivity. vm_compute. lia.
  - vm_compute. lia.
Defined.

(** The retry of [Console._send] after a read that raised an [OSError],
    a timeout for one: the socket was kept, so the same request is written
    a second time to the same socket, and the reply that arrives then is
    the one returned. The server has received the command twice. *)
Theorem interactive_send_repeats_request :
  forall line a s w data ns1 ns2 txs chunks rxs body text e,
    Socket.usable s = true ->
    Py.encode (Py.strip line) = Some data ->
    Socket.tx s
    = map Socket.TxAccept ns1 ++ map Socket.TxAccept ns2 ++ txs ->
    all_positive ns1 = true ->
    list_sum ns1 = length data + 1 ->
    all_positive ns2 = true ->
    list_sum ns2 = length data + 1 ->
    Socket.rxbuf s = [] ->
    Socket.rx s = Socket.RxRaise e :: map Socket.RxData chunks ++ rxs ->
    is_OSError e = true ->
    all_nonempty chunks = true ->
    concat chunks = body ++ Connection.END_MARKER ->
    quiet Connection.END_MARKER [] (body ++ Connection.END_MARKER) = true ->
    Py.decode body = Some text ->
    exists evs s',
      Console._send line (at_socket a s w)
      = (Ret text, at_socket a s' (Socket.logs evs w))
      /\ Socket.fd s' = Socket.fd s
      /\ forallb (is_io (Socket.fd s)) evs = true
      /\ sent_bytes evs = (data ++ [x0a]) ++ (data ++ [x0a]).
Proof.
  intros line a s w data ns1 ns2 txs chunks rxs body text e
         Hu Henc Htx Hns1 Hsum1 Hns2 Hsum2 Hbuf Hrx He Hne Hcat Hq Hdec.
  pose proof (ReplyFacts.write_request_exact line data a s w ns1
                (map Socket.TxAccept ns2 ++ txs) Henc Hu Htx Hns1 Hsum1)
    as Hw1.
  set (s1 := Socket.with_tx s (map Socket.TxAccept ns2 ++ txs)) in *.
  set (w1 := Socket.logs _ w) in Hw1.
  assert (Hx1 : exchange line Connection.END_MARKER (at_socket a s w)
                = (Raise e,
                   at_socket a (Socket.with_rx s1 (map Socket.RxData chunks
                                                   ++ rxs) [])
                     (Socket.log (Socket.EvError (Socket.fd s) e) w1))).
  { unfold exchange, bind at 1. rewrite Hw1.
    unfold Connection.read_reply, bind at 1, Connection.read_fuel.
    cbn [at_socket self socket]. unfold bind at 1.
    rewrite RunFacts.read_loop_unfold by reflexivity.
    erewrite SocketFacts.recv_raise; [reflexivity | exact Hu | exact Hbuf
                                      | exact Hrx]. }
  set (s2 := Socket.with_rx s1 (map Socket.RxData chunks ++ rxs) []) in *.
  set (w2 := Socket.log _ w1) in Hx1.
  pose proof (ReplyFacts.write_request_exact line data a s2 w2 ns2 txs
                Henc Hu eq_refl Hns2 Hsum2) as Hw2.
  destruct (ExchangeFacts.read_reply_returns Connection.END_MARKER body text
              chunks a (Socket.with_tx s2 txs)
              (Socket.logs (map (Socket.EvSend (Socket.fd s2))
                              (pieces (data ++ [x0a]) ns2)) w2) rxs)
    as (got & Hr & _); trivial.
  assert (Hlen : length (data ++ [x0a]) <= length data + 1)
    by (rewrite length_app; cbn; lia).
  eexists. eexists. split; [|split; [|split]].
  - unfold Console._send, try_except_OSError.
    rewrite RunFacts.send_connected, Hx1, He, RunFacts.send_connected.
    unfold exchange, bind at 1. rewrite Hw2, Hr.
    subst w2 w1. unfold Socket.log. rewrite !SocketFacts.logs_logs.
    reflexivity.
  - reflexivity.
  - rewrite !forallb_app, !TurnFacts.is_io_sends, TurnFacts.is_io_recvs.
    unfold is_io, is_tx; simpl. now rewrite Nat.eqb_refl.
  - rewrite !RunFacts.sent_bytes_app, !TurnFacts.sent_bytes_sends,
      TurnFacts.sent_bytes_recvs.
    rewrite !ReplyFacts.concat_pieces by lia.
    cbn [sent_bytes flat_map app]. now rewrite !app_nil_r.
Qed.

Lemma interactive_send_repeats_request_witness :
  exists evs s',
    Console._send (lit "help")
      (at_socket Sample.local Scene.late_socket Sample.somewhere)
    = (Ret (lit "OK"),
       at_socket Sample.local s' (Socket.logs evs Sample.somewhere))
    /\ Socket.fd s' = 3
    /\ forallb (is_io 3) evs = true
    /\ sent_bytes evs
       = (ascii_bytes "help" ++ [x0a]) ++ (ascii_bytes "help" ++ [x0a]).
Proof.
  apply (interactive_send_repeats_request
           (lit "help") Sample.local Scene.late_socket Sample.somewhere
           (ascii_bytes "help") [5] [2; 3] []
           [ascii_bytes "OK" ++ Connection.END_MARKER] []
           (ascii_bytes "OK") (lit "OK") Socket.timed_out);
    reflexivity.
Defined.

(** ** Completion and help *)

Module StrFacts.

Lemma startswith_app s p :
  Str.startswith s p = true -> exists rest, s = p ++ rest.
Proof.
  revert s. induction p as [|c p IH]; intros s H.
  - now exists s.
  - destruct s as [|d s]; [discriminate|]. cbn [Str.startswith] in H.
    apply andb_prop in H. destruct H as [Hc Hs].
    apply N.eqb_eq in Hc. subst d.
    destruct (IH s Hs) as (rest & ->). now exists rest.
Qed.

Lemma startswith_prefix p rest : Str.startswith (p ++ rest) p = true.
Proof.
  induction p as [|c p IH]; [now destruct rest|].
  cbn. now rewrite N.eqb_refl, IH.
Qed.

(** Characters that are not white space go to the word being read. *)
Lemma split_ws_from_word t cur s :
  no_space t = true ->
  Str.split_ws_from cur (t ++ s) = Str.split_ws_from (rev t ++ cur) s.
Proof.
  revert cur. induction t as [|c t IH]; intros cur H; [reflexivity|].
  cbn in H. apply andb_prop in H. destruct H as [Hc Ht].
  apply negb_true_iff in Hc. cbn [app Str.split_ws_from]. rewrite Hc.
  rewrite (IH (c :: cur) Ht). cbn [rev]. now rewrite <- app_assoc.
Qed.

(** A word that has begun is the first one given, whatever follows. *)
Lemma split_ws_from_begun c cur s :
  exists tok l,
    Str.split_ws_from (c :: cur) s = (rev (c :: cur) ++ tok) :: l.
Proof.
  revert c cur. induction s as [|d s IH]; intros c cur.
  - exists [], []. cbn [Str.split_ws_from]. now rewrite app_nil_r.
  - cbn [Str.split_ws_from]. destruct (Py.isspace d).
    + exists [], (Str.split_ws_from [] s). now rewrite app_nil_r.
    + destruct (IH d (c :: cur)) as (tok & l & ->).
      exists (d :: tok), l. cbn [rev]. now rewrite <- !app_assoc.
Qed.

(** White space alone holds no word. *)
Lemma split_ws_blank ws :
  forallb Py.isspace ws = true -> Str.split_ws_from [] ws = [].
Proof.
  induction ws as [|c ws IH]; intros H; [reflexivity|].
  cbn in H. apply andb_prop in H. destruct H as [Hc Hws].
  cbn [Str.split_ws_from]. rewrite Hc. exact (IH Hws).
Qed.

(** The second word of a help line that matches a text typed without
    white space begins with that text. *)
Lemma second_word text rest :
  0 < length text -> no_space text = true ->
  exists tok,
    nth_error (Str.split_ws (lit "| " ++ text ++ rest)) 1
    = Some (text ++ tok).
Proof.
  intros Hlen Hns. unfold Str.split_ws.
  change (lit "| " ++ text ++ rest) with (124 :: 32 :: text ++ rest)%N.
  cbn [Str.split_ws_from].
  change (Py.isspace 124) with false. change (Py.isspace 32) with true.
  cbn iota. rewrite (split_ws_from_word text [] rest Hns), app_nil_r.
  destruct (rev text) as [|c cur] eqn:Hrev.
  - apply (f_equal (@length N)) in Hrev. rewrite length_rev in Hrev.
    cbn in Hrev. lia.
  - destruct (split_ws_from_begun c cur rest) as (tok & l & ->).
    exists tok. rewrite <- Hrev, rev_involutive. reflexivity.
Qed.

(** A bar and blanks are one word. *)
Lemma bare_bar ws :
  forallb Py.isspace ws = true ->
  nth_error (Str.split_ws (lit "| " ++ ws)) 1 = None.
Proof.
  intros H. unfold Str.split_ws.
  change (lit "| " ++ ws) with (124 :: 32 :: ws)%N.
  cbn [Str.split_ws_from].
  change (Py.isspace 124) with false. change (Py.isspace 32) with true.
  cbn iota. now rewrite (split_ws_blank ws H).
Qed.

Lemma add_names_matching text :
  0 < length text -> no_space text = true ->
  forall lines names,
    exists l,
      Completion.add_names text names lines = Some (names ++ l)
      /\ forallb (fun name => Str.startswith name text) l = true
      /\ length l <= length lines.
Proof.
  intros Hlen Hns. induction lines as [|line lines IH]; intros names.
  - exists []. cbn. now rewrite app_nil_r.
  - cbn [Completion.add_names].
    destruct (Str.startswith line (lit "| " ++ text)) eqn:Hsw.
    + apply startswith_app in Hsw. destruct Hsw as (rest & ->).
      rewrite <- app_assoc.
      destruct (second_word text rest Hlen Hns) as (tok & ->).
      destruct (IH (names ++ [text ++ tok])) as (l & Hadd & Hall & Hl).
      exists ((text ++ tok) :: l). rewrite <- app_assoc in Hadd.
      split; [exact Hadd|]. split.
      * cbn [forallb]. now rewrite startswith_prefix, Hall.
      * cbn [length]. lia.
    + destruct (IH names) as (l & Hadd & Hall & Hl).
      exists l. split; [exact Hadd|]. split; [exact Hall|]. cbn [length]. lia.
Qed.

Lemma add_names_no_word text names line lines :
  Str.startswith line (lit "| " ++ text) = true ->
  nth_error (Str.split_ws line) 1 = None ->
  Completion.add_names text names (line :: lines) = None.
Proof.
  intros Hsw Hnth. cbn [Completion.add_names]. now rewrite Hsw, Hnth.
Qed.

Lemma add_names_bare_bar ws :
  forallb Py.isspace ws = true ->
  forall lines names,
    In (lit "| " ++ ws) lines ->
    Completion.add_names [] names lines = None.
Proof.
  intros Hws. induction lines as [|line lines IH]; intros names Hin.
  - destruct Hin.
  - destruct Hin as [-> | Hin].
    + apply add_names_no_word; [now destruct ws | exact (bare_bar ws Hws)].
    + cbn [Completion.add_names].
      destruct (Str.startswith line (lit "| " ++ [])).
      * destruct (nth_error (Str.split_ws line) 1); [|reflexivity].
        now apply IH.
      * now apply IH.
Qed.

Lemma strip_help_blank arg :
  forallb Py.isspace arg = true ->
  Py.strip (lit "help " ++ arg) = Py.strip (lit "help").
Proof.
  intros H.
  change (lit "help " ++ arg) with ([] ++ lit "help" ++ (32%N :: arg)).
  rewrite (CodecFacts.strip_around [] (lit "help") (32%N :: arg));
    [reflexivity | reflexivity |].
  cbn [forallb]. now rewrite H.
Qed.

End StrFacts.

(** The names [Console.completenames] adds for a text that is not empty
    and holds no white space: the help text is asked for once, with the
    retry of [Console._send]; no line of it makes the completion fail, the
    names inherited come first, and every name added begins with the text
    typed, at most one name for each line of the help text. *)
Theorem completenames_offers_matching_commands :
  forall text inherited st reply st',
    0 < length text ->
    no_space text = true ->
    Console._send (lit "help") st = (Ret reply, st') ->
    exists l,
      Completion.completenames text inherited st
      = (Ret (Some (inherited ++ l)), st')
      /\ forallb (fun name => Str.startswith name text) l = true
      /\ length l <= length (Str.split 10 reply).
Proof.
  intros text inherited st reply st' Hlen Hns Hsend.
  destruct (StrFacts.add_names_matching text Hlen Hns
              (Str.split 10 reply) inherited) as (l & Hadd & Hall & Hl).
  exists l. split; [|split; assumption].
  unfold Completion.completenames, bind, ret. rewrite Hsend.
  now rewrite Hadd.
Qed.

Lemma completenames_offers_matching_commands_witness :
  exists l,
    Completion.completenames (lit "up") [lit "uptime_local"] Scene.helpful
    = (Ret (Some ([lit "uptime_local"] ++ l)), Scene.helped)
    /\ forallb (fun name => Str.startswith name (lit "up")) l = true
    /\ length l <= length (Str.split 10 Scene.help_text).
Proof.
  apply (completenames_offers_matching_commands
           (lit "up") [lit "uptime_local"] Scene.helpful Scene.help_text
           Scene.helped).
  - vm_compute. lia.
  - reflexivity.
  - reflexivity.
Defined.

(** Completion of the empty text, as asked for by the tabulator on an
    empty line: when a line of the help text is a bar, a blank and nothing
    but white space after it, [line.split()[1]] has no second word to
    give, and [Console.completenames] fails with the [IndexError], whatever
    the other lines hold. *)
Theorem completenames_fails_on_bare_bar :
  forall inherited st reply st' ws,
    Console._send (lit "help") st = (Ret reply, st') ->
    forallb Py.isspace ws = true ->
    In (lit "| " ++ ws) (Str.split 10 reply) ->
    Completion.completenames [] inherited st = (Ret None, st').
Proof.
  intros inherited st reply st' ws Hsend Hws Hin.
  unfold Completion.completenames, bind, ret. rewrite Hsend.
  now rewrite (StrFacts.add_names_bare_bar ws Hws (Str.split 10 reply)
                 inherited Hin).
Qed.

Lemma completenames_fails_on_bare_bar_witness :
  Completion.completenames [] [lit "exit"] Scene.helpful
  = (Ret None, Scene.helped).
Proof.
  apply (completenames_fails_on_bare_bar
           [lit "exit"] Scene.helpful Scene.help_text Scene.helped []).
  - reflexivity.
  - reflexivity.
  - vm_compute. right. right. right. left. reflexivity.
Defined.

(** [help] without a topic: [do_help] with an argument that is empty or
    white space sends the very request of the plain command [help], and
    prints and leaves what [default('help')] does. *)
Theorem do_help_without_topic :
  forall arg out st,
    forallb Py.isspace arg = true ->
    Commands.do_help arg out st = Commands.default (lit "help") out st
    /\ request_of (lit "help " ++ arg) = request_of (lit "help").
Proof.
  intros arg out st Hws.
  pose proof (StrFacts.strip_help_blank arg Hws) as Hstrip.
  assert (Hsend : Connection.send (lit "help " ++ arg) Connection.END_MARKER
                  = Connection.send (lit "help") Connection.END_MARKER).
  { unfold Connection.send, Connection.write_request. now rewrite Hstrip. }
  split.
  - unfold Commands.do_help, Commands.default, Console._send.
    now rewrite Hsend.
  - unfold request_of. now rewrite Hstrip.
Qed.

Lemma do_help_without_topic_witness :
  Commands.do_help [] [] Scene.helpful
  = Commands.default (lit "help") [] Scene.helpful
  /\ request_of (lit "help " ++ []) = request_of (lit "help").
Proof.
  apply (do_help_without_topic [] [] Scene.helpful). reflexivity.
Defined.

(** An address with a colon whose port is no number: the first [send]
    makes a socket and raises [ValueError] before any connection is tried,
    and [Console._send] does not repeat it, a [ValueError] being no
    [OSError]. The socket made stays in [self.socket], so every later
    [send] fails on it without connecting: no connection is ever tried. *)
Theorem bad_port_is_never_connected :
  forall addr w,
    target addr = None ->
    let bad := Exn ValueError "invalid literal for int()" in
    let failed := at_socket addr (made_socket addr w) (made_world addr w) in
    forall command marker,
      Connection.send command marker (no_socket addr w) = (Raise bad, failed)
      /\ Console._send command (no_socket addr w) = (Raise bad, failed)
      /\ (exists e,
             Connection.send command marker failed = (Raise e, failed))
      /\ connects (Socket.trace (env failed)) = connects (Socket.trace w).
Proof.
  intros addr w Ht bad failed command marker.
  assert (Hfirst : forall c m,
             Connection.send c m (no_socket addr w) = (Raise bad, failed)).
  { intros c m. rewrite RunFacts.send_disconnected. unfold bind at 1.
    unfold no_socket. now rewrite RunFacts.connect_eq, Ht. }
  split; [apply Hfirst|]. split; [|split].
  - unfold Console._send, try_except_OSError. now rewrite Hfirst.
  - subst failed.
    destruct (Py.encode (Py.strip command)) as [data|] eqn:Henc.
    + exists Socket.ENOTCONN.
      now apply (send_after_failed_connect command marker addr _ _ data).
    + eexists. rewrite RunFacts.send_connected.
      unfold exchange, bind at 1, Connection.write_request.
      rewrite Henc. reflexivity.
  - subst failed. unfold made_world. cbn [env at_socket Socket.trace].
    rewrite BatchFacts.connects_app. cbn. lia.
Qed.

Lemma bad_port_is_never_connected_witness :
  Connection.send (lit "help") Connection.END_MARKER
    (no_socket Scene.bad_port Sample.somewhere)
  = (Raise (Exn ValueError "invalid literal for int()"), Scene.unparsed)
  /\ Console._send (lit "help") (no_socket Scene.bad_port Sample.somewhere)
     = (Raise (Exn ValueError "invalid literal for int()"), Scene.unparsed)
  /\ (exists e,
         Connection.send (lit "help") Connection.END_MARKER Scene.unparsed
         = (Raise e, Scene.unparsed))
  /\ connects (Socket.trace (env Scene.unparsed))
     = connects (Socket.trace Sample.somewhere).
Proof.
  apply (bad_port_is_never_connected Scene.bad_port Sample.somewhere
           eq_refl (lit "help") Connection.END_MARKER).
Defined.
